(** * IRIS video anomaly pipeline: [src/ui/ai.ts] and [UploadLoopPlayer] of
    [src/ui/App.tsx]

    A shallow embedding of the detection pipeline of the desktop UI: the
    MobileNet embedding detector of [ai.ts] and the frame-differencing
    analyser, activation state machine, adaptive threshold, overlay box and
    alert rate limiter of [UploadLoopPlayer].

    Numbers.  A JavaScript [number] is an IEEE 754 binary64 value and is
    modelled by Rocq's primitive [float], whose operations are the same
    correctly rounded binary64 operations.  Quantities that the source only
    ever holds as integers (the [Date.now()] millisecond clock, counters,
    array lengths, pixel bytes, canvas sizes) are modelled in [Z]; they stay
    far below 2^53, where binary64 arithmetic on integers is exact. *)

From Stdlib Require Import ZArith List Bool Lia Sorted.
From Stdlib Require Import Floats.
From Stdlib Require String.
Import ListNotations.

Set Warnings "-inexact-float".
Local Open Scope Z_scope.

(** ** JavaScript number primitives *)

Module JS.

(** Integer to number.  Exact for [|z| < 2^53]. *)
Definition ofZ (z : Z) : float :=
  if z <? 0 then (- PrimFloat.of_uint63 (Uint63.of_Z (- z)))%float
  else PrimFloat.of_uint63 (Uint63.of_Z z).

(** [a > b] and [a < b] on numbers (false as soon as one side is NaN). *)
Definition gt (a b : float) : bool := (b <? a)%float.
Definition lt (a b : float) : bool := (a <? b)%float.

(** [Math.max(a, b)] and [Math.min(a, b)]: NaN if either argument is NaN,
    and [-0] is smaller than [+0]. *)
Definition max (a b : float) : float :=
  if is_nan a || is_nan b then nan
  else if (a <? b)%float then b
  else if (b <? a)%float then a
  else if is_zero a && get_sign a then b
  else a.

Definition min (a b : float) : float :=
  if is_nan a || is_nan b then nan
  else if (a <? b)%float then a
  else if (b <? a)%float then b
  else if is_zero a && negb (get_sign a) then b
  else a.

(** The exact value of a finite number with a negative exponent is
    [v / 2^k]; [scaled] returns [(v, 2^k)]. *)
Definition scaled (s : bool) (m : positive) (e : Z) : Z * Z :=
  (cond_Zopp s (Zpos m), 2 ^ (- e)).

(** [Math.floor(x)]: numbers that are already integral (exponent [>= 0]),
    zeros, infinities and NaN are returned unchanged. *)
Definition floor (x : float) : float :=
  match Prim2SF x with
  | S754_finite s m e =>
      if 0 <=? e then x
      else let '(v, d) := scaled s m e in ofZ (v / d)
  | _ => x
  end.

(** [Math.ceil(x) = -Math.floor(-x)], which also yields [-0] on (-1, 0). *)
Definition ceil (x : float) : float := (- floor (- x))%float.

(** [Math.round(x)]: the integer nearest to [x], ties towards +infinity,
    computed on the exact value; [-0] on [-0.5, 0). *)
Definition round (x : float) : float :=
  match Prim2SF x with
  | S754_finite s m e =>
      if 0 <=? e then x
      else
        let '(v, d) := scaled s m e in
        let z := (2 * v + d) / (2 * d) in
        if (z =? 0) && s then neg_zero else ofZ z
  | _ => x
  end.

(** [Math.fround(x)]: rounding to binary32, as done by a store into a
    [Float32Array]. *)
Definition fround (x : float) : float :=
  match Prim2SF x with
  | S754_finite s m e =>
      SF2Prim (binary_round_aux 24 128 s (Zpos m) e SpecFloat.loc_Exact)
  | _ => x
  end.

(** Truncation of an integral number to [Z] (used for loop bounds). *)
Definition toZ (x : float) : Z :=
  match Prim2SF x with
  | S754_finite s m e =>
      if 0 <=? e then cond_Zopp s (Zpos m) * 2 ^ e
      else Z.quot (cond_Zopp s (Zpos m)) (2 ^ (- e))
  | _ => 0
  end.

(** [a.reduce((x, y) => x + y, 0)]. *)
Definition sum (l : list float) : float :=
  fold_left (fun a b => (a + b)%float) l 0%float.

(** [0 <= x <= 1] on numbers. *)
Definition in_unit (x : float) : bool := ((0 <=? x) && (x <=? 1))%float.

End JS.

(** ** [src/ui/ai.ts]: the embedding detector *)

Module Ai.

Local Open Scope float_scope.

(** A [Float32Array]. *)
Definition Float32Array := list float.

(** The handle returned by [mobilenet.load]; an object, hence truthy. *)
Inductive Model : Set := MobileNetV2.

(** Outcome of the three awaited steps inside the [try] block of
    [createVideoAnomalyDetector]: [None] means the step threw or rejected. *)
Record Loader := mkLoader {
  import_tf : option unit;
  import_mobilenet : option unit;
  mobilenet_load : option Model
}.

(** How the returned promise settles. *)
Inductive Settled (A : Type) : Type :=
| Resolved (a : A)
| Rejected.
Arguments Resolved {A} a.
Arguments Rejected {A}.

(** What a call on the detector does besides changing the variables.
    [Await emb] is a call of [step] left suspended at its [await], holding
    the embedding it has read; it goes on later, see [resume]. *)
Inductive Effect : Type :=
| ConsoleWarn
| Await (emb : Float32Array)
| OnScore (score : float)
| SetTimeout (ms : Z)
| ClearTimeout (id : Z).

(** The variables the closures of a successfully built detector share. *)
Record Vars := mkVars {
  model : Model;
  timer : option Z;
  running : bool;
  meanVector : option Float32Array;
  sampleCount : Z
}.

(** The returned object: either the three constant closures of the [catch]
    block, or the closures over [Vars]. *)
Inductive AnomalyDetector : Type :=
| Fallback
| Live (intervalMs : Z) (v : Vars).

(** [cosineDistance]: the loop runs over the indices of [a]; a missing
    [b[i]] reads as [undefined], which is NaN in arithmetic. *)
Fixpoint cosineLoop (a b : Float32Array) (acc : float * float * float)
  : float * float * float :=
  match a with
  | [] => acc
  | x :: a' =>
      let '(dot, na, nb) := acc in
      let y := hd nan b in
      cosineLoop a' (tl b) (dot + x * y, na + x * x, nb + y * y)
  end.

Definition cosineDistance (a b : Float32Array) : float :=
  let '(dot, na, nb) := cosineLoop a b (0, 0, 0) in
  1 - (dot / (sqrt na * sqrt nb + 1e-8)).

(** The running-mean update [meanVector[i] = (1 - lr) * meanVector[i] + lr * emb[i]]
    for every index of [meanVector]; the store rounds to binary32. *)
Fixpoint updateMean (lr : float) (mean emb : Float32Array) : Float32Array :=
  match mean with
  | [] => []
  | m :: mean' =>
      JS.fround ((1 - lr) * m + lr * hd nan emb) :: updateMean lr mean' (tl emb)
  end.

(** What a call of [step] reads from the page: the embedding computed
    inside [tf.tidy] ([None] when the read throws), and the id that the
    [setTimeout] of that call returns if it is reached. *)
Definition Read : Type := option Float32Array * Z.

(** [step] is an [async] function: a call runs up to its [await] and goes
    on later.  [launch] is the part before the [await]: nothing happens
    when [running] is false; a read that throws goes through [catch] and
    [finally], which sets the timer, and the call is over; a read that
    returns leaves the call suspended. *)
Definition launch (intervalMs : Z) (emb : option Float32Array) (timerId : Z)
    (v : Vars) : Vars * list Effect :=
  if negb (running v) then (v, [])
  else
    match emb with
    | None =>
        (mkVars (model v) (Some timerId) (running v) (meanVector v)
                (sampleCount v),
         [SetTimeout intervalMs])
    | Some e => (v, [Await e])
    end.

(** [resume] is the part after the [await], on the variables as they are
    by then: the score is computed, the mean updated and [onScore] called
    whether or not the detector is still running; only the [finally] block
    tests [running] again before it sets the timer. *)
Definition resume (intervalMs : Z) (hasOnScore : bool) (e : Float32Array)
    (timerId : Z) (v : Vars) : Vars * list Effect :=
  let '(mean', count', score) :=
    match meanVector v with
    | None => (Some e, 1%Z, 0)
    | Some m =>
        (Some (updateMean 0.02 m e), (sampleCount v + 1)%Z, cosineDistance e m)
    end in
  (mkVars (model v) (if running v then Some timerId else timer v)
          (running v) mean' count',
   (if hasOnScore then [OnScore score] else [])
   ++ (if running v then [SetTimeout intervalMs] else [])).

(** One run of [step] from its call to its end with nothing in between:
    [launch] and, when the read returned, [resume] right after it, as for
    the calls the timer makes (lemma [step_launch_resume]).  [emb] and
    [timerId] are the read of the call, [hasOnScore] tells whether the
    caller passed [onScore]. *)
Definition step (intervalMs : Z) (hasOnScore : bool)
    (emb : option Float32Array) (timerId : Z) (v : Vars)
  : Vars * list Effect :=
  if negb (running v) then (v, [])
  else
    let '(mean', count', scored) :=
      match emb with
      | None => (meanVector v, sampleCount v, [])
      | Some e =>
          match meanVector v with
          | None => (Some e, 1%Z, [0])
          | Some m =>
              let score := cosineDistance e m in
              (Some (updateMean 0.02 m e), (sampleCount v + 1)%Z, [score])
          end
      end in
    (mkVars (model v) (Some timerId) (running v) mean' count',
     (if hasOnScore then map OnScore scored else []) ++ [SetTimeout intervalMs]).

(** The three methods of the returned object.  [start] on a detector that
    is not running sets [running] and calls [step()], which runs up to its
    [await] before [start] returns; [r] is what that call reads. *)
Definition start (r : Read) (d : AnomalyDetector)
  : AnomalyDetector * list Effect :=
  match d with
  | Fallback => (Fallback, [])
  | Live i v =>
      if running v then (d, [])
      else
        let '(v1, es) :=
          launch i (fst r) (snd r)
                 (mkVars (model v) (timer v) true (meanVector v)
                         (sampleCount v)) in
        (Live i v1, es)
  end.

Definition stop (d : AnomalyDetector) : AnomalyDetector * list Effect :=
  match d with
  | Fallback => (Fallback, [])
  | Live i v =>
      (Live i (mkVars (model v) None false (meanVector v) (sampleCount v)),
       match timer v with
       | Some id => [ClearTimeout id]
       | None => []
       end)
  end.

Definition isReady (d : AnomalyDetector) : bool :=
  match d with
  | Fallback => false
  | Live _ _ => true
  end.

(** [createVideoAnomalyDetector]: the imports and the model load run in
    sequence inside [try]; the first failure lands in [catch], which warns
    and returns the fallback object. *)
Definition createVideoAnomalyDetector (intervalMs : option Z) (l : Loader)
  : Settled AnomalyDetector * list Effect :=
  let interval := match intervalMs with Some i => i | None => 200%Z end in
  match import_tf l with
  | None => (Resolved Fallback, [ConsoleWarn])
  | Some _ =>
      match import_mobilenet l with
      | None => (Resolved Fallback, [ConsoleWarn])
      | Some _ =>
          match mobilenet_load l with
          | None => (Resolved Fallback, [ConsoleWarn])
          | Some m => (Resolved (Live interval (mkVars m None false None 0%Z)), [])
          end
      end
  end.

(** The calls a client can make on a detector, and their replay: the
    detector afterwards and everything the calls did. *)
Inductive Call : Type := CallStart (r : Read) | CallStop.

Definition call (c : Call) (d : AnomalyDetector)
  : AnomalyDetector * list Effect :=
  match c with
  | CallStart r => start r d
  | CallStop => stop d
  end.

Fixpoint calls (cs : list Call) (d : AnomalyDetector)
  : AnomalyDetector * list Effect :=
  match cs with
  | [] => (d, [])
  | c :: cs' =>
      let '(d1, e1) := call c d in
      let '(d2, e2) := calls cs' d1 in
      (d2, e1 ++ e2)
  end.

End Ai.

(** ** [src/ui/App.tsx]: [UploadLoopPlayer] *)

Module Box.
(** The overlay rectangle held by [boxEmaRef]. *)
Record t := mk { x : float; y : float; w : float; h : float }.
End Box.

Module App.

(** [ImageData] of [ctx.getImageData(0, 0, w, h)]: RGBA bytes, row major. *)
Record ImageData := mkImage { width : Z; height : Z; data : list Z }.

(** An entry of [recentScoresRef]. *)
Record Sample := mkSample { ts : Z; score : float }.

(** What a handler does to the outside world, in order. *)
Inductive Event : Type :=
| WindowThreshold (threshold : float)          (* window.__ai_threshold = ... *)
| AiThreshold (threshold : float)              (* 'ai-threshold' *)
| AiScore (score : float) (ts : Z) (threshold : float)   (* 'ai-score' *)
| AiActive (active : bool) (ts : Z)            (* 'ai-active' *)
| AiDetect (score : float) (ts : Z)            (* 'ai-detect' *)
| OnIrregularity (score : float)               (* the alert callback *)
| OnPlayChange (playing : bool)
| VideoPause                                   (* v.pause() *)
| VideoCurrentTime (t : float)                 (* v.currentTime = t *)
| ClearRect
| StrokeRect (b : Box.t)
| Detector (e : Ai.Effect).

(** The component instance: its [useState] cells, its [useRef] cells and
    the [lastFrame] variable of the analysis effect. *)
Record Player := mkPlayer {
  analyzing : bool;
  hasMedia : bool;
  alertsEnabled : bool;
  sensitivity : float;
  autoTune : bool;
  loopCount : Z;
  aiReady : bool;
  detectCount : Z;
  lastScore : float;
  avg1m : float;
  lastFireRef : Z;
  detectorRef : option Ai.AnomalyDetector;
  scoreBufRef : list float;
  warmupRef : Z;
  prevTimeRef : float;
  sustainRef : Z;
  activeRef : bool;
  holdFramesRef : Z;
  boxEmaRef : option Box.t;
  recentActivationsRef : list Z;
  prevActiveRef : bool;
  startTimeRef : Z;
  recentScoresRef : list Sample;
  lastFrame : option ImageData
}.

(** The cells as the component is mounted. *)
Definition mount : Player :=
  {| analyzing := false; hasMedia := false; alertsEnabled := true;
     sensitivity := 0.20%float; autoTune := true; loopCount := 0;
     aiReady := false; detectCount := 0; lastScore := 0%float;
     avg1m := 0%float; lastFireRef := 0; detectorRef := None;
     scoreBufRef := []; warmupRef := 0; prevTimeRef := 0%float;
     sustainRef := 0; activeRef := false; holdFramesRef := 0;
     boxEmaRef := None; recentActivationsRef := []; prevActiveRef := false;
     startTimeRef := 0; recentScoresRef := []; lastFrame := None |}.

(** The values a handler closed over when its render created it.  The
    analysis effect is re-created only when [analyzing], [hasMedia] or
    [onIrregularity] change and the [onScore] callback only once, so these
    may lag behind the cells of [Player]. *)
Record Closure := mkClosure {
  c_analyzing : bool;
  c_hasMedia : bool;
  c_alertsEnabled : bool;
  c_onIrregularity : bool;       (* was the prop passed? *)
  c_sensitivity : float;
  c_autoTune : bool
}.

(** The closure of a render of [p]. *)
Definition render (onIrregularity : bool) (p : Player) : Closure :=
  mkClosure (analyzing p) (hasMedia p) (alertsEnabled p) onIrregularity
            (sensitivity p) (autoTune p).

(** What one animation frame reads from the page. *)
Record Frame := mkFrame {
  videoPresent : bool;            (* videoRef.current *)
  readyState : Z;
  videoWidth : Z;
  videoHeight : Z;
  context2d : bool;               (* canvas.getContext('2d') *)
  pixels : list Z;                (* the bytes getImageData returns *)
  now : Z;                        (* Date.now() *)
  overlay : option (Z * Z)        (* overlayRef.current: width, height *)
}.

(** *** Frame differencing (lines 1306-1337) *)

Definition W : Z := 160.

(** [Math.max(1, Math.floor((v.videoHeight || 90) * (w / Math.max(1, v.videoWidth || 160))))] *)
Definition canvasHeight (vw vh : Z) : Z :=
  let vh' := if vh =? 0 then 90 else vh in
  let vw' := if vw =? 0 then 160 else vw in
  JS.toZ (JS.max 1 (JS.floor (JS.ofZ vh' * (JS.ofZ W / JS.max 1 (JS.ofZ vw')))%float)).

(** [d[i]] on a typed array: [undefined], hence NaN, outside the array. *)
Definition at_ (d : list Z) (i : Z) : float :=
  match nth_error d (Z.to_nat i) with
  | Some b => JS.ofZ b
  | None => nan
  end.

(** The values [lo, lo+1, ..., hi-1] of a [for] loop with step 1, and the
    values [0, 8, 16, ...] below [n] of a loop with step [block = 8]. *)
Definition upto (lo hi : Z) : list Z :=
  map (fun k => lo + Z.of_nat k) (seq 0 (Z.to_nat (hi - lo))).
Definition blocks (n : Z) : list Z :=
  map (fun k => 8 * Z.of_nat k) (seq 0 (Z.to_nat ((n + 7) / 8))).

(** [dr + dg + db] at pixel [(x, y)]. *)
Definition pixelDiff (w : Z) (curr last : list Z) (x y : Z) : float :=
  let idx := (y * w + x) * 4 in
  let dr := abs (at_ curr idx - at_ last idx) in
  let dg := abs (at_ curr (idx + 1) - at_ last (idx + 1)) in
  let db := abs (at_ curr (idx + 2) - at_ last (idx + 2)) in
  (dr + dg + db)%float.

(** The two inner loops over one block: returns [(sum, diff)]. *)
Definition blockSum (w h : Z) (curr last : list Z) (bx by_ : Z) (diff : float)
  : float * float :=
  fold_left (fun acc y =>
    fold_left (fun acc x =>
      let d := pixelDiff w curr last x y in
      ((fst acc + d)%float, (snd acc + d)%float))
      (upto bx (Z.min (bx + 8) w)) acc)
    (upto by_ (Z.min (by_ + 8) h)) (0%float, diff).

Record Scan := mkScan {
  diff : float;
  maxBlockSum : float;
  maxBlockX : Z;
  maxBlockY : Z
}.

(** The two outer loops over the blocks. *)
Definition scan (w h : Z) (curr last : list Z) : Scan :=
  fold_left (fun acc by_ =>
    fold_left (fun acc bx =>
      let '(sum, diff') := blockSum w h curr last bx by_ (diff acc) in
      if JS.gt sum (maxBlockSum acc) then mkScan diff' sum bx by_
      else mkScan diff' (maxBlockSum acc) (maxBlockX acc) (maxBlockY acc))
      (blocks w) acc)
    (blocks h) (mkScan 0 0 0 0).

(** [norm = diff / (w * h * 3 * 255)], [score = Math.min(1, Math.max(0, norm * 4))] *)
Definition norm (diff : float) (w h : Z) : float :=
  (diff / (JS.ofZ w * JS.ofZ h * 3 * 255))%float.
Definition saliencyScore (diff : float) (w h : Z) : float :=
  JS.min 1 (JS.max 0 (norm diff w h * 4)%float).

(** *** Score smoothing (lines 1342-1344 and 1458-1460) *)

(** [buf.push(score); if (buf.length > 8) buf.shift()] *)
Definition pushScore (buf : list float) (score : float) : list float :=
  let b := buf ++ [score] in
  if 8 <? Z.of_nat (length b) then tl b else b.

(** [buf.reduce((a, b) => a + b, 0) / buf.length] *)
Definition average (buf : list float) : float :=
  (JS.sum buf / JS.ofZ (Z.of_nat (length buf)))%float.

(** *** The 60 s window of the HUD (lines 1350-1357) *)

Fixpoint shiftWhile {A} (f : A -> bool) (l : list A) : list A :=
  match l with
  | [] => []
  | a :: l' => if f a then shiftWhile f l' else l
  end.

Definition pushRecent (rs : list Sample) (now : Z) (avg : float) : list Sample :=
  shiftWhile (fun s => ts s <? now - 60000) (rs ++ [mkSample now avg]).

(** [Math.round(v * 1000) / 1000] *)
Definition round3 (v : float) : float := (JS.round (v * 1000) / 1000)%float.

Definition averageOf (rs : list Sample) : float :=
  (fold_left (fun a b => (a + score b)%float) rs 0 / JS.ofZ (Z.of_nat (length rs)))%float.

(** *** Hysteresis, sustain and hold (lines 1358-1370) *)

Record Activation := mkActivation {
  sustain : Z;
  active : bool;
  holdFrames : Z
}.

Definition entryThr (sensitivity : float) : float := sensitivity.
Definition exitThr (sensitivity : float) : float :=
  JS.max 0 (sensitivity - 0.10)%float.

Definition stabilize (sensitivity avg : float) (a : Activation) : Activation :=
  let sustain1 :=
    if JS.gt avg (entryThr sensitivity) then Z.min 10 (sustain a + 1)
    else if JS.lt avg (exitThr sensitivity) then Z.max 0 (sustain a - 1)
    else sustain a in
  let '(active1, hold1) :=
    if negb (active a) && (3 <=? sustain1) then (true, 8)
    else (active a, holdFrames a) in
  if active1 && (sustain1 =? 0) then
    if 0 <? hold1 then mkActivation sustain1 active1 (hold1 - 1)
    else mkActivation sustain1 false hold1
  else mkActivation sustain1 active1 hold1.

(** *** The overlay box (lines 1372-1400) *)

Definition alpha : float := 0.35%float.

(** The block of maximal saliency in overlay coordinates. *)
Definition observedBox (ovw ovh h : Z) (s : Scan) : Box.t :=
  let scaleX := (JS.ofZ ovw / JS.ofZ W)%float in
  let scaleY := (JS.ofZ ovh / JS.ofZ h)%float in
  Box.mk (JS.floor (JS.ofZ (maxBlockX s) * scaleX)%float)
         (JS.floor (JS.ofZ (maxBlockY s) * scaleY)%float)
         (JS.ceil (8 * scaleX)%float)
         (JS.ceil (8 * scaleY)%float).

Definition ema (r prev : float) : float :=
  JS.round (alpha * r + (1 - alpha) * prev)%float.

Definition smoothBox (prev : option Box.t) (r : Box.t) : Box.t :=
  match prev with
  | None => r
  | Some b =>
      Box.mk (ema (Box.x r) (Box.x b)) (ema (Box.y r) (Box.y b))
             (ema (Box.w r) (Box.w b)) (ema (Box.h r) (Box.h b))
  end.

(** The new [boxEmaRef] and what is drawn. *)
Definition drawOverlay (ov : option (Z * Z)) (h : Z) (isActive : bool)
    (s : Scan) (prev : option Box.t) : option Box.t * list Event :=
  match ov with
  | None => (prev, [])
  | Some (ovw, ovh) =>
      if isActive && JS.gt (maxBlockSum s) 0 then
        let b := smoothBox prev (observedBox ovw ovh h s) in
        (Some b, [ClearRect; StrokeRect b])
      else (prev, [ClearRect])
  end.

(** *** Adaptive sensitivity (lines 1402-1420) *)

Definition windowMs : Z := 10000.

(** [recentActivations.filter((t) => nowMs - t <= windowMs)] *)
Definition prune (now : Z) (acts : list Z) : list Z :=
  filter (fun t => now - t <=? windowMs) acts.

Definition ratePerSec (acts : list Z) : float :=
  (JS.ofZ (Z.of_nat (length acts)) / (JS.ofZ windowMs / 1000))%float.

(** [s = Math.max(0.15, Math.min(0.6, s - err * k))] *)
Definition nudge (sensitivity rate : float) : float :=
  let target := 0.2%float in
  let err := (rate - target)%float in
  let k := 0.0025%float in
  JS.max 0.15 (JS.min 0.6 (sensitivity - err * k)%float).

(** The value [setSensitivity] is called with, if it is called. *)
Definition tune (sensitivity : float) (acts : list Z) : option float :=
  let s := nudge sensitivity (ratePerSec acts) in
  if JS.gt (abs (s - sensitivity)) 0.0005 then Some s else None.

(** *** Activation edges (lines 1422-1427) *)

Definition recordEdge (prevActive isActive : bool) (now : Z) (acts : list Z)
  : list Z :=
  if negb prevActive && isActive then
    let a := acts ++ [now] in
    if 120 <? Z.of_nat (length a) then tl a else a
  else acts.

(** *** The two alert guards (lines 1428 and 1461) *)

Definition frameFires (c : Closure) (isActive : bool) (avg : float)
    (now lastFire : Z) : bool :=
  c_alertsEnabled c && c_onIrregularity c && isActive
  && JS.gt avg (c_sensitivity c + 0.005)%float
  && (5000 <? now - lastFire).

Definition embeddingFires (c : Closure) (avg : float) (now lastFire : Z) : bool :=
  c_alertsEnabled c && c_onIrregularity c
  && JS.gt avg (c_sensitivity c + 0.01)%float
  && (8000 <? now - lastFire).

(** *** [analyze]: one animation frame (lines 1299-1439) *)

Definition activation (p : Player) : Activation :=
  mkActivation (sustainRef p) (activeRef p) (holdFramesRef p).

(** [lastFrame = curr], with [warmupRef.current++] during warm-up. *)
Definition keepFrame (curr : ImageData) (warmup : Z) (p : Player) : Player :=
  {| analyzing := analyzing p; hasMedia := hasMedia p;
     alertsEnabled := alertsEnabled p; sensitivity := sensitivity p;
     autoTune := autoTune p; loopCount := loopCount p; aiReady := aiReady p;
     detectCount := detectCount p; lastScore := lastScore p; avg1m := avg1m p;
     lastFireRef := lastFireRef p; detectorRef := detectorRef p;
     scoreBufRef := scoreBufRef p; warmupRef := warmup;
     prevTimeRef := prevTimeRef p; sustainRef := sustainRef p;
     activeRef := activeRef p; holdFramesRef := holdFramesRef p;
     boxEmaRef := boxEmaRef p; recentActivationsRef := recentActivationsRef p;
     prevActiveRef := prevActiveRef p; startTimeRef := startTimeRef p;
     recentScoresRef := recentScoresRef p; lastFrame := Some curr |}.

(** The part of [analyze] after the warm-up test (lines 1341-1435), for
    the frame [curr] of height [h], its block scan [s] and raw [score]. *)
Definition scoreFrame (c : Closure) (f : Frame) (h : Z) (curr : ImageData)
    (s : Scan) (score : float) (p : Player) : Player * list Event :=
  let now := now f in
  let buf := pushScore (scoreBufRef p) score in
  let avg := average buf in
  let sens := c_sensitivity c in
  let recent := pushRecent (recentScoresRef p) now avg in
  let shown := negb (Nat.eqb (length recent) 0) in
  let a := stabilize sens avg (activation p) in
  let '(box, drawn) :=
    drawOverlay (overlay f) h (active a) s (boxEmaRef p) in
  let acts :=
    if c_autoTune c then prune now (recentActivationsRef p)
    else recentActivationsRef p in
  let tuned := if c_autoTune c then tune sens acts else None in
  let acts' := recordEdge (prevActiveRef p) (active a) now acts in
  let fire := frameFires c (active a) avg now (lastFireRef p) in
  ({| analyzing := analyzing p; hasMedia := hasMedia p;
      alertsEnabled := alertsEnabled p;
      sensitivity :=
        match tuned with Some s' => s' | None => sensitivity p end;
      autoTune := autoTune p; loopCount := loopCount p;
      aiReady := aiReady p;
      detectCount := if fire then detectCount p + 1 else detectCount p;
      lastScore := if shown then round3 avg else lastScore p;
      avg1m := if shown then round3 (averageOf recent) else avg1m p;
      lastFireRef := if fire then now else lastFireRef p;
      detectorRef := detectorRef p;
      scoreBufRef := buf; warmupRef := warmupRef p;
      prevTimeRef := prevTimeRef p;
      sustainRef := sustain a; activeRef := active a;
      holdFramesRef := holdFrames a;
      boxEmaRef := box; recentActivationsRef := acts';
      prevActiveRef := active a; startTimeRef := startTimeRef p;
      recentScoresRef := recent; lastFrame := Some curr |},
   [WindowThreshold sens; AiThreshold sens; AiScore avg now sens]
   ++ drawn
   ++ [AiActive (active a) now]
   ++ (if fire then [OnIrregularity avg; AiDetect avg now] else [])).

Definition analyze (c : Closure) (f : Frame) (p : Player) : Player * list Event :=
  if negb (videoPresent f) || negb (c_hasMedia c) || negb (c_analyzing c)
     || (readyState f <? 2)
  then (p, [])
  else if negb (context2d f) then (p, [])
  else
    let h := canvasHeight (videoWidth f) (videoHeight f) in
    let curr := mkImage W h (pixels f) in
    match lastFrame p with
    | None => (keepFrame curr (warmupRef p) p, [])
    | Some last =>
        let s := scan W h (data curr) (data last) in
        let score := saliencyScore (diff s) W h in
        if warmupRef p <? 6 then (keepFrame curr (warmupRef p + 1) p, [])
        else scoreFrame c f h curr s score p
    end.

(** *** The [onScore] callback handed to the detector (lines 1455-1468) *)

(** The three [Date.now()] reads of the callback, in program order. *)
Record Reads := mkReads { atGuard : Z; atStore : Z; atEvent : Z }.

Definition onScore (c : Closure) (r : Reads) (score : float) (p : Player)
  : Player * list Event :=
  let upd (warmup : Z) (buf : list float) (fire : bool) :=
    {| analyzing := analyzing p; hasMedia := hasMedia p;
       alertsEnabled := alertsEnabled p; sensitivity := sensitivity p;
       autoTune := autoTune p; loopCount := loopCount p; aiReady := aiReady p;
       detectCount := if fire then detectCount p + 1 else detectCount p;
       lastScore := lastScore p; avg1m := avg1m p;
       lastFireRef := if fire then atStore r else lastFireRef p;
       detectorRef := detectorRef p;
       scoreBufRef := buf; warmupRef := warmup;
       prevTimeRef := prevTimeRef p; sustainRef := sustainRef p;
       activeRef := activeRef p; holdFramesRef := holdFramesRef p;
       boxEmaRef := boxEmaRef p; recentActivationsRef := recentActivationsRef p;
       prevActiveRef := prevActiveRef p; startTimeRef := startTimeRef p;
       recentScoresRef := recentScoresRef p; lastFrame := lastFrame p |} in
  if warmupRef p <? 6 then (upd (warmupRef p + 1) (scoreBufRef p) false, [])
  else
    let buf := pushScore (scoreBufRef p) score in
    let avg := average buf in
    let fire := embeddingFires c avg (atGuard r) (lastFireRef p) in
    (upd (warmupRef p) buf fire,
     if fire then [OnIrregularity avg; AiDetect avg (atEvent r)] else []).

(** *** [resetForLoop] (lines 1479-1497) *)

(** [detectorRef.current?.stop()] followed by
    [detectorRef.current?.start()]; [rd] is what the call of [step()]
    inside [start()] reads. *)
Definition restart (rd : Ai.Read) (d : option Ai.AnomalyDetector)
  : option Ai.AnomalyDetector * list Event :=
  match d with
  | None => (None, [])
  | Some d0 =>
      let '(d1, e1) := Ai.stop d0 in
      let '(d2, e2) := Ai.start rd d1 in
      (Some d2, map Detector (e1 ++ e2))
  end.

(** [t1] and [t2] are the two [Date.now()] reads, [rd] is the read of the
    step that the restart of the detector launches. *)
Definition resetForLoop (rd : Ai.Read) (t1 t2 : Z) (p : Player)
  : Player * list Event :=
  let '(d, es) := restart rd (detectorRef p) in
  ({| analyzing := analyzing p; hasMedia := hasMedia p;
      alertsEnabled := alertsEnabled p; sensitivity := sensitivity p;
      autoTune := autoTune p; loopCount := loopCount p; aiReady := aiReady p;
      detectCount := 0; lastScore := 0%float; avg1m := 0%float;
      lastFireRef := 0; detectorRef := d;
      scoreBufRef := []; warmupRef := 0;
      prevTimeRef := prevTimeRef p; sustainRef := 0;
      activeRef := false; holdFramesRef := 0;
      boxEmaRef := None; recentActivationsRef := [];
      prevActiveRef := prevActiveRef p; startTimeRef := t1;
      recentScoresRef := []; lastFrame := lastFrame p |},
   AiActive false t2 :: es).

(** *** The handlers of the [<video>] element and of the buttons
    (lines 1507-1518) *)

(** The cells the handlers below write besides those of [resetForLoop]. *)
Definition withPlayback (analyzing' hasMedia' : bool) (prevTime : float)
    (loops : Z) (p : Player) : Player :=
  {| analyzing := analyzing'; hasMedia := hasMedia';
     alertsEnabled := alertsEnabled p; sensitivity := sensitivity p;
     autoTune := autoTune p; loopCount := loops; aiReady := aiReady p;
     detectCount := detectCount p; lastScore := lastScore p; avg1m := avg1m p;
     lastFireRef := lastFireRef p; detectorRef := detectorRef p;
     scoreBufRef := scoreBufRef p; warmupRef := warmupRef p;
     prevTimeRef := prevTime; sustainRef := sustainRef p;
     activeRef := activeRef p; holdFramesRef := holdFramesRef p;
     boxEmaRef := boxEmaRef p; recentActivationsRef := recentActivationsRef p;
     prevActiveRef := prevActiveRef p; startTimeRef := startTimeRef p;
     recentScoresRef := recentScoresRef p; lastFrame := lastFrame p |}.

(** [videoRef.current?.currentTime || 0] *)
Definition orZero (currentTime : option float) : float :=
  match currentTime with
  | Some t => if is_nan t || is_zero t then 0%float else t
  | None => 0%float
  end.

Definition playChange (has : bool) (playing : bool) : list Event :=
  if has then [OnPlayChange playing] else [].

(** In the handlers, [currentTime] is [None] when [videoRef.current] is
    null, and [cb] tells whether [onPlayChange] was passed. *)
Definition onPlay (cb : bool) (currentTime : option float) (rd : Ai.Read)
    (t1 t2 : Z) (p : Player) : Player * list Event :=
  let '(p1, es) := resetForLoop rd t1 t2 p in
  (withPlayback true (hasMedia p1) (orZero currentTime) (loopCount p1) p1,
   es ++ playChange cb true).

Definition onTimeUpdate (currentTime : option float) (rd : Ai.Read)
    (t1 t2 : Z) (p : Player) : Player * list Event :=
  match currentTime with
  | None => (p, [])
  | Some t =>
      if JS.lt (t + 0.1)%float (prevTimeRef p) then
        let '(p1, es) := resetForLoop rd t1 t2 p in
        (withPlayback (analyzing p1) (hasMedia p1) t (loopCount p1 + 1) p1, es)
      else (withPlayback (analyzing p) (hasMedia p) t (loopCount p) p, [])
  end.

Definition onSeeking (currentTime : option float) (rd : Ai.Read)
    (t1 t2 : Z) (p : Player) : Player * list Event :=
  match currentTime with
  | None => (p, [])
  | Some t =>
      if JS.lt (t + 0.05)%float (prevTimeRef p) then
        let '(p1, es) := resetForLoop rd t1 t2 p in
        (withPlayback (analyzing p1) (hasMedia p1) (prevTimeRef p1)
                      (loopCount p1 + 1) p1, es)
      else (p, [])
  end.

(** The Stop button: [v.pause(); v.currentTime = 0; setAnalyzing(false);
    setHasMedia(false); setStatus('Stopped'); onPlayChange(false)]. *)
Definition onStopClick (cb : bool) (video : bool) (p : Player)
  : Player * list Event :=
  if negb video then (p, [])
  else (withPlayback false false (prevTimeRef p) (loopCount p) p,
        [VideoPause; VideoCurrentTime 0] ++ playChange cb false).

(** *** [maybeInit] (lines 1447-1474) *)

Definition withDetector (d : option Ai.AnomalyDetector) (ready : bool)
    (p : Player) : Player :=
  {| analyzing := analyzing p; hasMedia := hasMedia p;
     alertsEnabled := alertsEnabled p; sensitivity := sensitivity p;
     autoTune := autoTune p; loopCount := loopCount p; aiReady := ready;
     detectCount := detectCount p; lastScore := lastScore p; avg1m := avg1m p;
     lastFireRef := lastFireRef p; detectorRef := d;
     scoreBufRef := scoreBufRef p; warmupRef := warmupRef p;
     prevTimeRef := prevTimeRef p; sustainRef := sustainRef p;
     activeRef := activeRef p; holdFramesRef := holdFramesRef p;
     boxEmaRef := boxEmaRef p; recentActivationsRef := recentActivationsRef p;
     prevActiveRef := prevActiveRef p; startTimeRef := startTimeRef p;
     recentScoresRef := recentScoresRef p; lastFrame := lastFrame p |}.

(** [maybeInit] is an [async] function.  [initBegin] is the part before its
    [await]: behind the guard, a detector that exists is started and the
    call is over; with no detector yet the call is left suspended ([None])
    until [createVideoAnomalyDetector] has settled.  [initResume] is the
    part after the [await], on the cells as they are by then: the new
    detector is stored whatever [detectorRef] holds by then, and started.
    [rd] is the read of the step that [start()] launches. *)
Definition initBegin (video : bool) (c : Closure) (rd : Ai.Read) (p : Player)
  : option (Player * list Event) :=
  if negb video || negb (c_hasMedia c) || negb (c_analyzing c)
  then Some (p, [])
  else
    match detectorRef p with
    | Some d =>
        let '(d', es) := Ai.start rd d in
        Some (withDetector (Some d') (aiReady p) p, map Detector es)
    | None => None
    end.

Definition initResume (made : Ai.AnomalyDetector) (rd : Ai.Read) (p : Player)
  : Player * list Event :=
  let '(d', es) := Ai.start rd made in
  (withDetector (Some d') (Ai.isReady made) p, map Detector es).

(** One run of [maybeInit] with nothing between its [await] and what
    follows it (lemma [maybeInit_begin_resume]).  The result says how the
    promise of [maybeInit()] settles; [rd] is the read of the step that
    [start()] launches. *)
Definition maybeInit (video : bool) (c : Closure) (l : Ai.Loader)
    (rd : Ai.Read) (p : Player) : Ai.Settled (Player * list Event) :=
  if negb video || negb (c_hasMedia c) || negb (c_analyzing c)
  then Ai.Resolved (p, [])
  else
    match detectorRef p with
    | Some d =>
        let '(d', es) := Ai.start rd d in
        Ai.Resolved (withDetector (Some d') (aiReady p) p, map Detector es)
    | None =>
        match Ai.createVideoAnomalyDetector (Some 250) l with
        | (Ai.Resolved d, es0) =>
            let '(d', es) := Ai.start rd d in
            Ai.Resolved (withDetector (Some d') (Ai.isReady d) p,
                         map Detector (es0 ++ es))
        | (Ai.Rejected, _) => Ai.Rejected
        end
    end.

(** The cleanup of the effect that runs [maybeInit] (line 1476):
    [detectorRef.current?.stop()]. *)
Definition cleanupInit (p : Player) : Player * list Event :=
  match detectorRef p with
  | Some d =>
      let '(d', es) := Ai.stop d in
      (withDetector (Some d') (aiReady p) p, map Detector es)
  | None => (p, [])
  end.

(** *** Runs of the component *)

Inductive Input : Type :=
| Tick (c : Closure) (f : Frame)                  (* requestAnimationFrame *)
| Score (c : Closure) (r : Reads) (score : float) (* detector callback *)
| Reset (rd : Ai.Read) (t1 t2 : Z).               (* resetForLoop *)

Definition handle (i : Input) (p : Player) : Player * list Event :=
  match i with
  | Tick c f => analyze c f p
  | Score c r s => onScore c r s p
  | Reset rd t1 t2 => resetForLoop rd t1 t2 p
  end.

(** The run of a list of inputs: the final cells and, for every input, the
    events it produced. *)
Fixpoint run (ins : list Input) (p : Player)
  : Player * list (Input * list Event) :=
  match ins with
  | [] => (p, [])
  | i :: ins' =>
      let '(p1, es) := handle i p in
      let '(p2, log) := run ins' p1 in
      (p2, (i, es) :: log)
  end.

End App.

(** ** [src/ui/App.tsx]: [DpcmGraph] (lines 544-713) *)

Module Dpcm.

(** The refs and state cells of the component, together with the global
    [window.__ai_threshold] its handlers read and write ([None] while it is
    undefined).  Drawing on the canvas is left out. *)
Record Graph := mkGraph {
  valuesRef : list float;
  timesRef : list Z;
  actValsRef : list float;
  actTimesRef : list Z;
  defectDensity : float;
  pulseRateHz : float;
  aiThreshold : option float
}.

Definition mount : Graph := mkGraph [] [] [] [] 0 0 None.

(** [x || 0] on a number and [ts || Date.now()] on a timestamp. *)
Definition orZero (x : float) : float :=
  if is_nan x || is_zero x then 0%float else x.
Definition orNow (ts now : Z) : Z := if ts =? 0 then now else ts.

(** [window.__ai_threshold ?? 0.4] *)
Definition thresholdOr (t : option float) : float :=
  match t with
  | Some x => x
  | None => 0.4%float
  end.

(** The index at which [while (i < a.length && f(a[i])) i++] stops. *)
Fixpoint leading {A} (f : A -> bool) (l : list A) : nat :=
  match l with
  | [] => 0%nat
  | a :: l' => if f a then S (leading f l') else 0%nat
  end.

(** [Math.round(x * 10) / 10] *)
Definition round1 (x : float) : float := (JS.round (x * 10) / 10)%float.

(** [(count / Math.max(1, n)) * 100] *)
Definition percent (count : float) (n : Z) : float :=
  (count / JS.max 1 (JS.ofZ n) * 100)%float.

(** [vals.filter((v) => v > Math.max(0, thrUse - tol))] with [tol = 0.04] *)
Definition over (thrUse : float) (vals : list float) : list float :=
  filter (fun v => JS.gt v (JS.max 0 (thrUse - 0.04)%float)) vals.

(** [(prev <= thr && curr > thr) || (prev >= thr && curr < thr)] *)
Definition crossing (thr prev curr : float) : bool :=
  ((prev <=? thr) && (thr <? curr) || (thr <=? prev) && (curr <? thr))%float.

(** The loop that counts the crossings, [prev] being the value before
    [rest]. *)
Fixpoint crossings (thr prev : float) (rest : list float) : Z :=
  match rest with
  | [] => 0
  | curr :: rest' =>
      (if crossing thr prev curr then 1 else 0) + crossings thr curr rest'
  end.

(** The samples not older than 8 s: [vals.slice(startIdx)]. *)
Definition recent {A} (old : Z -> bool) (times : list Z) (vals : list A)
  : list A :=
  skipn (leading old times) vals.

(** The ['ai-score'] listener (lines 554-592).  [threshold] is [Some] when
    [typeof detail.threshold === 'number'], [now] is [Date.now()]. *)
Definition onScore (score : float) (ts : Z) (threshold : option float)
    (now : Z) (g : Graph) : Graph :=
  let score := JS.max 0 (JS.min 1 (orZero score)) in
  let ts := orNow ts now in
  let thr := match threshold with Some t => Some t | None => aiThreshold g end in
  let values1 := valuesRef g ++ [score] in
  let times1 := timesRef g ++ [ts] in
  let full := 300 <? Z.of_nat (length values1) in
  let values := if full then tl values1 else values1 in
  let times := if full then tl times1 else times1 in
  let vals := recent (fun t => t <? ts - 8000) times values in
  let n := Z.of_nat (length (over (thresholdOr thr) vals)) in
  let rounded := round1 (percent (JS.ofZ n) (Z.of_nat (length vals))) in
  let density :=
    if (0 <? n) && JS.lt rounded 0.1 then 0.1%float else rounded in
  let prStart := leading (fun t => 4000 <? ts - t) times in
  let c := crossings (thresholdOr thr) (nth prStart values nan)
                     (skipn (S prStart) values) in
  mkGraph values times (actValsRef g) (actTimesRef g) density
          (round1 (JS.ofZ c / (4000 / 1000))%float) thr.

(** The ['ai-active'] listener (lines 594-611). *)
Definition onActive (active : bool) (ts : Z) (now : Z) (g : Graph) : Graph :=
  let ts := orNow ts now in
  let val := if active then 1%float else 0%float in
  let times1 := actTimesRef g ++ [ts] in
  let vals1 := actValsRef g ++ [val] in
  let full := 600 <? Z.of_nat (length vals1) in
  let avals := if full then tl vals1 else vals1 in
  let atimes := if full then tl times1 else times1 in
  let vals := recent (fun t => t <? ts - 8000) atimes avals in
  mkGraph (valuesRef g) (timesRef g) avals atimes
          (round1 (percent (JS.sum vals) (Z.of_nat (length vals))))
          (pulseRateHz g) (aiThreshold g).

(** [window.__ai_threshold = t], done by the ['ai-threshold'] listener
    (lines 613-616) when the detail carries a number, and by the player. *)
Definition withThreshold (t : option float) (g : Graph) : Graph :=
  mkGraph (valuesRef g) (timesRef g) (actValsRef g) (actTimesRef g)
          (defectDensity g) (pulseRateHz g) t.

Definition onThr (t : option float) (g : Graph) : Graph :=
  match t with
  | Some x => withThreshold (Some x) g
  | None => g
  end.

Definition withDensity (d : float) (g : Graph) : Graph :=
  mkGraph (valuesRef g) (timesRef g) (actValsRef g) (actTimesRef g)
          d (pulseRateHz g) (aiThreshold g).

(** The 500 ms interval (lines 619-641). *)
Definition tick (now : Z) (g : Graph) : Graph :=
  if 0 <? Z.of_nat (length (actTimesRef g)) then
    let vals := recent (fun t => 8000 <? now - t) (actTimesRef g) (actValsRef g) in
    withDensity (round1 (percent (JS.sum vals) (Z.of_nat (length vals)))) g
  else if 0 <? Z.of_nat (length (timesRef g)) then
    let vals := recent (fun t => 8000 <? now - t) (timesRef g) (valuesRef g) in
    let n := Z.of_nat (length (over (thresholdOr (aiThreshold g)) vals)) in
    withDensity (round1 (percent (JS.ofZ n) (Z.of_nat (length vals)))) g
  else g.

(** What reaches the graph, and runs of it. *)
Inductive Input : Type :=
| Score (score : float) (ts : Z) (threshold : option float) (now : Z)
| Active (active : bool) (ts : Z) (now : Z)
| Threshold (t : option float)
| Interval (now : Z).

Definition handle (i : Input) (g : Graph) : Graph :=
  match i with
  | Score s ts t now => onScore s ts t now g
  | Active a ts now => onActive a ts now g
  | Threshold t => onThr t g
  | Interval now => tick now g
  end.

Definition run (ins : list Input) (g : Graph) : Graph :=
  fold_left (fun g i => handle i g) ins g.

(** [document.dispatchEvent] and the assignment to [window.__ai_threshold]
    as the graph sees them: the events of the player, in order.  [now] is
    what [Date.now()] returns inside the listeners. *)
Definition deliver (now : Z) (g : Graph) (e : App.Event) : Graph :=
  match e with
  | App.WindowThreshold t => withThreshold (Some t) g
  | App.AiThreshold t => onThr (Some t) g
  | App.AiScore s ts t => onScore s ts (Some t) now g
  | App.AiActive a ts => onActive a ts now g
  | _ => g
  end.

Definition dispatch (now : Z) (es : list App.Event) (g : Graph) : Graph :=
  fold_left (deliver now) es g.

End Dpcm.

(** ** [src/ui/App.tsx]: re-creation of the analysis effect *)

Module Effect.

(** The analysis effect of [UploadLoopPlayer] depends on [analyzing],
    [hasMedia] and [onIrregularity] (line 1443).  When one of them changes,
    React runs the effect again, and the new [analyze] closes over a fresh
    [lastFrame = null] (line 1297); the refs and state cells are kept. *)
Definition recreate (p : App.Player) : App.Player :=
  {| App.analyzing := App.analyzing p; App.hasMedia := App.hasMedia p;
     App.alertsEnabled := App.alertsEnabled p;
     App.sensitivity := App.sensitivity p;
     App.autoTune := App.autoTune p; App.loopCount := App.loopCount p;
     App.aiReady := App.aiReady p;
     App.detectCount := App.detectCount p; App.lastScore := App.lastScore p;
     App.avg1m := App.avg1m p;
     App.lastFireRef := App.lastFireRef p; App.detectorRef := App.detectorRef p;
     App.scoreBufRef := App.scoreBufRef p; App.warmupRef := App.warmupRef p;
     App.prevTimeRef := App.prevTimeRef p; App.sustainRef := App.sustainRef p;
     App.activeRef := App.activeRef p; App.holdFramesRef := App.holdFramesRef p;
     App.boxEmaRef := App.boxEmaRef p;
     App.recentActivationsRef := App.recentActivationsRef p;
     App.prevActiveRef := App.prevActiveRef p;
     App.startTimeRef := App.startTimeRef p;
     App.recentScoresRef := App.recentScoresRef p; App.lastFrame := None |}.

(** Animation frames, each one preceded by a re-creation of the effect: the
    final cells and what each frame published. *)
Fixpoint rerendered (frames : list (App.Closure * App.Frame)) (p : App.Player)
  : App.Player * list (list App.Event) :=
  match frames with
  | [] => (p, [])
  | cf :: rest =>
      let '(p1, es) := App.analyze (fst cf) (snd cf) (recreate p) in
      let '(p2, log) := rerendered rest p1 in
      (p2, es :: log)
  end.

End Effect.

(** ** [src/ui/App.tsx]: [Speedometer] (lines 473-541) *)

Module Speedometer.

Import String.

(** [Math.max(0, Math.min(250, value || 0))] *)
Definition clamped (value : float) : float :=
  JS.max 0 (JS.min 250 (Dpcm.orZero value)).

Definition getSpeedZoneColor (speed : float) : string :=
  if (speed <=? 50)%float then "text-green-600"
  else if (speed <=? 100)%float then "text-blue-600"
  else if (speed <=? 150)%float then "text-orange-600"
  else "text-red-600".

Definition getProgressBarColor (speed : float) : string :=
  if (speed <=? 50)%float then "bg-green-500"
  else if (speed <=? 100)%float then "bg-blue-500"
  else if (speed <=? 150)%float then "bg-orange-500"
  else "bg-red-500".

(** The text of the zone indicator (lines 531-533). *)
Definition zone (clamped : float) : string :=
  if (clamped <=? 50)%float then "SAFE ZONE"
  else if (clamped <=? 100)%float then "NORMAL SPEED"
  else if (clamped <=? 150)%float then "CAUTION ZONE"
  else "HIGH SPEED".

(** What a render shows: colour class of the digits, colour class of the
    bar, zone text. *)
Definition display (value : float) : string * string * string :=
  let c := clamped value in
  (getSpeedZoneColor c, getProgressBarColor c, zone c).

End Speedometer.

(** ** [src/ui/App.tsx]: [LidarBox] (lines 716-945) *)

Module Lidar.

(** [ToInt32] and [ToUint32] of an integral number. *)
Definition toInt32 (z : Z) : Z :=
  let m := z mod 2 ^ 32 in
  if m <? 2 ^ 31 then m else m - 2 ^ 32.
Definition toUint32 (z : Z) : Z := z mod 2 ^ 32.

(** [a << n], [a >>> n] and [a ^ b] on numbers, for [0 <= n < 32]. *)
Definition shl (a n : Z) : Z := toInt32 (Z.shiftl (toInt32 a) n).
Definition shru (a n : Z) : Z := Z.shiftr (toUint32 a) n.
Definition xor (a b : Z) : Z := toInt32 (Z.lxor (toInt32 a) (toInt32 b)).

(** The three xorshift steps of [rand] (line 744). *)
Definition xorshift (x : Z) : Z :=
  let x := xor x (shl x 13) in
  let x := xor x (shru x 17) in
  xor x (shl x 5).

(** [(u % 1000000) / 1000000] *)
Definition fraction (u : Z) : float :=
  (JS.ofZ (u mod 1000000) / 1000000)%float.

(** [rand] (lines 741-747): the new [seedRef.current] and the number
    returned, [fraction (x >>> 0)]. *)
Definition rand (seed : Z) : Z * float :=
  let x := xorshift (toInt32 seed) in
  (x, fraction (toUint32 x)).

(** The seed after [n] calls of [rand]. *)
Definition seedAfter (n : nat) (seed : Z) : Z :=
  Nat.iter n (fun s => fst (rand s)) seed.

(** The ['ai-score'] listener (lines 916-922); [score] is [Some] when
    [typeof detail?.score === 'number']. *)
Definition onScore (score : option float) (aiLevel : float) : float :=
  match score with
  | Some s => JS.max 0 (JS.min 1 (0.85 * aiLevel + 0.15 * s)%float)
  | None => aiLevel
  end.

(** The glow computed in [draw] (lines 810-811). *)
Definition glow (aiActive : bool) (aiLevel : float) : float :=
  let ai := JS.max 0 (JS.min 1 aiLevel) in
  if aiActive then JS.max 0.15 (ai * 0.9)%float else (ai * 0.6)%float.

(** The level after the events of the player, in order. *)
Definition deliver (aiLevel : float) (e : App.Event) : float :=
  match e with
  | App.AiScore s _ _ => onScore (Some s) aiLevel
  | _ => aiLevel
  end.

Definition dispatch (es : list App.Event) (aiLevel : float) : float :=
  fold_left deliver es aiLevel.

End Lidar.

(** ** [src/ui/App.tsx]: [ImuPanel] (lines 987-1076) *)

Module Imu.

Record Reading := mkReading { ax : float; ay : float; az : float }.

Record Hist := mkHist { x : list float; y : list float; z : list float }.

(** [imu?.ax ?? 0] and the like. *)
Definition reading (imu : option Reading) : Reading :=
  match imu with
  | Some r => r
  | None => mkReading 0 0 0
  end.

(** [arr.push(v); if (arr.length > 80) arr.shift()] *)
Definition push (arr : list float) (v : float) : list float :=
  let a := arr ++ [v] in
  if 80 <? Z.of_nat (length a) then tl a else a.

(** The comparison React makes on the dependencies [[ax, ay, az]]:
    [Object.is] on each. *)
Definition sameDeps (a b : Reading) : bool :=
  Leibniz.eqb (ax a) (ax b) && Leibniz.eqb (ay a) (ay b)
  && Leibniz.eqb (az a) (az b).

(** The effect of lines 994-1001 at a render: [prev] is the reading of the
    previous render, [None] at the first one. *)
Definition render (prev : option Reading) (imu : option Reading) (h : Hist)
  : Hist :=
  let r := reading imu in
  let run :=
    match prev with
    | Some p => negb (sameDeps p r)
    | None => true
    end in
  if run then mkHist (push (x h) (ax r)) (push (y h) (ay r)) (push (z h) (az r))
  else h.

(** The renders of a list of props, the first one being the mount. *)
Fixpoint renders (prev : option Reading) (imus : list (option Reading))
    (h : Hist) : Hist :=
  match imus with
  | [] => h
  | i :: rest => renders (Some (reading i)) rest (render prev i h)
  end.

(** [Math.max(-1, Math.min(1, value))] of [Bar] (line 1048). *)
Definition pct (value : float) : float := JS.max (-1) (JS.min 1 value).

End Imu.

(** ** [src/ui/App.tsx]: the [App] component (lines 73-457) *)

Module Shell.

Import String.

Inductive PanelId : Set :=
| lidar | track_front | track_rear | dpcm | speedo | imu | map | rfid
| export | notifications.

Definition PanelId_eqb (a b : PanelId) : bool :=
  match a, b with
  | lidar, lidar | track_front, track_front | track_rear, track_rear
  | dpcm, dpcm | speedo, speedo | imu, imu | map, map | rfid, rfid
  | export, export | notifications, notifications => true
  | _, _ => false
  end.

Record Gps := mkGps { lat : float; lon : float }.

Inductive Severity : Set := low | medium | high.

(** The messages of the aggregator ([AggregatorEvent] of [ws.ts]). *)
Inductive AggregatorEvent : Type :=
| telemetry (speed_kmph : float) (imu_ : Imu.Reading) (gps_ : Gps)
            (chainage_m : float)
| defect (class : string) (severity : Severity) (gps_ : Gps)
         (chainage_m : float) (snapshot_url : option string).

(** A toast or notification, kept as the values its strings are formatted
    from: [location] is [None] where the text is ['--'], the time of day is
    left out. *)
Inductive Title : Type :=
| IrregularityDetected (score : float)
| DefectClass (class : string).

Inductive Level : Set := LOW | MEDIUM | HIGH.

Record Notice := mkNotice {
  title : Title;
  level : Level;
  location : option Gps;
  chainage : float;
  panel : string
}.

Record Toast := mkToast { id : Z; notice : Notice }.

Record App := mkApp {
  zoomed : option PanelId;
  camEnabled : bool;
  camRefreshKey : Z;
  speedKmph : float;
  chainageM : float;
  imuState : option Imu.Reading;
  gps : option Gps;
  lastDefect : option AggregatorEvent;
  toasts : list Toast;
  notifLog : list Toast;
  playActive : bool
}.

Definition mount : App :=
  mkApp None true 0 0 0 None None None [] [] false.

(** What a handler does besides setting state. *)
Inductive Effect : Type :=
| FlashAlert (ids : list PanelId)
| Beep
| DismissAfter (ms : Z) (id : Z).

(** [setZoomed((prev) => (prev === id ? null : id))] *)
Definition handleZoom (i : PanelId) (a : App) : App :=
  mkApp (match zoomed a with
         | Some prev => if PanelId_eqb prev i then None else Some i
         | None => Some i
         end)
        (camEnabled a) (camRefreshKey a) (speedKmph a) (chainageM a)
        (imuState a) (gps a) (lastDefect a) (toasts a) (notifLog a)
        (playActive a).

(** The CAM button (lines 337-343). *)
Definition onCamClick (a : App) : App :=
  let next := negb (camEnabled a) in
  mkApp (zoomed a) next
        (if next then camRefreshKey a + 1 else camRefreshKey a)
        (speedKmph a) (chainageM a) (imuState a) (gps a) (lastDefect a)
        (toasts a) (notifLog a) (playActive a).

(** [onPlayChange] of the players. *)
Definition setPlayActive (p : bool) (a : App) : App :=
  mkApp (zoomed a) (camEnabled a) (camRefreshKey a) (speedKmph a)
        (chainageM a) (imuState a) (gps a) (lastDefect a) (toasts a)
        (notifLog a) p.

(** [[{ id, ...t }, ...prev].slice(0, n)] *)
Definition prepend (n : nat) (i : Z) (t : Notice) (prev : list Toast)
  : list Toast :=
  firstn n (mkToast i t :: prev).

(** [pushToast] (lines 316-321) with [id] the number it draws, and the
    timer it sets; [dismiss] is what the timer does. *)
Definition pushToast (i : Z) (t : Notice) (a : App) : App * list Effect :=
  (mkApp (zoomed a) (camEnabled a) (camRefreshKey a) (speedKmph a)
         (chainageM a) (imuState a) (gps a) (lastDefect a)
         (prepend 5 i t (toasts a)) (notifLog a) (playActive a),
   [DismissAfter 6000 i]).

Definition dismiss (i : Z) (a : App) : App :=
  mkApp (zoomed a) (camEnabled a) (camRefreshKey a) (speedKmph a)
        (chainageM a) (imuState a) (gps a) (lastDefect a)
        (filter (fun x => negb (id x =? i)) (toasts a)) (notifLog a)
        (playActive a).

(** [appendNotification] (lines 323-326). *)
Definition appendNotification (i : Z) (t : Notice) (a : App) : App :=
  mkApp (zoomed a) (camEnabled a) (camRefreshKey a) (speedKmph a)
        (chainageM a) (imuState a) (gps a) (lastDefect a) (toasts a)
        (prepend 100 i t (notifLog a)) (playActive a).

(** [beep] (lines 258-272); [audio] tells whether an [AudioContext] could
    be created. *)
Definition beep (audio : bool) (a : App) : list Effect :=
  if camEnabled a || negb (playActive a) then []
  else if negb audio then []
  else [Beep].

Definition severityLevel (s : Severity) : Level :=
  match s with
  | low => LOW
  | medium => MEDIUM
  | high => HIGH
  end.

(** The callback given to [connectAggregator] (lines 121-143).  It is
    created by the effect of the first render and never again, so the
    [gps] it closes over is the initial state [null]: the location of its
    notifications is ['--']. *)
Definition onAggregator (evt : AggregatorEvent) (audio : bool) (i : Z)
    (a : App) : App * list Effect :=
  match evt with
  | telemetry speed imu_ gps_ chainage_m =>
      (mkApp (zoomed a) (camEnabled a) (camRefreshKey a) speed chainage_m
             (Some imu_) (Some gps_) (lastDefect a) (toasts a) (notifLog a)
             (playActive a), [])
  | defect class severity _ chainage_m _ =>
      if camEnabled a || negb (playActive a) then (a, [])
      else
        let a1 :=
          mkApp (zoomed a) (camEnabled a) (camRefreshKey a) (speedKmph a)
                (chainageM a) (imuState a) (gps a) (Some evt) (toasts a)
                (notifLog a) (playActive a) in
        let t := mkNotice (DefectClass class) (severityLevel severity) None
                          chainage_m "TRACK-MAPPING" in
        (appendNotification i t a1,
         FlashAlert [track_front; map] :: beep audio a1)
  end.

(** The [onIrregularity] callback given to the player of the front
    ([front = true]) or of the rear panel (lines 362-375 and 390-403).
    Every render creates a new one, which closes over the [gps] and the
    [chainage] of that render: [gps0] and [chainage0].  The player may
    call the callback of an earlier render (its [onScore] keeps the one of
    the render in which the detector was created), so these need not be
    the cells of [a], the state when the callback runs; [beep] reads the
    two refs and the helpers update the lists from their current value.
    [i1] and [i2] are the ids the two helpers draw. *)
Definition onIrregularity (front : bool) (gps0 : option Gps)
    (chainage0 : float) (score : float) (audio : bool)
    (i1 i2 : Z) (a : App) : App * list Effect :=
  let t := mkNotice (IrregularityDetected score) MEDIUM gps0 chainage0
                    (if front then "TRACK VIEW" else "REAR VIEW") in
  let '(a2, es) := pushToast i2 t (appendNotification i1 t a) in
  (a2, FlashAlert [if front then track_front else track_rear]
       :: beep audio a ++ es).

(** What happens to the component, and runs of it. *)
Inductive Input : Type :=
| Zoom (i : PanelId)
| CamClick
| PlayChange (p : bool)
| Message (evt : AggregatorEvent) (audio : bool) (i : Z)
| Irregularity (front : bool) (gps0 : option Gps) (chainage0 : float)
               (score : float) (audio : bool) (i1 i2 : Z)
| Dismiss (i : Z).

Definition handle (i : Input) (a : App) : App * list Effect :=
  match i with
  | Zoom p => (handleZoom p a, [])
  | CamClick => (onCamClick a, [])
  | PlayChange p => (setPlayActive p a, [])
  | Message evt audio n => onAggregator evt audio n a
  | Irregularity front gps0 chainage0 score audio i1 i2 =>
      onIrregularity front gps0 chainage0 score audio i1 i2 a
  | Dismiss n => (dismiss n a, [])
  end.

Fixpoint run (ins : list Input) (a : App) : App * list Effect :=
  match ins with
  | [] => (a, [])
  | i :: rest =>
      let '(a1, e1) := handle i a in
      let '(a2, e2) := run rest a1 in
      (a2, e1 ++ e2)
  end.

End Shell.

(** * Vocabulary of the statements *)

(** ** Frames that score *)

(** The guards of [analyze] pass. *)
Definition ready (c : App.Closure) (f : App.Frame) : bool :=
  App.videoPresent f && App.c_hasMedia c && App.c_analyzing c
  && (2 <=? App.readyState f) && App.context2d f.

(** A frame scores when the guards pass, a previous frame exists and the
    warm-up is over. *)
Definition scoring (c : App.Closure) (f : App.Frame) (p : App.Player)
    (last : App.ImageData) : Prop :=
  ready c f = true /\ App.lastFrame p = Some last /\ 6 <= App.warmupRef p.

(** What [analyze] computes on such a frame: the frame it keeps in
    [lastFrame], the block scan, the raw score, the smoothed score and the
    next activation state. *)
Definition frameOf (f : App.Frame) : App.ImageData :=
  App.mkImage App.W (App.canvasHeight (App.videoWidth f) (App.videoHeight f))
              (App.pixels f).

Definition scanOf (f : App.Frame) (last : App.ImageData) : App.Scan :=
  App.scan App.W (App.canvasHeight (App.videoWidth f) (App.videoHeight f))
           (App.pixels f) (App.data last).

Definition rawScore (f : App.Frame) (last : App.ImageData) : float :=
  let h := App.canvasHeight (App.videoWidth f) (App.videoHeight f) in
  App.saliencyScore (App.diff (App.scan App.W h (App.pixels f) (App.data last)))
                    App.W h.

Definition smoothed (f : App.Frame) (p : App.Player) (last : App.ImageData)
  : float :=
  App.average (App.pushScore (App.scoreBufRef p) (rawScore f last)).

Definition stabilized (c : App.Closure) (f : App.Frame) (p : App.Player)
    (last : App.ImageData) : App.Activation :=
  App.stabilize (App.c_sensitivity c) (smoothed f p last) (App.activation p).

(** ** Published events *)

(** The smoothed scores a handler publishes as ['ai-score']. *)
Definition scoreEvents (es : list App.Event) : list float :=
  flat_map (fun e => match e with App.AiScore s _ _ => [s] | _ => [] end) es.

(** The ['ai-detect'] events of a handler: score and timestamp. *)
Definition detections (es : list App.Event) : list (float * Z) :=
  flat_map (fun e => match e with App.AiDetect s t => [(s, t)] | _ => [] end) es.

Definition fired (es : list App.Event) : bool :=
  negb (Nat.eqb (length (detections es)) 0).

(** The timestamps of the detections of the frame-difference path in a log. *)
Definition frameDetections (log : list (App.Input * list App.Event)) : list Z :=
  flat_map (fun ie => match fst ie with
                      | App.Tick _ _ => map snd (detections (snd ie))
                      | _ => []
                      end) log.

(** ** The activation state machine *)

(** The state right after [resetForLoop], and the machine run over a list
    of ticks, each tick being the sensitivity in force and the smoothed
    score [(sensitivity, avg)]. *)
Definition initial : App.Activation := App.mkActivation 0 false 0.

Definition feed (ticks : list (float * float)) (a : App.Activation)
  : App.Activation :=
  fold_left (fun a t => App.stabilize (fst t) (snd t) a) ticks a.

(** The branch a tick takes in the sustain update. *)
Definition aboveEntry (t : float * float) : bool :=
  JS.gt (snd t) (App.entryThr (fst t)).
Definition belowExit (t : float * float) : bool :=
  negb (aboveEntry t) && JS.lt (snd t) (App.exitThr (fst t)).

(** A tick whose smoothed score is below the exit threshold, the
    thresholds satisfying [exit <= entry]. *)
Definition underExit (t : float * float) : Prop :=
  (App.exitThr (fst t) <=? App.entryThr (fst t))%float = true
  /\ JS.lt (snd t) (App.exitThr (fst t)) = true.

(** ** Buffers, thresholds, cooldowns, resets *)

(** The last [n] elements of a list. *)
Definition lastn {A : Type} (n : nat) (l : list A) : list A :=
  skipn (length l - n) l.

(** [clamp(x, lo, hi)]. *)
Definition clamp (x lo hi : float) : float := JS.max lo (JS.min hi x).

(** For an input: the clock reading its guard compares with
    [lastFireRef], the reading it stores there when it fires, and the
    cooldown of its path in milliseconds. *)
Definition checked (i : App.Input) : Z :=
  match i with
  | App.Tick _ f => App.now f
  | App.Score _ r _ => App.atGuard r
  | App.Reset _ _ _ => 0
  end.
Definition stored (i : App.Input) : Z :=
  match i with
  | App.Tick _ f => App.now f
  | App.Score _ r _ => App.atStore r
  | App.Reset _ _ _ => 0
  end.
Definition cooldown (i : App.Input) : Z :=
  match i with
  | App.Tick _ _ => 5000
  | App.Score _ _ _ => 8000
  | App.Reset _ _ _ => 0
  end.

(** Inputs other than resets, whose clock does not run backwards inside
    the callback. *)
Definition steady (i : App.Input) : Prop :=
  match i with
  | App.Tick _ _ => True
  | App.Score _ r _ => App.atGuard r <= App.atStore r
  | App.Reset _ _ _ => False
  end.

(** The initial activation state and empty buffers. *)
Definition cleared (p : App.Player) : Prop :=
  App.activeRef p = false /\ App.sustainRef p = 0 /\ App.holdFramesRef p = 0
  /\ App.scoreBufRef p = [] /\ App.recentActivationsRef p = []
  /\ App.recentScoresRef p = [] /\ App.boxEmaRef p = None
  /\ App.warmupRef p = 0.

(** One of the three awaited load steps fails. *)
Definition loadFails (l : Ai.Loader) : Prop :=
  Ai.import_tf l = None \/ Ai.import_mobilenet l = None
  \/ Ai.mobilenet_load l = None.

(** ** Concrete runs *)

(** The player after an upload, the closure of that render, 160 x 1
    pictures (all black, all white, white with pixels 8..15 black) and an
    animation frame showing given pixels at a given time over a 640 x 4
    overlay. *)
Definition started : App.Player := App.withPlayback true true 0 0 App.mount.
Definition watching : App.Closure := App.render true started.
Definition black : list Z := repeat 0 640.
Definition white : list Z := repeat 255 640.
Definition spot : list Z := repeat 255 32 ++ repeat 0 32 ++ repeat 255 576.
Definition frameAt (px : list Z) (t : Z) : App.Frame :=
  App.mkFrame true 4 160 1 true px t (Some (640, 4)).
Definition T0 : Z := 1700000000000.

(** Animation frames showing the given pictures, 16 ms apart. *)
Definition play (pictures : list (list Z)) : list App.Input :=
  map (fun kp => App.Tick watching (frameAt (snd kp) (T0 + 16 * Z.of_nat (fst kp))))
      (combine (seq 0 (length pictures)) pictures).

(** Seven still frames: the first is only kept, the next six are the
    warm-up. *)
Definition warm : App.Player :=
  fst (App.run (play (repeat black 7)) started).

(** After the warm-up and two flashing frames: sustain is 2, the next
    flashing frame activates. *)
Definition primed : App.Player :=
  fst (App.run (play (repeat black 7 ++ [white; black])) started).

(** After the warm-up and three flashing frames: active, with the box
    seeded at the first block. *)
Definition tracking : App.Player :=
  fst (App.run (play (repeat black 7 ++ [white; black; white])) started).

(** The active player [tracking], 5 s into the video. *)
Definition midway : App.Player :=
  fst (App.onTimeUpdate (Some 5%float) (None, 1) (T0 + 150) (T0 + 150) tracking).

(** The detector after a successful load and [start()], and after it has
    been fed the embedding [[-1]]. *)
Definition startedVars : Ai.Vars := Ai.mkVars Ai.MobileNetV2 None true None 0.
Definition afterFirstEmbedding : Ai.Vars :=
  fst (Ai.step 250 true (Some [(-1)%float]) 1 startedVars).

(** ** Statements of the specification that the code does not meet *)

(** C1: the frame-difference path is suppressed by its own last detection
    only, so a frame that qualifies (alerts on, active, score above the
    bound) more than 5 s after the last frame-difference detection
    publishes one. *)
Definition cooldown_is_per_source : Prop :=
  forall (ins : list App.Input) (c : App.Closure) (f : App.Frame) (avg : float),
    Forall steady ins ->
    let p := fst (App.run ins started) in
    let log := snd (App.run ins started) in
    App.c_alertsEnabled c = true -> App.c_onIrregularity c = true ->
    App.activeRef (fst (App.analyze c f p)) = true ->
    scoreEvents (snd (App.analyze c f p)) = [avg] ->
    JS.gt avg (App.c_sensitivity c + 0.005)%float = true ->
    (forall t, In t (frameDetections log) -> 5000 < App.now f - t) ->
    fired (snd (App.analyze c f p)) = true.

(** C3: once active, three consecutive ticks above the entry threshold
    have been seen. *)
Fixpoint threeInARow (l : list bool) : bool :=
  match l with
  | a :: l' =>
      match l' with
      | b :: c :: _ => (a && b && c) || threeInARow l'
      | _ => false
      end
  | [] => false
  end.

Definition activation_needs_three_consecutive : Prop :=
  forall ticks : list (float * float),
    App.active (feed ticks initial) = true ->
    threeInARow (map aboveEntry ticks) = true.


(** C6: the controller updates the entry threshold from its own value:
    with [ratePerSec = count / 10] over the pruned window,
    [entry' = clamp(entry - (ratePerSec - 0.2) * 0.0025, 0.15, 0.6)] is
    applied when [|entry' - entry| > 0.0005], and every tick in adaptive
    mode does so from the threshold the tick before left. *)
Definition claimedUpdate (entry : float) (window : list Z) : float :=
  let ratePerSec := (JS.ofZ (Z.of_nat (length window)) / 10)%float in
  let entry' := clamp (entry - (ratePerSec - 0.2) * 0.0025)%float 0.15 0.6 in
  if JS.gt (abs (entry' - entry)) 0.0005 then entry' else entry.

Definition threshold_updates_from_itself : Prop :=
  forall (c : App.Closure) (f : App.Frame) (p : App.Player)
         (last : App.ImageData),
    scoring c f p last -> App.c_autoTune c = true ->
    App.sensitivity (fst (App.analyze c f p))
    = claimedUpdate (App.sensitivity p)
        (App.prune (App.now f) (App.recentActivationsRef p)).

(** C7, for seeks: every seek resets. *)
Definition reset_on_every_seek : Prop :=
  forall (t : float) (rd : Ai.Read) (t1 t2 : Z) (p : App.Player),
    cleared (fst (App.onSeeking (Some t) rd t1 t2 p)).

(** C9: an observation while active moves the box by exactly
    alpha x delta. *)
Definition movedByAlphaDelta (prev observed : float) : float :=
  (prev + App.alpha * (observed - prev))%float.

Definition box_moves_by_alpha_delta : Prop :=
  forall (c : App.Closure) (f : App.Frame) (p : App.Player)
         (last : App.ImageData) (ovw ovh : Z) (b b' : Box.t),
    scoring c f p last ->
    App.overlay f = Some (ovw, ovh) ->
    App.boxEmaRef p = Some b ->
    App.boxEmaRef (fst (App.analyze c f p)) = Some b' ->
    App.activeRef (fst (App.analyze c f p)) = true ->
    JS.gt (App.maxBlockSum (scanOf f last)) 0 = true ->
    Box.x b'
    = movedByAlphaDelta (Box.x b)
        (Box.x (App.observedBox ovw ovh
                  (App.canvasHeight (App.videoWidth f) (App.videoHeight f))
                  (scanOf f last))).

(** ** Invariants of the player *)

(** The ranges of the activation counters: sustain in 0..10, hold in 0..8,
    and an inactive machine has sustain below 3. *)
Definition bounded (a : App.Activation) : Prop :=
  0 <= App.sustain a <= 10 /\ 0 <= App.holdFrames a <= 8
  /\ (App.active a = false -> App.sustain a <= 2).

(** The samples of the HUD window are in time order and none is later than
    [now]. *)
Definition inOrder (rs : list App.Sample) (now : Z) : Prop :=
  StronglySorted (fun a b => App.ts a <= App.ts b) rs
  /\ Forall (fun s => App.ts s <= now) rs.

(** The handler of an input runs with alerts switched off or without an
    alert callback. *)
Definition muted (i : App.Input) : Prop :=
  match i with
  | App.Tick c _ | App.Score c _ _ =>
      App.c_alertsEnabled c = false \/ App.c_onIrregularity c = false
  | App.Reset _ _ _ => False
  end.

(** The scores the alert callback is called with. *)
Definition alerts (es : list App.Event) : list float :=
  flat_map (fun e => match e with App.OnIrregularity s => [s] | _ => [] end) es.

(** A NaN sits in the score buffer with at most [n] scores after it. *)
Definition poisoned (n : nat) (buf : list float) : Prop :=
  exists pre x post,
    buf = pre ++ x :: post /\ is_nan x = true /\ (length post <= n)%nat.

(** Every handler call of a log published no detection. *)
Definition silent (log : list (App.Input * list App.Event)) : Prop :=
  Forall (fun ie => detections (snd ie) = []) log.

(** ** Runs of the detector *)

(** [step] run once per timer tick: each read is the embedding (or [None]
    when the read throws) and the id of the timer the step sets. *)
Fixpoint sampling (intervalMs : Z) (hasOnScore : bool)
    (reads : list (option Ai.Float32Array * Z)) (v : Ai.Vars)
  : Ai.Vars * list Ai.Effect :=
  match reads with
  | [] => (v, [])
  | r :: rest =>
      let '(v1, e1) := Ai.step intervalMs hasOnScore (fst r) (snd r) v in
      let '(v2, e2) := sampling intervalMs hasOnScore rest v1 in
      (v2, e1 ++ e2)
  end.

(** The scores handed to [onScore], the delays of the timers set, and the
    embeddings that were read. *)
Definition published (es : list Ai.Effect) : list float :=
  flat_map (fun e => match e with Ai.OnScore s => [s] | _ => [] end) es.
Definition timeouts (es : list Ai.Effect) : list Z :=
  flat_map (fun e => match e with Ai.SetTimeout ms => [ms] | _ => [] end) es.
Definition embeddings (reads : list (option Ai.Float32Array * Z))
  : list Ai.Float32Array :=
  flat_map (fun r => match fst r with Some e => [e] | None => [] end) reads.

(** ** Still pictures *)

(** [px] holds the RGBA bytes of a 160 x [h] picture. *)
Definition wellFormed (h : Z) (px : list Z) : Prop :=
  Z.of_nat (length px) = 4 * App.W * h /\ Forall (fun b => 0 <= b <= 255) px.

(** An input of a video that shows the picture [px] all the time: an
    animation frame with these pixels on a canvas of height [h], handled
    with a sensitivity that is not negative, or a reset. *)
Definition still (px : list Z) (h : Z) (i : App.Input) : Prop :=
  match i with
  | App.Tick c f =>
      App.pixels f = px
      /\ App.canvasHeight (App.videoWidth f) (App.videoHeight f) = h
      /\ JS.lt (App.c_sensitivity c) 0 = false
  | App.Score _ _ _ => False
  | App.Reset _ _ _ => True
  end.

(** Nothing has moved so far: only zero scores in the buffer, not active,
    fewer than three frames sustained, and the frame kept, if any, shows
    [px]. *)
Definition calm (px : list Z) (p : App.Player) : Prop :=
  Forall (fun s => s = 0%float) (App.scoreBufRef p)
  /\ (length (App.scoreBufRef p) <= 8)%nat
  /\ App.activeRef p = false
  /\ App.sustainRef p <= 2
  /\ match App.lastFrame p with
     | Some last => App.data last = px
     | None => True
     end.

(** The boxes a handler draws. *)
Definition boxes (es : list App.Event) : list Box.t :=
  flat_map (fun e => match e with App.StrokeRect b => [b] | _ => [] end) es.

(** ** The pulse graph *)

(** An activation sample: 0 or 1. *)
Definition bit (v : float) : Prop := v = 0%float \/ v = 1%float.

(** The buffers of the graph are aligned and within their capacity, the
    scores are in the unit interval and the activation samples are bits. *)
Definition tidy (g : Dpcm.Graph) : Prop :=
  length (Dpcm.valuesRef g) = length (Dpcm.timesRef g)
  /\ (length (Dpcm.valuesRef g) <= 300)%nat
  /\ length (Dpcm.actValsRef g) = length (Dpcm.actTimesRef g)
  /\ (length (Dpcm.actValsRef g) <= 600)%nat
  /\ Forall (fun v => JS.in_unit v = true) (Dpcm.valuesRef g)
  /\ Forall bit (Dpcm.actValsRef g).

(** A percentage, and read-outs that are in range: the density is a
    percentage and the pulse rate lies between 0 and 75 Hz. *)
Definition inPercent (d : float) : bool := ((0 <=? d) && (d <=? 100))%float.

Definition readable (g : Dpcm.Graph) : Prop :=
  inPercent (Dpcm.defectDensity g) = true
  /\ ((0 <=? Dpcm.pulseRateHz g) && (Dpcm.pulseRateHz g <=? 75))%float = true.

(** The density [onScore] shows for [k] samples over the threshold out of
    [n], and what the tables below check about it. *)
Definition shownDensity (k n : Z) : float :=
  let rounded := Dpcm.round1 (Dpcm.percent (JS.ofZ k) n) in
  if (0 <? k) && JS.lt rounded 0.1 then 0.1%float else rounded.

Definition percentOk (k n : Z) : bool :=
  inPercent (Dpcm.round1 (Dpcm.percent (JS.ofZ k) n)).

Definition shownOk (k n : Z) : bool :=
  inPercent (shownDensity k n)
  && (implb (0 <? k) (0.1 <=? shownDensity k n)%float).

Definition pulseOk (c : Z) : bool :=
  let r := Dpcm.round1 (JS.ofZ c / (4000 / 1000))%float in
  ((0 <=? r) && (r <=? 75))%float.

Definition countOk (a : Z) : bool :=
  Leibniz.eqb (JS.ofZ a + 1)%float (JS.ofZ (a + 1))
  && Leibniz.eqb (JS.ofZ a + 0)%float (JS.ofZ a).

(** ** The other panels *)

(** The cells of the player that survive a re-creation of the analysis
    effect unchanged when no frame is scored. *)
Definition sameCells (p q : App.Player) : Prop :=
  App.scoreBufRef p = App.scoreBufRef q
  /\ App.warmupRef p = App.warmupRef q
  /\ App.activation p = App.activation q
  /\ App.detectCount p = App.detectCount q
  /\ App.lastFireRef p = App.lastFireRef q
  /\ App.sensitivity p = App.sensitivity q.

(** The three read-outs of the speedometer per speed band. *)
Module Zones.

Import String.

Definition shown : list (string * string * string) :=
  [("text-green-600"%string, "bg-green-500"%string, "SAFE ZONE"%string);
   ("text-blue-600"%string, "bg-blue-500"%string, "NORMAL SPEED"%string);
   ("text-orange-600"%string, "bg-orange-500"%string, "CAUTION ZONE"%string);
   ("text-red-600"%string, "bg-red-500"%string, "HIGH SPEED"%string)].

Definition band (c : float) : nat :=
  if (c <=? 50)%float then 0%nat
  else if (c <=? 100)%float then 1%nat
  else if (c <=? 150)%float then 2%nat
  else 3%nat.

End Zones.

(** [f] holds on [z, z + 1, ..., z + n - 1]. *)
Fixpoint allFrom (n : nat) (f : Z -> bool) (z : Z) : bool :=
  match n with
  | O => true
  | S n' => f z && allFrom n' f (z + 1)
  end.

(** [k / 1000000] lies in [0, 1). *)
Definition unitFraction (k : Z) : bool :=
  ((0 <=? JS.ofZ k / 1000000) && (JS.ofZ k / 1000000 <? 1))%float.

(** A 32-bit integer in two's complement. *)
Definition int32 (x : Z) : Prop := - 2 ^ 31 <= x < 2 ^ 31.

(** The three histories of the IMU panel have one length, at most 80. *)
Definition aligned (h : Imu.Hist) : Prop :=
  length (Imu.x h) = length (Imu.y h)
  /\ length (Imu.y h) = length (Imu.z h)
  /\ (length (Imu.x h) <= 80)%nat.

(** A message of the aggregator that reports a defect. *)
Definition isDefect (evt : Shell.AggregatorEvent) : bool :=
  match evt with
  | Shell.defect _ _ _ _ _ => true
  | Shell.telemetry _ _ _ _ => false
  end.

(** The lists of the shell are within their capacity. *)
Definition capped (a : Shell.App) : Prop :=
  (length (Shell.toasts a) <= 5)%nat /\ (length (Shell.notifLog a) <= 100)%nat.

(** The entry [j] of a vector is NaN. *)
Definition nanAt (j : nat) (m : Ai.Float32Array) : Prop :=
  exists v, nth_error m j = Some v /\ is_nan v = true.

(** * Facts about binary64 numbers *)

Module FloatFacts.

Lemma ltb_leb (a b : float) : (a <? b)%float = true -> (a <=? b)%float = true.
Proof.
  rewrite ltb_spec, leb_spec. unfold SFltb, SFleb.
  destruct (SFcompare (Prim2SF a) (Prim2SF b)) as [[ | | ]|]; congruence.
Qed.

Lemma Prim2SF_nan (x : float) : Prim2SF x = S754_nan <-> is_nan x = true.
Proof.
  unfold Prim2SF. destruct (is_nan x); [tauto|].
  split; [|discriminate].
  destruct (is_zero x); [discriminate|].
  destruct (is_infinity x); [discriminate|].
  destruct (Z.frexp x) as [r e].
  destruct (shr_fexp _ _ _ _ _) as [s e'].
  destruct (shr_m s); discriminate.
Qed.

Lemma not_nan (x : float) : is_nan x = false <-> Prim2SF x <> S754_nan.
Proof.
  rewrite Prim2SF_nan. destruct (is_nan x); split; congruence.
Qed.

(** Rounding a non-negative mantissa never produces NaN. *)
Lemma shr_1_nonneg (r : shr_record) : 0 <= shr_m r -> 0 <= shr_m (shr_1 r).
Proof.
  destruct r as [m b s]; simpl. destruct m as [|[p|p|]|[p|p|]]; simpl; lia.
Qed.

Lemma iter_shr_1_nonneg (n : positive) :
  forall r, 0 <= shr_m r -> 0 <= shr_m (iter_pos shr_1 n r).
Proof.
  induction n as [n IH|n IH|]; intros r H; simpl.
  - apply IH, IH, shr_1_nonneg, H.
  - apply IH, IH, H.
  - apply shr_1_nonneg, H.
Qed.

Lemma shr_fexp_nonneg (p e : Z) (m : Z) (ex : Z) (l : location) :
  0 <= m -> 0 <= shr_m (fst (shr_fexp p e m ex l)).
Proof.
  intros H. unfold shr_fexp, shr.
  assert (H0 : 0 <= shr_m (shr_record_of_loc m l))
    by (destruct l as [|[ | | ]]; exact H).
  destruct (fexp p e (Zdigits2 m + ex) - ex); simpl; auto.
  apply iter_shr_1_nonneg, H0.
Qed.

Lemma round_nearest_even_nonneg (m : Z) (l : location) :
  0 <= m -> 0 <= round_nearest_even m l.
Proof.
  intros H. destruct l as [|[ | | ]]; simpl; try lia.
  destruct (Z.even m); lia.
Qed.

Lemma binary_round_aux_not_nan (p e : Z) (s : bool) (m ex : Z) (l : location) :
  0 <= m -> binary_round_aux p e s m ex l <> S754_nan.
Proof.
  intros H. unfold binary_round_aux.
  pose proof (shr_fexp_nonneg p e m ex l H) as H1.
  destruct (shr_fexp p e m ex l) as [r1 e1]; simpl in H1.
  pose proof (shr_fexp_nonneg p e _ e1 loc_Exact
                (round_nearest_even_nonneg _ (loc_of_shr_record r1) H1)) as H2.
  destruct (shr_fexp p e _ e1 loc_Exact) as [r2 e2]; simpl in H2.
  destruct (shr_m r2); try lia; try discriminate.
  destruct (e2 <=? e - p); discriminate.
Qed.

(** Multiplying by a non-zero finite constant keeps NaN-ness. *)
Lemma mul_4_nan (x : float) : is_nan (x * 4)%float = is_nan x.
Proof.
  destruct (is_nan x) eqn:E.
  - apply Prim2SF_nan in E. apply Prim2SF_nan. rewrite mul_spec, E. reflexivity.
  - apply not_nan in E. apply not_nan. rewrite mul_spec.
    change (Prim2SF 4) with (S754_finite false 4503599627370496 (-50)).
    destruct (Prim2SF x) as [s|s| |s m ex]; try discriminate; try congruence.
    unfold SF64mul, SFmul. apply binary_round_aux_not_nan. lia.
Qed.

(** The order of binary64 numbers. *)
Ltac cmp_cases :=
  repeat match goal with
  | H : context [Z.compare ?a ?b] |- _ =>
      destruct (Z.compare_spec a b); try discriminate
  | |- context [Z.compare ?a ?b] =>
      destruct (Z.compare_spec a b); try discriminate
  | H : context [Pos.compare_cont Eq ?a ?b] |- _ =>
      change (Pos.compare_cont Eq a b) with (Pos.compare a b) in H;
      destruct (Pos.compare_spec a b); try discriminate
  | |- context [Pos.compare_cont Eq ?a ?b] =>
      change (Pos.compare_cont Eq a b) with (Pos.compare a b);
      destruct (Pos.compare_spec a b); try discriminate
  end.

Lemma SFltb_leb_trans (x y z : spec_float) :
  SFltb x y = true -> SFleb y z = true -> SFltb x z = true.
Proof.
  unfold SFltb, SFleb.
  destruct x as [sx|sx| |sx mx ex], y as [sy|sy| |sy my ey],
           z as [sz|sz| |sz mz ez]; cbn [SFcompare];
    try discriminate; try reflexivity;
    try (destruct sx; try discriminate; try reflexivity);
    try (destruct sy; try discriminate; try reflexivity);
    try (destruct sz; try discriminate; try reflexivity).
  all: intros H1 H2; cbn [CompOpp] in *.
  all: cmp_cases; cbn [CompOpp] in *; try discriminate; try reflexivity;
       subst; try lia.
Qed.

Lemma SFltb_asym (x y : spec_float) :
  SFltb x y = true -> SFltb y x = false.
Proof.
  unfold SFltb.
  destruct x as [sx|sx| |sx mx ex], y as [sy|sy| |sy my ey]; cbn [SFcompare];
    try discriminate; try reflexivity;
    try (destruct sx; try discriminate; try reflexivity);
    try (destruct sy; try discriminate; try reflexivity).
  all: intros H1; cbn [CompOpp] in *.
  all: cmp_cases; cbn [CompOpp] in *; try discriminate; try reflexivity;
       subst; try lia.
Qed.

Lemma ltb_leb_trans (a b c : float) :
  (a <? b)%float = true -> (b <=? c)%float = true -> (a <? c)%float = true.
Proof. rewrite !ltb_spec, leb_spec. apply SFltb_leb_trans. Qed.

Lemma ltb_asym (a b : float) :
  (a <? b)%float = true -> (b <? a)%float = false.
Proof. rewrite !ltb_spec. apply SFltb_asym. Qed.

End FloatFacts.

(** * The claims *)

(** ** Scores and the unit interval *)

Section Clamp.

Import FloatFacts.

Lemma max_0_cases (y : float) :
  is_nan y = false ->
  JS.max 0 y = 0%float \/ (JS.max 0 y = y /\ (0 <? y)%float = true).
Proof.
  intros Hy. unfold JS.max. rewrite Hy.
  change (is_nan 0) with false. cbn [orb].
  destruct (0 <? y)%float eqn:E1; [right; split; reflexivity|].
  destruct (y <? 0)%float; [left; reflexivity|].
  change (is_zero 0 && get_sign 0) with false. left; reflexivity.
Qed.

Lemma min_1_cases (y : float) :
  is_nan y = false ->
  JS.min 1 y = 1%float \/ (JS.min 1 y = y /\ (y <? 1)%float = true).
Proof.
  intros Hy. unfold JS.min. rewrite Hy.
  change (is_nan 1) with false. cbn [orb].
  destruct (1 <? y)%float; [left; reflexivity|].
  destruct (y <? 1)%float eqn:E; [right; split; reflexivity|].
  change (is_zero 1 && negb (get_sign 1)) with false. left; reflexivity.
Qed.

Lemma clamp_unit (y : float) :
  is_nan y = false -> JS.in_unit (JS.min 1 (JS.max 0 y)) = true.
Proof.
  intros Hy.
  destruct (max_0_cases y Hy) as [E|[E H0]]; rewrite E.
  - reflexivity.
  - destruct (min_1_cases y Hy) as [E1|[E1 H1]]; rewrite E1.
    + reflexivity.
    + unfold JS.in_unit. rewrite (ltb_leb _ _ H0), (ltb_leb _ _ H1). reflexivity.
Qed.

Lemma clamp_nan (y : float) :
  is_nan y = true -> is_nan (JS.min 1 (JS.max 0 y)) = true.
Proof.
  intros Hy. unfold JS.min, JS.max. rewrite Hy, orb_true_r.
  reflexivity.
Qed.

End Clamp.

(** The saliency score is NaN exactly when the normalised difference is. *)
Lemma saliencyScore_nan (diff : float) (w h : Z) :
  is_nan (App.saliencyScore diff w h) = is_nan (App.norm diff w h).
Proof.
  unfold App.saliencyScore.
  destruct (is_nan (App.norm diff w h)) eqn:E.
  - apply clamp_nan. rewrite FloatFacts.mul_4_nan. exact E.
  - assert (H : is_nan (App.norm diff w h * 4)%float = false)
      by (rewrite FloatFacts.mul_4_nan; exact E).
    destruct (max_0_cases _ H) as [E0|[E0 _]]; rewrite E0.
    + reflexivity.
    + destruct (min_1_cases _ H) as [E1|[E1 _]]; rewrite E1.
      * reflexivity.
      * exact H.
Qed.

(** C2 (amended): the saliency score of the frame-difference path is the
    global frame difference normalised by [w * h * 3 * 255], scaled by the
    gain 4 and clamped by [Math.min(1, Math.max(0, .))]: whenever the
    normalised difference is a number (not NaN) the score [s] satisfies
    [0 <= s <= 1], and the score is NaN only if the normalised difference
    is.  This is the raw score a scoring frame pushes.  Nothing is claimed
    for the embedding path, whose cosine distance is passed on unclamped. *)
Theorem saliency_score_in_unit_interval :
  forall (diff : float) (w h : Z),
    App.saliencyScore diff w h
      = JS.min 1 (JS.max 0 (diff / (JS.ofZ w * JS.ofZ h * 3 * 255) * 4)%float)
    /\ (is_nan (App.norm diff w h) = false ->
        JS.in_unit (App.saliencyScore diff w h) = true)
    /\ (is_nan (App.saliencyScore diff w h) = true ->
        is_nan (App.norm diff w h) = true)
    /\ (forall (f : App.Frame) (last : App.ImageData),
          rawScore f last
          = App.saliencyScore (App.diff (scanOf f last)) App.W
              (App.canvasHeight (App.videoWidth f) (App.videoHeight f))).
Proof.
  intros diff w h. split; [reflexivity|]. split; [|split].
  - intros H. unfold App.saliencyScore. apply clamp_unit.
    rewrite FloatFacts.mul_4_nan. exact H.
  - rewrite saliencyScore_nan. auto.
  - reflexivity.
Qed.

Lemma saliency_score_in_unit_interval_witness :
  is_nan (App.norm 30600 160 1) = false
  /\ JS.in_unit (App.saliencyScore 30600 160 1) = true.
Proof.
  split; [reflexivity|].
  apply (proj1 (proj2 (saliency_score_in_unit_interval 30600 160 1))).
  reflexivity.
Defined.

(** C2 (counterexample): the second embedding is opposed to the running
    mean, [cosineDistance] returns 1.99999999 and [step] hands this score
    to [onScore] as it is; the callback averages it unclamped and publishes
    a detection with score 1.99999999: emitted scores above 1. *)
Lemma embedding_score_exceeds_one :
  Ai.start (Some [(-1)%float], 1)
           (Ai.Live 250 (Ai.mkVars Ai.MobileNetV2 None false None 0))
    = (Ai.Live 250 startedVars, [Ai.Await [(-1)%float]])
  /\ fst (Ai.resume 250 true [(-1)%float] 1 startedVars) = afterFirstEmbedding
  /\ snd (Ai.step 250 true (Some [1%float]) 2 afterFirstEmbedding)
     = [Ai.OnScore (Ai.cosineDistance [1%float] [(-1)%float]); Ai.SetTimeout 250]
  /\ Ai.cosineDistance [1%float] [(-1)%float] = 1.9999999900000001%float
  /\ JS.in_unit (Ai.cosineDistance [1%float] [(-1)%float]) = false
  /\ detections
       (snd (App.onScore watching (App.mkReads (T0 + 150) (T0 + 150) (T0 + 150))
                         (Ai.cosineDistance [1%float] [(-1)%float]) warm))
     = [(1.9999999900000001%float, T0 + 150)].
Proof. repeat split; vm_compute; reflexivity. Qed.

(** ** Load failure of the embedding model *)

Lemma create_fallback (interval : option Z) (l : Ai.Loader) :
  loadFails l ->
  Ai.createVideoAnomalyDetector interval l
    = (Ai.Resolved Ai.Fallback, [Ai.ConsoleWarn]).
Proof.
  unfold loadFails, Ai.createVideoAnomalyDetector.
  destruct (Ai.import_tf l), (Ai.import_mobilenet l), (Ai.mobilenet_load l);
    intros [H|[H|H]]; try discriminate; reflexivity.
Qed.

Lemma calls_fallback (cs : list Ai.Call) :
  Ai.calls cs Ai.Fallback = (Ai.Fallback, []).
Proof.
  induction cs as [|c cs IH]; [reflexivity|].
  simpl. destruct c; simpl; rewrite IH; reflexivity.
Qed.

(** [analyze] neither reads nor writes [detectorRef] and [aiReady]. *)
Lemma analyze_withDetector (c : App.Closure) (f : App.Frame) (p : App.Player)
    (d : option Ai.AnomalyDetector) (r : bool) :
  App.analyze c f (App.withDetector d r p)
  = (App.withDetector d r (fst (App.analyze c f p)), snd (App.analyze c f p)).
Proof.
  unfold App.analyze.
  destruct (negb (App.videoPresent f) || negb (App.c_hasMedia c)
            || negb (App.c_analyzing c) || (App.readyState f <? 2));
    [reflexivity|].
  destruct (negb (App.context2d f)); [reflexivity|].
  cbn [App.withDetector App.lastFrame App.warmupRef].
  destruct (App.lastFrame p) as [last|]; [|reflexivity].
  destruct (App.warmupRef p <? 6); [reflexivity|].
  unfold App.scoreFrame.
  cbn [App.withDetector App.boxEmaRef App.activation App.sustainRef
       App.activeRef App.holdFramesRef App.scoreBufRef App.recentScoresRef].
  destruct (App.drawOverlay _ _ _ _ _) as [box drawn].
  reflexivity.
Qed.

(** C8: if any of the awaited load steps fails, [createVideoAnomalyDetector]
    still resolves (it never rejects) with the fallback detector; on that
    detector every sequence of [start()] and [stop()] calls does nothing and
    [isReady()] keeps answering false; [maybeInit] records [aiReady = false],
    the [stop()]/[start()] pair of [resetForLoop] has no effect, and
    [analyze] runs exactly as it does without a detector. *)
Theorem load_failure_degrades_gracefully :
  forall (interval : option Z) (l : Ai.Loader),
    loadFails l ->
    Ai.createVideoAnomalyDetector interval l
      = (Ai.Resolved Ai.Fallback, [Ai.ConsoleWarn])
    /\ (forall cs : list Ai.Call,
          Ai.calls cs Ai.Fallback = (Ai.Fallback, [])
          /\ Ai.isReady (fst (Ai.calls cs Ai.Fallback)) = false)
    /\ (forall (c : App.Closure) (rd : Ai.Read) (p : App.Player),
          App.c_hasMedia c = true -> App.c_analyzing c = true ->
          App.detectorRef p = None ->
          App.maybeInit true c l rd p
            = Ai.Resolved (App.withDetector (Some Ai.Fallback) false p,
                           [App.Detector Ai.ConsoleWarn]))
    /\ (forall rd : Ai.Read,
          App.restart rd (Some Ai.Fallback) = (Some Ai.Fallback, []))
    /\ (forall (c : App.Closure) (f : App.Frame) (p : App.Player),
          App.analyze c f (App.withDetector (Some Ai.Fallback) false p)
          = (App.withDetector (Some Ai.Fallback) false (fst (App.analyze c f p)),
             snd (App.analyze c f p))).
Proof.
  intros interval l H. split; [apply create_fallback, H|].
  split.
  - intros cs. rewrite calls_fallback. split; reflexivity.
  - split; [|split].
    + intros c rd p Hm Ha Hd. unfold App.maybeInit.
      rewrite Hm, Ha, Hd, (create_fallback _ _ H). reflexivity.
    + intros rd. reflexivity.
    + intros c f p. apply analyze_withDetector.
Qed.

Lemma load_failure_degrades_gracefully_witness :
  Ai.createVideoAnomalyDetector (Some 250)
    (Ai.mkLoader (Some tt) (Some tt) None)
  = (Ai.Resolved Ai.Fallback, [Ai.ConsoleWarn]).
Proof.
  apply (load_failure_degrades_gracefully (Some 250)
           (Ai.mkLoader (Some tt) (Some tt) None)).
  right. right. reflexivity.
Defined.

(** ** The activation state machine *)

Lemma feed_app (l1 l2 : list (float * float)) (a : App.Activation) :
  feed (l1 ++ l2) a = feed l2 (feed l1 a).
Proof. apply fold_left_app. Qed.

Lemma stabilize_step (s v : float) (a : App.Activation) :
  0 <= App.sustain a ->
  let a' := App.stabilize s v a in
  0 <= App.sustain a'
  /\ App.sustain a' <= App.sustain a + (if aboveEntry (s, v) then 1 else 0)
  /\ (App.active a' = true -> App.active a = true \/ 3 <= App.sustain a').
Proof.
  unfold App.stabilize, aboveEntry; cbn [fst snd].
  destruct a as [su ac ho]; cbn [App.sustain App.active App.holdFrames].
  intros H0.
  destruct (JS.gt v (App.entryThr s)); [|destruct (JS.lt v (App.exitThr s))];
    (destruct ac; cbn [negb andb];
     repeat match goal with
            | |- context [if ?b then _ else _] => destruct b eqn:?
            end;
     cbn [App.sustain App.active];
     (split; [lia | split; [lia | intros Hact;
        first [discriminate | left; reflexivity | right; lia]]])).
Qed.

Lemma feed_counts (ticks : list (float * float)) :
  forall (a : App.Activation) (n : Z),
    0 <= App.sustain a ->
    App.sustain a <= n -> (App.active a = true -> 3 <= n) ->
    App.sustain (feed ticks a) <= n + Z.of_nat (length (filter aboveEntry ticks))
    /\ (App.active (feed ticks a) = true ->
        3 <= n + Z.of_nat (length (filter aboveEntry ticks))).
Proof.
  induction ticks as [|[s v] ticks IH]; intros a n H0 Hs Ha.
  - simpl. split; [lia|]. intros H. specialize (Ha H). lia.
  - destruct (stabilize_step s v a H0) as [H1 [H2 H3]].
    change (feed ((s, v) :: ticks) a) with (feed ticks (App.stabilize s v a)).
    cbn [filter]. destruct (aboveEntry (s, v)) eqn:E.
    + destruct (IH (App.stabilize s v a) (n + 1)) as [I1 I2].
      * exact H1.
      * lia.
      * intros H. destruct (H3 H) as [H4|H4]; [specialize (Ha H4)|]; lia.
      * cbn [length]. rewrite Nat2Z.inj_succ. split; [lia|].
        intros H. specialize (I2 H). lia.
    + destruct (IH (App.stabilize s v a) n) as [I1 I2].
      * exact H1.
      * lia.
      * intros H. destruct (H3 H) as [H4|H4]; [specialize (Ha H4)|]; lia.
      * split; assumption.
Qed.

Lemma stabilize_above (t : float * float) (a : App.Activation) :
  aboveEntry t = true ->
  App.stabilize (fst t) (snd t) a
  = let s1 := Z.min 10 (App.sustain a + 1) in
    let '(a1, h1) :=
      if negb (App.active a) && (3 <=? s1) then (true, 8)
      else (App.active a, App.holdFrames a) in
    if a1 && (s1 =? 0) then
      if 0 <? h1 then App.mkActivation s1 a1 (h1 - 1)
      else App.mkActivation s1 false h1
    else App.mkActivation s1 a1 h1.
Proof.
  unfold aboveEntry, App.stabilize. intros H. rewrite H. reflexivity.
Qed.

Lemma three_above_in_a_row (t1 t2 t3 : float * float) :
  aboveEntry t1 = true -> aboveEntry t2 = true -> aboveEntry t3 = true ->
  feed [t1] initial = App.mkActivation 1 false 0
  /\ feed [t1; t2] initial = App.mkActivation 2 false 0
  /\ feed [t1; t2; t3] initial = App.mkActivation 3 true 8.
Proof.
  intros H1 H2 H3. unfold feed, initial. cbn [fold_left].
  rewrite (stabilize_above t1 _ H1). cbn.
  rewrite (stabilize_above t2 _ H2). cbn.
  rewrite (stabilize_above t3 _ H3). cbn.
  repeat split.
Qed.

(** C3 (counterexample): with entry 0.20 and exit 0.10 the samples
    [0.25, 0.25, 0.15, 0.25] activate the machine on the 4th sample, although
    the dead-zone sample 0.15 breaks the run of above-entry samples after
    two. *)
Lemma activation_without_three_consecutive :
  feed [(0.20, 0.25); (0.20, 0.25); (0.20, 0.15); (0.20, 0.25)]%float initial
    = App.mkActivation 3 true 8
  /\ map aboveEntry [(0.20, 0.25); (0.20, 0.25); (0.20, 0.15); (0.20, 0.25)]%float
     = [true; true; false; true]
  /\ ~ activation_needs_three_consecutive.
Proof.
  split; [vm_compute; reflexivity|].
  split; [vm_compute; reflexivity|].
  intros H.
  specialize (H [(0.20, 0.25); (0.20, 0.25); (0.20, 0.15); (0.20, 0.25)]%float).
  vm_compute in H. specialize (H eq_refl). discriminate.
Qed.

(** C3 (amended): starting from the initial state (sustain 0, hold 0,
    inactive) the machine is active only after at least 3 smoothed samples
    strictly above the entry threshold (they need not be consecutive: the
    sustain counter is left unchanged by a dead-zone sample and lowered by
    one by a below-exit sample); three above-entry samples in a row make
    [active] true on the 3rd sample and not before, as do the samples
    [0.25, 0.25, 0.25] with entry 0.20 and exit 0.10. *)
Theorem activation_needs_three_above_entry :
  (forall ticks : list (float * float),
      App.active (feed ticks initial) = true ->
      (3 <= length (filter aboveEntry ticks))%nat)
  /\ (forall t1 t2 t3 : float * float,
        aboveEntry t1 = true -> aboveEntry t2 = true -> aboveEntry t3 = true ->
        App.active (feed [t1] initial) = false
        /\ App.active (feed [t1; t2] initial) = false
        /\ App.active (feed [t1; t2; t3] initial) = true)
  /\ (App.entryThr 0.20 = 0.20%float
      /\ App.exitThr 0.20 = 0.10%float
      /\ map (fun k => App.active
                (feed (firstn k [(0.20, 0.25); (0.20, 0.25); (0.20, 0.25)]%float)
                      initial)) [0; 1; 2; 3]%nat
         = [false; false; false; true])
  /\ (forall (rd : Ai.Read) (t1 t2 : Z) (p : App.Player),
        App.activation (fst (App.resetForLoop rd t1 t2 p)) = initial).
Proof.
  split; [|split; [|split]].
  - intros ticks H.
    assert (I : 3 <= 0 + Z.of_nat (length (filter aboveEntry ticks))).
    { apply (feed_counts ticks initial 0); cbn; try lia; try discriminate.
      exact H. }
    lia.
  - intros t1 t2 t3 H1 H2 H3.
    destruct (three_above_in_a_row t1 t2 t3 H1 H2 H3) as [E1 [E2 E3]].
    rewrite E1, E2, E3. repeat split.
  - repeat split; vm_compute; reflexivity.
  - intros rd t1 t2 p. unfold App.resetForLoop.
    destruct (App.restart _ (App.detectorRef p)) as [d es]. reflexivity.
Qed.

Lemma activation_needs_three_above_entry_witness :
  (3 <= length (filter aboveEntry
                  [(0.20, 0.25); (0.20, 0.25); (0.20, 0.15); (0.20, 0.25)]%float))%nat.
Proof.
  apply (proj1 activation_needs_three_above_entry
           [(0.20, 0.25); (0.20, 0.25); (0.20, 0.15); (0.20, 0.25)]%float).
  vm_compute. reflexivity.
Defined.

Lemma stabilize_below (t : float * float) (a : App.Activation) :
  belowExit t = true ->
  App.stabilize (fst t) (snd t) a
  = let s1 := Z.max 0 (App.sustain a - 1) in
    let '(a1, h1) :=
      if negb (App.active a) && (3 <=? s1) then (true, 8)
      else (App.active a, App.holdFrames a) in
    if a1 && (s1 =? 0) then
      if 0 <? h1 then App.mkActivation s1 a1 (h1 - 1)
      else App.mkActivation s1 false h1
    else App.mkActivation s1 a1 h1.
Proof.
  unfold belowExit, aboveEntry, App.stabilize. intros H.
  apply andb_prop in H. destruct H as [H1 H2].
  apply negb_true_iff in H1. rewrite H1, H2. reflexivity.
Qed.

Lemma inactive_stays (rest : list (float * float)) :
  Forall (fun t => belowExit t = true) rest ->
  feed rest (App.mkActivation 0 false 0) = App.mkActivation 0 false 0.
Proof.
  induction 1 as [|t rest Ht _ IH]; [reflexivity|].
  change (feed (t :: rest) ?a) with (feed rest (App.stabilize (fst t) (snd t) a)).
  rewrite (stabilize_below t _ Ht). exact IH.
Qed.

(** With sustain at 0, every below-exit tick lowers a positive hold by one
    and the tick that finds hold at 0 deactivates. *)
Lemma hold_decay (rest : list (float * float)) :
  Forall (fun t => belowExit t = true) rest ->
  forall h : Z, 0 <= h ->
    feed rest (App.mkActivation 0 true h)
    = if Z.of_nat (length rest) <=? h
      then App.mkActivation 0 true (h - Z.of_nat (length rest))
      else App.mkActivation 0 false 0.
Proof.
  induction 1 as [|t rest Ht Hrest IH]; intros h Hh.
  - cbn [length Z.of_nat]. destruct (Z.leb_spec 0 h); [|lia].
    unfold feed. cbn [fold_left]. f_equal. lia.
  - change (feed (t :: rest) ?a) with (feed rest (App.stabilize (fst t) (snd t) a)).
    rewrite (stabilize_below t _ Ht).
    cbn [App.sustain App.active App.holdFrames negb andb Z.max Z.sub Z.add
         Z.opp Z.compare Z.eqb Z.pos_sub].
    cbn [length]. rewrite Nat2Z.inj_succ.
    destruct (Z.ltb_spec 0 h).
    + rewrite IH by lia.
      destruct (Z.leb_spec (Z.of_nat (length rest)) (h - 1));
        destruct (Z.leb_spec (Z.succ (Z.of_nat (length rest))) h);
        try lia; [f_equal; lia|reflexivity].
    + assert (h = 0) by lia. subst h.
      rewrite (inactive_stays rest Hrest).
      destruct (Z.leb_spec (Z.succ (Z.of_nat (length rest))) 0); [lia|reflexivity].
Qed.

Lemma Forall_prefix {A : Type} (P : A -> Prop) (l : list A) :
  Forall P l -> forall k : nat, Forall P (firstn k l).
Proof.
  induction 1 as [|x l Hx _ IH]; intros [|k]; cbn; constructor; auto.
Qed.

(** Below the exit threshold a tick takes the [else if] branch, provided
    [exit <= entry]. *)
Lemma underExit_belowExit (t : float * float) :
  underExit t -> belowExit t = true.
Proof.
  intros [S L]. unfold belowExit, aboveEntry, JS.gt, JS.lt in *.
  rewrite L, andb_true_r.
  rewrite (FloatFacts.ltb_asym _ _ (FloatFacts.ltb_leb_trans _ _ _ L S)).
  reflexivity.
Qed.

(** C4: let the machine be active with hold 8 and sustain about to reach 0
    (the thresholds satisfying [exit <= entry]).  The below-exit tick that
    brings sustain to 0 leaves it active; from then on each of the next 7
    below-exit ticks keeps it active while hold counts down to 0, and the
    8th deactivates it: exactly 8 more ticks. *)
Theorem deactivation_after_hold :
  forall (a : App.Activation) (first : float * float)
         (rest : list (float * float)),
    App.active a = true -> App.holdFrames a = 8 -> App.sustain a = 1 ->
    underExit first -> Forall underExit rest -> length rest = 8%nat ->
    App.sustain (feed [first] a) = 0
    /\ App.active (feed [first] a) = true
    /\ (forall k : nat, (k < 8)%nat ->
          feed (firstn k rest) (feed [first] a)
          = App.mkActivation 0 true (7 - Z.of_nat k))
    /\ App.active (feed rest (feed [first] a)) = false.
Proof.
  intros [su ac ho] first rest Ha Hh Hs Hf Hr Hl.
  cbn in Ha, Hh, Hs. subst su ac ho.
  apply underExit_belowExit in Hf.
  assert (Hr' : Forall (fun t => belowExit t = true) rest).
  { apply Forall_impl with (2 := Hr). exact underExit_belowExit. }
  assert (E : feed [first] (App.mkActivation 1 true 8) = App.mkActivation 0 true 7).
  { unfold feed. cbn [fold_left]. rewrite (stabilize_below first _ Hf).
    reflexivity. }
  rewrite E. repeat split.
  - intros k Hk.
    rewrite (hold_decay (firstn k rest)); [|apply Forall_prefix; exact Hr'|lia].
    rewrite length_firstn, Hl, Nat.min_l by lia.
    destruct (Z.leb_spec (Z.of_nat k) 7); [reflexivity|lia].
  - rewrite (hold_decay rest Hr') by lia. rewrite Hl. reflexivity.
Qed.

Lemma deactivation_after_hold_witness :
  App.active (feed (repeat (0.20, 0.05)%float 8)
                (feed [(0.20, 0.05)%float] (App.mkActivation 1 true 8)))
  = false.
Proof.
  apply (deactivation_after_hold (App.mkActivation 1 true 8)
           (0.20, 0.05)%float (repeat (0.20, 0.05)%float 8));
    try reflexivity.
  - split; reflexivity.
  - repeat constructor.
Defined.

(** ** Unfolding [analyze] and [onScore] *)

Lemma ready_guards (c : App.Closure) (f : App.Frame) :
  ready c f = true ->
  (negb (App.videoPresent f) || negb (App.c_hasMedia c)
   || negb (App.c_analyzing c) || (App.readyState f <? 2)) = false
  /\ negb (App.context2d f) = false.
Proof.
  unfold ready. intros H.
  apply andb_prop in H. destruct H as [H H5].
  apply andb_prop in H. destruct H as [H H4].
  apply andb_prop in H. destruct H as [H H3].
  apply andb_prop in H. destruct H as [H1 H2].
  rewrite H1, H2, H3, H5. split; [|reflexivity].
  cbn. apply Z.ltb_ge. apply Z.leb_le. assumption.
Qed.

Lemma analyze_scores (c : App.Closure) (f : App.Frame) (p : App.Player)
    (last : App.ImageData) :
  scoring c f p last ->
  App.analyze c f p
  = App.scoreFrame c f (App.canvasHeight (App.videoWidth f) (App.videoHeight f))
                   (frameOf f) (scanOf f last) (rawScore f last) p.
Proof.
  intros [Hr [Hl Hw]].
  destruct (ready_guards _ _ Hr) as [G1 G2].
  unfold App.analyze. rewrite G1, G2, Hl.
  apply Z.ltb_ge in Hw. rewrite Hw.
  unfold rawScore, scanOf, frameOf. cbv zeta. cbn [App.data]. reflexivity.
Qed.

Lemma not_ready (c : App.Closure) (f : App.Frame) :
  ready c f = false ->
  (negb (App.videoPresent f) || negb (App.c_hasMedia c)
   || negb (App.c_analyzing c) || (App.readyState f <? 2)) = true
  \/ negb (App.context2d f) = true.
Proof.
  unfold ready.
  destruct (App.videoPresent f), (App.c_hasMedia c), (App.c_analyzing c);
    cbn [negb orb andb]; try (intros _; left; reflexivity).
  destruct (Z.leb_spec 2 (App.readyState f)), (Z.ltb_spec (App.readyState f) 2);
    try lia; cbn [negb orb andb]; try (intros _; left; reflexivity).
  destruct (App.context2d f); cbn [negb]; [discriminate|].
  intros _; right; reflexivity.
Qed.

(** The three ways a call of [analyze] ends: nothing happens, the frame is
    only kept (first frame or warm-up), or the frame scores. *)
Lemma analyze_cases (c : App.Closure) (f : App.Frame) (p : App.Player) :
  App.analyze c f p = (p, [])
  \/ (exists curr warmup, App.analyze c f p = (App.keepFrame curr warmup p, []))
  \/ (exists last, scoring c f p last).
Proof.
  destruct (ready c f) eqn:R.
  - destruct (App.lastFrame p) as [last|] eqn:L.
    + destruct (Z.ltb_spec (App.warmupRef p) 6) as [W|W].
      * right; left. destruct (ready_guards _ _ R) as [G1 G2].
        unfold App.analyze. rewrite G1, G2, L.
        apply Z.ltb_lt in W. rewrite W. eauto.
      * right; right. exists last. repeat split; assumption.
    + right; left. destruct (ready_guards _ _ R) as [G1 G2].
      unfold App.analyze. rewrite G1, G2, L. eauto.
  - left. unfold App.analyze.
    destruct (not_ready _ _ R) as [G|G]; rewrite G; [reflexivity|].
    destruct (negb (App.videoPresent f) || negb (App.c_hasMedia c)
              || negb (App.c_analyzing c) || (App.readyState f <? 2));
      reflexivity.
Qed.

(** The cells and events of a scoring frame. *)
Lemma analyze_scoring (c : App.Closure) (f : App.Frame) (p : App.Player)
    (last : App.ImageData) :
  scoring c f p last ->
  let p' := fst (App.analyze c f p) in
  let a := stabilized c f p last in
  let avg := smoothed f p last in
  let h := App.canvasHeight (App.videoWidth f) (App.videoHeight f) in
  let acts := if App.c_autoTune c
              then App.prune (App.now f) (App.recentActivationsRef p)
              else App.recentActivationsRef p in
  let fire := App.frameFires c (App.active a) avg (App.now f) (App.lastFireRef p) in
  App.activation p' = a
  /\ App.scoreBufRef p' = App.pushScore (App.scoreBufRef p) (rawScore f last)
  /\ App.boxEmaRef p'
     = fst (App.drawOverlay (App.overlay f) h (App.active a) (scanOf f last)
                            (App.boxEmaRef p))
  /\ App.sensitivity p'
     = match (if App.c_autoTune c then App.tune (App.c_sensitivity c) acts
              else None) with
       | Some s' => s'
       | None => App.sensitivity p
       end
  /\ App.recentActivationsRef p'
     = App.recordEdge (App.prevActiveRef p) (App.active a) (App.now f) acts
  /\ App.lastFireRef p' = (if fire then App.now f else App.lastFireRef p)
  /\ snd (App.analyze c f p)
     = [App.WindowThreshold (App.c_sensitivity c);
        App.AiThreshold (App.c_sensitivity c);
        App.AiScore avg (App.now f) (App.c_sensitivity c)]
       ++ snd (App.drawOverlay (App.overlay f) h (App.active a) (scanOf f last)
                               (App.boxEmaRef p))
       ++ [App.AiActive (App.active a) (App.now f)]
       ++ (if fire then [App.OnIrregularity avg; App.AiDetect avg (App.now f)]
           else []).
Proof.
  intros H. rewrite (analyze_scores c f p last H).
  unfold App.scoreFrame, stabilized, smoothed.
  destruct (App.drawOverlay _ _ _ _ _) as [box drawn].
  cbn [fst snd App.activation App.sustainRef App.activeRef App.holdFramesRef
       App.scoreBufRef App.boxEmaRef App.sensitivity App.recentActivationsRef
       App.lastFireRef].
  repeat split.
  destruct (App.stabilize _ _ _); reflexivity.
Qed.

(** A scoring frame steps the activation state machine once, with the
    sensitivity the handler closed over and the smoothed score. *)
Lemma analyze_steps_machine (c : App.Closure) (f : App.Frame) (p : App.Player)
    (last : App.ImageData) :
  scoring c f p last ->
  App.activation (fst (App.analyze c f p))
  = feed [(App.c_sensitivity c, smoothed f p last)] (App.activation p).
Proof.
  intros H. destruct (analyze_scoring c f p last H) as [E _].
  rewrite E. reflexivity.
Qed.

(** The cells and events of an [onScore] call. *)
Lemma onScore_warm (c : App.Closure) (r : App.Reads) (s : float)
    (p : App.Player) :
  6 <= App.warmupRef p ->
  let p' := fst (App.onScore c r s p) in
  let avg := App.average (App.pushScore (App.scoreBufRef p) s) in
  let fire := App.embeddingFires c avg (App.atGuard r) (App.lastFireRef p) in
  App.scoreBufRef p' = App.pushScore (App.scoreBufRef p) s
  /\ App.lastFireRef p' = (if fire then App.atStore r else App.lastFireRef p)
  /\ snd (App.onScore c r s p)
     = (if fire then [App.OnIrregularity avg; App.AiDetect avg (App.atEvent r)]
        else []).
Proof.
  intros H. unfold App.onScore. apply Z.ltb_ge in H. rewrite H.
  repeat split.
Qed.

Lemma onScore_warmup (c : App.Closure) (r : App.Reads) (s : float)
    (p : App.Player) :
  App.warmupRef p < 6 ->
  let p' := fst (App.onScore c r s p) in
  App.warmupRef p' = App.warmupRef p + 1
  /\ App.scoreBufRef p' = App.scoreBufRef p
  /\ App.lastFireRef p' = App.lastFireRef p
  /\ snd (App.onScore c r s p) = [].
Proof.
  intros H. unfold App.onScore. apply Z.ltb_lt in H. rewrite H.
  repeat split.
Qed.

(** ** The rolling score buffer *)

Lemma pushScore_lastn (buf : list float) (s : float) :
  (length buf <= 8)%nat ->
  App.pushScore buf s = lastn 8 (buf ++ [s])
  /\ (length (App.pushScore buf s) <= 8)%nat.
Proof.
  intros H. unfold App.pushScore, lastn.
  rewrite length_app. cbn [length].
  destruct (Z.ltb_spec 8 (Z.of_nat (length buf + 1))) as [L|L].
  - assert (E : length buf = 8%nat) by lia. rewrite E. cbn [Nat.add Nat.sub skipn].
    split; [destruct (buf ++ [s]); reflexivity|].
    destruct buf as [|x buf]; [discriminate|].
    cbn [app tl]. rewrite length_app. cbn in *. lia.
  - replace (length buf + 1 - 8)%nat with 0%nat by lia. cbn [skipn].
    split; [reflexivity|]. rewrite length_app. cbn. lia.
Qed.




Lemma scoreEvents_drawn (ov : option (Z * Z)) (h : Z) (isActive : bool)
    (s : App.Scan) (prev : option Box.t) :
  scoreEvents (snd (App.drawOverlay ov h isActive s prev)) = [].
Proof.
  unfold App.drawOverlay. destruct ov as [[ovw ovh]|]; [|reflexivity].
  destruct (isActive && JS.gt (App.maxBlockSum s) 0); reflexivity.
Qed.

(** A scoring frame publishes exactly one ['ai-score']: the mean of the
    buffer it has just pushed to. *)
Lemma scoring_scoreEvents (c : App.Closure) (f : App.Frame) (p : App.Player)
    (last : App.ImageData) :
  scoring c f p last ->
  scoreEvents (snd (App.analyze c f p)) = [smoothed f p last].
Proof.
  intros H.
  destruct (analyze_scoring c f p last H) as [_ [_ [_ [_ [_ [_ Ev]]]]]].
  rewrite Ev. unfold scoreEvents. rewrite !flat_map_app.
  fold (scoreEvents (snd (App.drawOverlay (App.overlay f)
          (App.canvasHeight (App.videoWidth f) (App.videoHeight f))
          (App.active (stabilized c f p last)) (scanOf f last)
          (App.boxEmaRef p)))).
  rewrite scoreEvents_drawn. cbn [flat_map app].
  destruct (App.frameFires _ _ _ _ _); reflexivity.
Qed.



(** ** The adaptive threshold *)

Lemma clamp_sensitivity_range (x : float) :
  is_nan x = false ->
  ((0.15 <=? clamp x 0.15 0.6) && (clamp x 0.15 0.6 <=? 0.6))%float = true.
Proof.
  intros Hx. unfold clamp.
  assert (M : JS.min 0.6 x = 0.6%float
              \/ (JS.min 0.6 x = x /\ (x <? 0.6)%float = true)).
  { unfold JS.min. rewrite Hx. change (is_nan 0.6) with false. cbn [orb].
    destruct (0.6 <? x)%float; [left; reflexivity|].
    destruct (x <? 0.6)%float; [right; split; reflexivity|].
    change (is_zero 0.6 && negb (get_sign 0.6)) with false. left; reflexivity. }
  assert (N : forall m, is_nan m = false ->
              JS.max 0.15 m = 0.15%float
              \/ (JS.max 0.15 m = m /\ (0.15 <? m)%float = true)).
  { intros m Hm. unfold JS.max. rewrite Hm. change (is_nan 0.15) with false.
    cbn [orb].
    destruct (0.15 <? m)%float; [right; split; reflexivity|].
    destruct (m <? 0.15)%float; [left; reflexivity|].
    change (is_zero 0.15 && get_sign 0.15) with false. left; reflexivity. }
  destruct M as [E|[E L]]; rewrite E.
  - vm_compute. reflexivity.
  - destruct (N x Hx) as [E1|[E1 L1]]; rewrite E1.
    + vm_compute. reflexivity.
    + rewrite (FloatFacts.ltb_leb _ _ L), (FloatFacts.ltb_leb _ _ L1).
      reflexivity.
Qed.

Lemma prune_spec (now : Z) (acts : list Z) (t : Z) :
  In t (App.prune now acts) <-> In t acts /\ now - t <= 10000.
Proof.
  unfold App.prune, App.windowMs. rewrite filter_In, Z.leb_le. reflexivity.
Qed.

(** The update of one scoring frame, in terms of the sensitivity [entry]
    that the handler closed over: with adaptive mode on, the controller
    keeps exactly the activation-edge timestamps that are at most 10 s old,
    computes [ratePerSec = count / 10] from them, forms
    [entry' = clamp(entry - (ratePerSec - 0.2) * 0.0025, 0.15, 0.6)], which
    lies in [0.15, 0.6] whenever the nudged value is a number, and calls
    [setSensitivity(entry')] only when [|entry' - entry| > 0.0005];
    otherwise, and whenever adaptive mode is off, the sensitivity cell is
    left unchanged. *)
Theorem adaptive_threshold_update :
  forall (c : App.Closure) (f : App.Frame) (p : App.Player)
         (last : App.ImageData),
    scoring c f p last ->
    let entry := App.c_sensitivity c in
    let window := App.prune (App.now f) (App.recentActivationsRef p) in
    let ratePerSec := (JS.ofZ (Z.of_nat (length window)) / 10)%float in
    let nudged := (entry - (ratePerSec - 0.2) * 0.0025)%float in
    let entry' := clamp nudged 0.15 0.6 in
    let p' := fst (App.analyze c f p) in
    (App.c_autoTune c = true ->
       (forall t, In t window
                  <-> In t (App.recentActivationsRef p) /\ App.now f - t <= 10000)
       /\ App.ratePerSec window = ratePerSec
       /\ App.sensitivity p'
          = (if JS.gt (abs (entry' - entry)) 0.0005 then entry'
             else App.sensitivity p)
       /\ App.recentActivationsRef p'
          = App.recordEdge (App.prevActiveRef p) (App.activeRef p')
                           (App.now f) window
       /\ (is_nan nudged = false ->
           ((0.15 <=? entry') && (entry' <=? 0.6))%float = true))
    /\ (App.c_autoTune c = false ->
          App.sensitivity p' = App.sensitivity p).
Proof.
  intros c f p last H.
  destruct (analyze_scoring c f p last H) as [Ea [_ [_ [Es [Er _]]]]].
  cbv zeta. split.
  - intros T. rewrite T in Es, Er.
    split; [intros t; apply prune_spec|].
    split; [reflexivity|].
    split; [|split].
    + rewrite Es. unfold App.tune, App.nudge, clamp.
      change (App.ratePerSec ?w)
        with (JS.ofZ (Z.of_nat (length w)) / 10)%float.
      destruct (JS.gt _ _); reflexivity.
    + rewrite Er. f_equal.
      change (App.activeRef (fst (App.analyze c f p)))
        with (App.active (App.activation (fst (App.analyze c f p)))).
      rewrite Ea. reflexivity.
    + apply clamp_sensitivity_range.
  - intros T. rewrite T in Es. exact Es.
Qed.

Lemma adaptive_threshold_update_witness :
  scoring watching (frameAt black (T0 + 200)) warm (App.mkImage 160 1 black)
  /\ App.c_autoTune watching = true
  /\ App.sensitivity (fst (App.analyze watching (frameAt black (T0 + 200)) warm))
     = 0.20050000000000001%float.
Proof.
  assert (S : scoring watching (frameAt black (T0 + 200)) warm
                      (App.mkImage 160 1 black))
    by (repeat split; vm_compute; congruence).
  split; [exact S|]. split; [reflexivity|].
  destruct (proj1 (adaptive_threshold_update watching
                     (frameAt black (T0 + 200)) warm
                     (App.mkImage 160 1 black) S) eq_refl) as [_ [_ [E _]]].
  rewrite E. vm_compute. reflexivity.
Defined.

(** C6: the update reads the threshold of the render that created the
    analysis effect, not the threshold it has since written.  On a frame
    whose closure is fresh (its sensitivity is that of the cell) the
    threshold is updated from its own value, as the specification says.
    On any frame the new threshold is either the old one or the value
    nudged from the closure's sensitivity, whatever the cell holds.  So two
    scoring frames of a still video handled by one closure created at 0.20
    leave the threshold at 0.2005 twice, where the update from its own
    value gives 0.2005 and then 0.201. *)
Theorem stale_closure_pins_threshold :
  (forall (c : App.Closure) (f : App.Frame) (p : App.Player)
          (last : App.ImageData),
      scoring c f p last -> App.c_autoTune c = true ->
      App.c_sensitivity c = App.sensitivity p ->
      App.sensitivity (fst (App.analyze c f p))
      = claimedUpdate (App.sensitivity p)
          (App.prune (App.now f) (App.recentActivationsRef p)))
  /\ (forall (c : App.Closure) (f : App.Frame) (p : App.Player)
             (last : App.ImageData),
        scoring c f p last -> App.c_autoTune c = true ->
        App.sensitivity (fst (App.analyze c f p)) = App.sensitivity p
        \/ App.sensitivity (fst (App.analyze c f p))
           = claimedUpdate (App.c_sensitivity c)
               (App.prune (App.now f) (App.recentActivationsRef p)))
  /\ (let p1 := fst (App.analyze watching (frameAt black (T0 + 200)) warm) in
      let p2 := fst (App.analyze watching (frameAt black (T0 + 216)) p1) in
      App.c_sensitivity watching = 0.2%float
      /\ App.sensitivity warm = 0.2%float
      /\ App.sensitivity p1 = 0.20050000000000001%float
      /\ scoring watching (frameAt black (T0 + 216)) p1 (App.mkImage 160 1 black)
      /\ App.c_autoTune watching = true
      /\ App.sensitivity p2 = 0.20050000000000001%float
      /\ claimedUpdate (App.sensitivity p1)
           (App.prune (T0 + 216) (App.recentActivationsRef p1))
         = 0.20100000000000001%float)
  /\ ~ threshold_updates_from_itself.
Proof.
  assert (G : forall (c : App.Closure) (f : App.Frame) (p : App.Player)
                     (last : App.ImageData),
             scoring c f p last -> App.c_autoTune c = true ->
             App.sensitivity (fst (App.analyze c f p))
             = (if JS.gt (abs (clamp (App.c_sensitivity c
                                       - (JS.ofZ (Z.of_nat (length
                                            (App.prune (App.now f)
                                               (App.recentActivationsRef p))))
                                          / 10 - 0.2) * 0.0025) 0.15 0.6
                               - App.c_sensitivity c)) 0.0005
                then clamp (App.c_sensitivity c
                            - (JS.ofZ (Z.of_nat (length
                                 (App.prune (App.now f)
                                    (App.recentActivationsRef p))))
                               / 10 - 0.2) * 0.0025) 0.15 0.6
                else App.sensitivity p)%float).
  { intros c f p last H T.
    destruct (proj1 (adaptive_threshold_update c f p last H) T)
      as [_ [_ [E _]]].
    exact E. }
  assert (C : App.sensitivity
                (fst (App.analyze watching (frameAt black (T0 + 216))
                        (fst (App.analyze watching (frameAt black (T0 + 200))
                                warm))))
              = 0.20050000000000001%float
              /\ claimedUpdate
                   (App.sensitivity
                      (fst (App.analyze watching (frameAt black (T0 + 200))
                              warm)))
                   (App.prune (T0 + 216)
                      (App.recentActivationsRef
                         (fst (App.analyze watching (frameAt black (T0 + 200))
                                 warm))))
                 = 0.20100000000000001%float)
    by (split; vm_compute; reflexivity).
  assert (Sc : scoring watching (frameAt black (T0 + 216))
                 (fst (App.analyze watching (frameAt black (T0 + 200)) warm))
                 (App.mkImage 160 1 black))
    by (repeat split; vm_compute; congruence).
  split; [|split; [|split]].
  - intros c f p last H T F. rewrite (G c f p last H T).
    unfold claimedUpdate. cbv zeta. rewrite F. reflexivity.
  - intros c f p last H T. rewrite (G c f p last H T).
    unfold claimedUpdate. cbv zeta.
    destruct (JS.gt _ _); [right; reflexivity|left; reflexivity].
  - cbv zeta. split; [reflexivity|]. split; [vm_compute; reflexivity|].
    split; [vm_compute; reflexivity|]. split; [exact Sc|].
    split; [reflexivity|exact C].
  - intros H. specialize (H _ _ _ _ Sc eq_refl).
    change (App.now (frameAt black (T0 + 216))) with (T0 + 216) in H.
    destruct C as [C1 C2]. rewrite C1, C2 in H.
    apply (f_equal (fun x => Leibniz.eqb x 0.20050000000000001%float)) in H.
    vm_compute in H. discriminate H.
Qed.

Lemma stale_closure_pins_threshold_witness :
  App.sensitivity (fst (App.analyze watching (frameAt black (T0 + 200)) warm))
  = claimedUpdate (App.sensitivity warm)
      (App.prune (T0 + 200) (App.recentActivationsRef warm)).
Proof.
  apply (proj1 stale_closure_pins_threshold watching
           (frameAt black (T0 + 200)) warm (App.mkImage 160 1 black)).
  - repeat split; vm_compute; congruence.
  - reflexivity.
  - vm_compute. reflexivity.
Defined.

(** ** The overlay box *)

(** C9 (counterexample): the smoothed box stands at x = 0 and the block of
    maximal saliency of the next frame is observed at x = 32; alpha x delta
    is 11.2, but [Math.round] puts the box at x = 11. *)
Lemma box_moves_by_rounded_step :
  App.boxEmaRef tracking = Some (Box.mk 0 0 32 32)
  /\ App.observedBox 640 4 1 (scanOf (frameAt spot (T0 + 160)) (App.mkImage 160 1 white))
     = Box.mk 32 0 32 32
  /\ App.activeRef (fst (App.analyze watching (frameAt spot (T0 + 160)) tracking))
     = true
  /\ App.boxEmaRef (fst (App.analyze watching (frameAt spot (T0 + 160)) tracking))
     = Some (Box.mk 11 0 32 32)
  /\ movedByAlphaDelta 0 32 = 11.199999999999999%float
  /\ ~ box_moves_by_alpha_delta.
Proof.
  split; [vm_compute; reflexivity|].
  split; [vm_compute; reflexivity|].
  split; [vm_compute; reflexivity|].
  split; [vm_compute; reflexivity|].
  split; [vm_compute; reflexivity|].
  intros H.
  specialize (H watching (frameAt spot (T0 + 160)) tracking
                (App.mkImage 160 1 white) 640 4 (Box.mk 0 0 32 32)
                (Box.mk 11 0 32 32)).
  assert (E : (11 = 11.199999999999999)%float).
  { etransitivity; [apply H|]; try (vm_compute; reflexivity).
    repeat split; vm_compute; congruence. }
  vm_compute in E. discriminate E.
Qed.

Lemma drawOverlay_box (ov : option (Z * Z)) (h : Z) (isActive : bool)
    (s : App.Scan) (prev : option Box.t) :
  fst (App.drawOverlay ov h isActive s prev)
  = match ov with
    | Some (ovw, ovh) =>
        if isActive && JS.gt (App.maxBlockSum s) 0
        then Some (App.smoothBox prev (App.observedBox ovw ovh h s))
        else prev
    | None => prev
    end.
Proof.
  unfold App.drawOverlay. destruct ov as [[ovw ovh]|]; [|reflexivity].
  destruct (isActive && JS.gt (App.maxBlockSum s) 0); reflexivity.
Qed.

(** C9 (amended): while the machine is active, the first max-saliency box
    observed seeds the smoothed box directly, and every later observation
    sets each of x, y, w, h to
    [Math.round(0.35 * observed + 0.65 * previous)], that is, it moves the
    box by alpha x delta rounded to an integer; a frame that leaves the
    machine inactive does not update the box. *)
Theorem box_smoothing :
  (forall (c : App.Closure) (f : App.Frame) (p : App.Player),
      App.activeRef (fst (App.analyze c f p)) = false ->
      App.boxEmaRef (fst (App.analyze c f p)) = App.boxEmaRef p)
  /\ (forall (c : App.Closure) (f : App.Frame) (p : App.Player)
             (last : App.ImageData) (ovw ovh : Z),
        scoring c f p last ->
        App.overlay f = Some (ovw, ovh) ->
        App.activeRef (fst (App.analyze c f p)) = true ->
        JS.gt (App.maxBlockSum (scanOf f last)) 0 = true ->
        let r := App.observedBox ovw ovh
                   (App.canvasHeight (App.videoWidth f) (App.videoHeight f))
                   (scanOf f last) in
        App.boxEmaRef (fst (App.analyze c f p))
        = match App.boxEmaRef p with
          | None => Some r
          | Some b =>
              Some (Box.mk
                (JS.round (0.35 * Box.x r + (1 - 0.35) * Box.x b)%float)
                (JS.round (0.35 * Box.y r + (1 - 0.35) * Box.y b)%float)
                (JS.round (0.35 * Box.w r + (1 - 0.35) * Box.w b)%float)
                (JS.round (0.35 * Box.h r + (1 - 0.35) * Box.h b)%float))
          end).
Proof.
  split.
  - intros c f p Hact.
    destruct (analyze_cases c f p) as [E|[[curr [w E]]|[last S]]].
    + rewrite E. reflexivity.
    + rewrite E. reflexivity.
    + destruct (analyze_scoring c f p last S) as [Ea [_ [Eb _]]].
      rewrite Eb, drawOverlay_box.
      change (App.activeRef (fst (App.analyze c f p)))
        with (App.active (App.activation (fst (App.analyze c f p)))) in Hact.
      rewrite Ea in Hact. rewrite Hact.
      destruct (App.overlay f) as [[ovw ovh]|]; reflexivity.
  - intros c f p last ovw ovh S Ho Hact Hm.
    destruct (analyze_scoring c f p last S) as [Ea [_ [Eb _]]].
    cbv zeta. rewrite Eb, drawOverlay_box, Ho.
    change (App.activeRef (fst (App.analyze c f p)))
      with (App.active (App.activation (fst (App.analyze c f p)))) in Hact.
    rewrite Ea in Hact. rewrite Hact, Hm. cbn [andb].
    destruct (App.boxEmaRef p) as [b|]; reflexivity.
Qed.

Lemma box_smoothing_witness :
  App.boxEmaRef (fst (App.analyze watching (frameAt spot (T0 + 160)) tracking))
  = Some (Box.mk 11 0 32 32).
Proof.
  assert (S : scoring watching (frameAt spot (T0 + 160)) tracking
                      (App.mkImage 160 1 white))
    by (repeat split; vm_compute; congruence).
  rewrite (proj2 box_smoothing watching (frameAt spot (T0 + 160)) tracking
             (App.mkImage 160 1 white) 640 4 S);
    vm_compute; reflexivity.
Defined.

(** ** Detection events *)

Lemma detections_app (l1 l2 : list App.Event) :
  detections (l1 ++ l2) = detections l1 ++ detections l2.
Proof. apply flat_map_app. Qed.

Lemma detections_drawn (ov : option (Z * Z)) (h : Z) (isActive : bool)
    (s : App.Scan) (prev : option Box.t) :
  detections (snd (App.drawOverlay ov h isActive s prev)) = [].
Proof.
  unfold App.drawOverlay. destruct ov as [[ovw ovh]|]; [|reflexivity].
  destruct (isActive && JS.gt (App.maxBlockSum s) 0); reflexivity.
Qed.

(** The detections of an animation frame. *)
Lemma analyze_detections (c : App.Closure) (f : App.Frame) (p : App.Player) :
  (detections (snd (App.analyze c f p)) = []
   /\ App.lastFireRef (fst (App.analyze c f p)) = App.lastFireRef p)
  \/ (exists last,
        scoring c f p last
        /\ App.frameFires c (App.active (stabilized c f p last))
             (smoothed f p last) (App.now f) (App.lastFireRef p) = true
        /\ detections (snd (App.analyze c f p))
           = [(smoothed f p last, App.now f)]
        /\ App.lastFireRef (fst (App.analyze c f p)) = App.now f).
Proof.
  destruct (analyze_cases c f p) as [E|[[curr [w E]]|[last S]]].
  - left. rewrite E. split; reflexivity.
  - left. rewrite E. split; reflexivity.
  - destruct (analyze_scoring c f p last S) as [_ [_ [_ [_ [_ [El Ev]]]]]].
    rewrite Ev, El, !detections_app, detections_drawn.
    destruct (App.frameFires c _ _ _ _) eqn:F.
    + right. exists last. split; [exact S|].
      split; [exact F|]. split; reflexivity.
    + left. split; reflexivity.
Qed.

(** The detections of an [onScore] call. *)
Lemma onScore_detections (c : App.Closure) (r : App.Reads) (s : float)
    (p : App.Player) :
  (detections (snd (App.onScore c r s p)) = []
   /\ App.lastFireRef (fst (App.onScore c r s p)) = App.lastFireRef p)
  \/ (6 <= App.warmupRef p
      /\ App.embeddingFires c (App.average (App.pushScore (App.scoreBufRef p) s))
           (App.atGuard r) (App.lastFireRef p) = true
      /\ detections (snd (App.onScore c r s p))
         = [(App.average (App.pushScore (App.scoreBufRef p) s), App.atEvent r)]
      /\ App.lastFireRef (fst (App.onScore c r s p)) = App.atStore r).
Proof.
  destruct (Z.lt_ge_cases (App.warmupRef p) 6) as [W|W].
  - left. destruct (onScore_warmup c r s p W) as [_ [_ [El Ev]]].
    rewrite Ev, El. split; reflexivity.
  - destruct (onScore_warm c r s p W) as [_ [El Ev]]. rewrite Ev, El.
    destruct (App.embeddingFires c _ _ _) eqn:F.
    + right. split; [exact W|].
      split; [reflexivity|]. split; reflexivity.
    + left. split; reflexivity.
Qed.



(** ** The alert cooldown *)

(** C1 (counterexample): after the warm-up and two flashing frames the
    embedding callback publishes a detection at [T0 + 140]; the flashing
    frame at [T0 + 144] activates the machine with smoothed score 0.975 and
    the frame-difference path has not published anything yet, but the frame
    is suppressed because [lastFireRef] holds the embedding path's time.
    Without the embedding detection the same frame publishes. *)
Lemma embedding_detection_suppresses_frame_detection :
  detections (snd (App.onScore watching
                     (App.mkReads (T0 + 140) (T0 + 140) (T0 + 140)) 0.9%float
                     primed))
    = [(0.96666666666666667%float, T0 + 140)]
  /\ frameDetections
       (snd (App.run (play (repeat black 7 ++ [white; black])
                      ++ [App.Score watching
                            (App.mkReads (T0 + 140) (T0 + 140) (T0 + 140))
                            0.9%float]) started)) = []
  /\ snd (App.analyze watching (frameAt white (T0 + 144))
            (fst (App.onScore watching
                    (App.mkReads (T0 + 140) (T0 + 140) (T0 + 140)) 0.9%float
                    primed)))
     = [App.WindowThreshold 0.2; App.AiThreshold 0.2;
        App.AiScore 0.97499999999999998 (T0 + 144) 0.2; App.ClearRect;
        App.StrokeRect (Box.mk 0 0 32 32); App.AiActive true (T0 + 144)]
  /\ detections (snd (App.analyze watching (frameAt white (T0 + 144)) primed))
     = [(1%float, T0 + 144)]
  /\ ~ cooldown_is_per_source.
Proof.
  split; [vm_compute; reflexivity|].
  split; [vm_compute; reflexivity|].
  split; [vm_compute; reflexivity|].
  split; [vm_compute; reflexivity|].
  intros H.
  specialize (H (play (repeat black 7 ++ [white; black])
                 ++ [App.Score watching
                       (App.mkReads (T0 + 140) (T0 + 140) (T0 + 140)) 0.9%float])
                watching (frameAt white (T0 + 144)) 0.97499999999999998%float).
  assert (E : false = true).
  { etransitivity; [|apply H].
    - vm_compute. reflexivity.
    - unfold play. cbn [repeat app length seq combine map].
      repeat constructor. cbn. lia.
    - reflexivity.
    - reflexivity.
    - vm_compute. reflexivity.
    - vm_compute. reflexivity.
    - vm_compute. reflexivity.
    - intros t Ht. vm_compute in Ht. destruct Ht. }
  discriminate E.
Qed.

Lemma fired_detections (es : list App.Event) :
  fired es = true <-> detections es <> [].
Proof.
  unfold fired. destruct (detections es); cbn; split; congruence.
Qed.

(** An input that publishes a detection found [lastFireRef] older than its
    cooldown and overwrites it; any other steady input leaves it alone. *)
Lemma handle_fire (i : App.Input) (p : App.Player) :
  steady i ->
  (fired (snd (App.handle i p)) = true ->
     cooldown i < checked i - App.lastFireRef p
     /\ App.lastFireRef (fst (App.handle i p)) = stored i)
  /\ (fired (snd (App.handle i p)) = false ->
        App.lastFireRef (fst (App.handle i p)) = App.lastFireRef p).
Proof.
  destruct i as [c f|c r s|rd t1 t2]; cbn [steady App.handle]; intros St.
  - destruct (analyze_detections c f p) as [[E L]|[last [S [F [E L]]]]];
      unfold fired; rewrite E; cbn; split; intros H; try discriminate.
    + exact L.
    + split; [|exact L]. unfold App.frameFires in F.
      apply andb_prop in F. destruct F as [_ F]. apply Z.ltb_lt in F. exact F.
  - destruct (onScore_detections c r s p) as [[E L]|[W [F [E L]]]];
      unfold fired; rewrite E; cbn; split; intros H; try discriminate.
    + exact L.
    + split; [|exact L]. unfold App.embeddingFires in F.
      apply andb_prop in F. destruct F as [_ F]. apply Z.ltb_lt in F. exact F.
  - destruct St.
Qed.

Lemma handle_lastFire_mono (i : App.Input) (p : App.Player) :
  steady i -> App.lastFireRef p <= App.lastFireRef (fst (App.handle i p)).
Proof.
  intros St. destruct (handle_fire i p St) as [H1 H2].
  destruct (fired (snd (App.handle i p))).
  - destruct (H1 eq_refl) as [C L]. rewrite L.
    destruct i as [c f|c r s|rd t1 t2]; cbn in *; lia.
  - rewrite (H2 eq_refl). lia.
Qed.

Lemma run_cons (i : App.Input) (ins : list App.Input) (p : App.Player) :
  fst (App.run (i :: ins) p) = fst (App.run ins (fst (App.handle i p))).
Proof.
  cbn [App.run]. destruct (App.handle i p) as [p1 es]. cbn [fst].
  destruct (App.run ins p1) as [p2 log]. reflexivity.
Qed.

Lemma run_lastFire_mono (ins : list App.Input) :
  Forall steady ins ->
  forall p : App.Player,
    App.lastFireRef p <= App.lastFireRef (fst (App.run ins p)).
Proof.
  induction 1 as [|i ins Hi _ IH]; intros p.
  - cbn. lia.
  - rewrite run_cons.
    pose proof (handle_lastFire_mono i p Hi). specialize (IH (fst (App.handle i p))).
    lia.
Qed.

(** C1 (amended): the rate limit goes through the single cell
    [lastFireRef], shared by both paths and cleared by a reset.  An input
    that publishes a detection found that cell more than its own cooldown
    in the past (5 s for a frame, 8 s for the embedding callback) and
    stores its own clock reading there (a).  Hence, as long as no reset
    intervenes, whenever an input publishes a detection after an earlier
    input of either path has published one, its clock reading is later than
    the reading stored by the earlier one by more than its own cooldown (b);
    in particular two detections of the frame-difference path carry
    timestamps more than 5 s apart (c). *)
Theorem shared_cooldown :
  (forall (i : App.Input) (p : App.Player),
      steady i ->
      fired (snd (App.handle i p)) = true ->
      cooldown i < checked i - App.lastFireRef p
      /\ App.lastFireRef (fst (App.handle i p)) = stored i)
  /\ (forall (p : App.Player) (i1 i2 : App.Input) (between : list App.Input),
        steady i1 -> Forall steady between -> steady i2 ->
        let p1 := fst (App.handle i1 p) in
        let p2 := fst (App.run between p1) in
        fired (snd (App.handle i1 p)) = true ->
        fired (snd (App.handle i2 p2)) = true ->
        cooldown i2 < checked i2 - stored i1)
  /\ (forall (p : App.Player) (c1 c2 : App.Closure) (f1 f2 : App.Frame)
             (between : list App.Input) (t1 t2 : Z),
        Forall steady between ->
        let p1 := fst (App.analyze c1 f1 p) in
        let p2 := fst (App.run between p1) in
        In t1 (map snd (detections (snd (App.analyze c1 f1 p)))) ->
        In t2 (map snd (detections (snd (App.analyze c2 f2 p2)))) ->
        5000 < t2 - t1).
Proof.
  assert (B : forall (p : App.Player) (i1 i2 : App.Input)
                     (between : list App.Input),
             steady i1 -> Forall steady between -> steady i2 ->
             fired (snd (App.handle i1 p)) = true ->
             fired (snd (App.handle i2
                      (fst (App.run between (fst (App.handle i1 p)))))) = true ->
             cooldown i2 < checked i2 - stored i1).
  { intros p i1 i2 between S1 Sb S2 F1 F2.
    destruct (proj1 (handle_fire i1 p S1) F1) as [_ L1].
    destruct (proj1 (handle_fire i2 _ S2) F2) as [C2 _].
    pose proof (run_lastFire_mono between Sb (fst (App.handle i1 p))) as M.
    lia. }
  split; [|split].
  - intros i p S F. exact (proj1 (handle_fire i p S) F).
  - intros p i1 i2 between S1 Sb S2. cbv zeta. apply B; assumption.
  - intros p c1 c2 f1 f2 between t1 t2 Sb. cbv zeta. intros H1 H2.
    assert (D : forall c f q t,
               In t (map snd (detections (snd (App.analyze c f q)))) ->
               t = App.now f /\ fired (snd (App.analyze c f q)) = true).
    { intros c f q t H.
      destruct (analyze_detections c f q) as [[E _]|[last [_ [_ [E _]]]]].
      - rewrite E in H. destruct H.
      - unfold fired. rewrite E in *. cbn in H. destruct H as [H|[]].
        split; [symmetry; exact H|reflexivity]. }
    destruct (D _ _ _ _ H1) as [-> F1]. destruct (D _ _ _ _ H2) as [-> F2].
    exact (B p (App.Tick c1 f1) (App.Tick c2 f2) between I Sb I F1 F2).
Qed.

Lemma shared_cooldown_witness :
  5000 < (T0 + 6000) - (T0 + 144).
Proof.
  apply (proj2 (proj2 shared_cooldown) primed watching watching
           (frameAt white (T0 + 144)) (frameAt black (T0 + 6000)) []
           (T0 + 144) (T0 + 6000)).
  - constructor.
  - vm_compute. left. reflexivity.
  - vm_compute. left. reflexivity.
Defined.

(** ** Reset *)

(** C7 (counterexample): a seek forward from 5 s to 10 s does not pass the
    guard [currentTime + 0.05 < prevTimeRef.current], so nothing is reset:
    the player stays active with its buffers.  The click handler of the
    Stop button does not call [resetForLoop] either (the seek to 0 that it
    starts is a seek back, which the guard lets through). *)
Lemma forward_seek_does_not_reset :
  (App.activeRef midway = true /\ App.sustainRef midway = 3
   /\ App.holdFramesRef midway = 8
   /\ App.scoreBufRef midway = [1; 1; 1]%float
   /\ App.prevTimeRef midway = 5%float)
  /\ App.onSeeking (Some 10%float) (None, 1) (T0 + 200) (T0 + 200) midway
     = (midway, [])
  /\ App.activeRef (fst (App.onStopClick true true midway)) = true
  /\ ~ reset_on_every_seek.
Proof.
  split; [repeat split; vm_compute; reflexivity|].
  split; [vm_compute; reflexivity|].
  split; [vm_compute; reflexivity|].
  intros H.
  destruct (H 10%float (None, 1) (T0 + 200) (T0 + 200) midway) as [A _].
  vm_compute in A. discriminate A.
Qed.

Lemma resetForLoop_cleared (rd : Ai.Read) (t1 t2 : Z) (p : App.Player) :
  cleared (fst (App.resetForLoop rd t1 t2 p)).
Proof.
  unfold App.resetForLoop. destruct (App.restart _ (App.detectorRef p)) as [d es].
  repeat split.
Qed.

(** C7 (amended): [resetForLoop] immediately forces [active = false],
    [sustain = 0], [hold = 0] and clears the score buffer, the
    recent-activation window, the recent-score window, the box EMA and the
    warm-up counter (and the last-fire time), whatever the prior state, and
    announces ['ai-active'] false.  It runs on play, on a time update whose
    position jumped back by more than 0.1 s (the loop) and on a seek to more
    than 0.05 s before the last recorded position. *)
Theorem reset_forces_initial_state :
  (forall (rd : Ai.Read) (t1 t2 : Z) (p : App.Player),
      cleared (fst (App.resetForLoop rd t1 t2 p))
      /\ App.lastFireRef (fst (App.resetForLoop rd t1 t2 p)) = 0
      /\ In (App.AiActive false t2) (snd (App.resetForLoop rd t1 t2 p)))
  /\ (forall (cb : bool) (currentTime : option float) (rd : Ai.Read)
             (t1 t2 : Z)
             (p : App.Player),
        cleared (fst (App.onPlay cb currentTime rd t1 t2 p)))
  /\ (forall (t : float) (rd : Ai.Read) (t1 t2 : Z) (p : App.Player),
        JS.lt (t + 0.1)%float (App.prevTimeRef p) = true ->
        cleared (fst (App.onTimeUpdate (Some t) rd t1 t2 p)))
  /\ (forall (t : float) (rd : Ai.Read) (t1 t2 : Z) (p : App.Player),
        JS.lt (t + 0.05)%float (App.prevTimeRef p) = true ->
        cleared (fst (App.onSeeking (Some t) rd t1 t2 p))).
Proof.
  split; [|split; [|split]].
  - intros rd t1 t2 p. split; [apply resetForLoop_cleared|].
    unfold App.resetForLoop.
    destruct (App.restart _ (App.detectorRef p)) as [d es].
    split; [reflexivity|left; reflexivity].
  - intros cb ct rd t1 t2 p. unfold App.onPlay.
    pose proof (resetForLoop_cleared rd t1 t2 p) as C.
    destruct (App.resetForLoop rd t1 t2 p) as [p1 es]. exact C.
  - intros t rd t1 t2 p H. unfold App.onTimeUpdate. rewrite H.
    pose proof (resetForLoop_cleared rd t1 t2 p) as C.
    destruct (App.resetForLoop rd t1 t2 p) as [p1 es]. exact C.
  - intros t rd t1 t2 p H. unfold App.onSeeking. rewrite H.
    pose proof (resetForLoop_cleared rd t1 t2 p) as C.
    destruct (App.resetForLoop rd t1 t2 p) as [p1 es]. exact C.
Qed.

Lemma reset_forces_initial_state_witness :
  JS.lt (1 + 0.05)%float (App.prevTimeRef midway) = true
  /\ cleared (fst (App.onSeeking (Some 1%float) (None, 1) (T0 + 200) (T0 + 200)
                                 midway)).
Proof.
  split; [reflexivity|].
  apply (proj2 (proj2 (proj2 reset_forces_initial_state))
           1%float (None, 1) (T0 + 200) (T0 + 200) midway).
  reflexivity.
Defined.

(** * Further properties of the code *)

(** ** The activation counters *)

Lemma stabilize_bounded (s v : float) (a : App.Activation) :
  bounded a -> bounded (App.stabilize s v a).
Proof.
  unfold bounded, App.stabilize.
  destruct a as [su ac ho]; cbn [App.sustain App.active App.holdFrames].
  intros [Hs [Hh Hi]].
  destruct (JS.gt v (App.entryThr s)); [|destruct (JS.lt v (App.exitThr s))];
    (destruct ac; cbn [negb andb];
     repeat match goal with
            | |- context [if ?b then _ else _] => destruct b eqn:?
            end;
     cbn [App.sustain App.active App.holdFrames];
     repeat match goal with
            | H : (_ <=? _) = true |- _ => apply Z.leb_le in H
            | H : (_ <=? _) = false |- _ => apply Z.leb_gt in H
            | H : (_ <? _) = true |- _ => apply Z.ltb_lt in H
            | H : (_ <? _) = false |- _ => apply Z.ltb_ge in H
            | H : (_ =? _) = true |- _ => apply Z.eqb_eq in H
            | H : (_ =? _) = false |- _ => apply Z.eqb_neq in H
            end;
     (split; [lia | split; [lia | intros Hact; try discriminate;
                                  try (specialize (Hi eq_refl)); lia]])).
Qed.

Lemma onScore_activation (c : App.Closure) (r : App.Reads) (s : float)
    (p : App.Player) :
  App.activation (fst (App.onScore c r s p)) = App.activation p.
Proof. unfold App.onScore. destruct (App.warmupRef p <? 6); reflexivity. Qed.

Lemma resetForLoop_activation (rd : Ai.Read) (t1 t2 : Z) (p : App.Player) :
  App.activation (fst (App.resetForLoop rd t1 t2 p)) = initial.
Proof.
  unfold App.resetForLoop. destruct (App.restart _ (App.detectorRef p)).
  reflexivity.
Qed.

Lemma analyze_activation_cases (c : App.Closure) (f : App.Frame)
    (p : App.Player) :
  App.activation (fst (App.analyze c f p)) = App.activation p
  \/ exists last, scoring c f p last
       /\ App.activation (fst (App.analyze c f p)) = stabilized c f p last.
Proof.
  destruct (analyze_cases c f p) as [E|[[curr [w E]]|[last S]]].
  - left. rewrite E. reflexivity.
  - left. rewrite E. reflexivity.
  - right. exists last. split; [exact S|].
    exact (proj1 (analyze_scoring c f p last S)).
Qed.

Lemma handle_bounded (i : App.Input) (p : App.Player) :
  bounded (App.activation p) ->
  bounded (App.activation (fst (App.handle i p))).
Proof.
  intros B. destruct i as [c f|c r s|rd t1 t2]; cbn [App.handle].
  - destruct (analyze_activation_cases c f p) as [E|[last [_ E]]]; rewrite E.
    + exact B.
    + apply stabilize_bounded, B.
  - rewrite onScore_activation. exact B.
  - rewrite resetForLoop_activation. unfold bounded, initial; cbn. lia.
Qed.

(** X1: whatever frames, embedding scores and resets arrive, the
    activation counters stay in range: sustain in 0..10, hold in 0..8, and
    the machine is never left inactive with sustain 3 or more. *)
Theorem activation_counters_stay_in_range :
  forall (ins : list App.Input) (p : App.Player),
    bounded (App.activation p) ->
    bounded (App.activation (fst (App.run ins p))).
Proof.
  induction ins as [|i ins IH]; intros p B; [exact B|].
  rewrite run_cons. apply IH, handle_bounded, B.
Qed.

Lemma activation_counters_stay_in_range_witness :
  bounded (App.activation tracking).
Proof.
  apply (activation_counters_stay_in_range
           (play (repeat black 7 ++ [white; black; white])) started).
  unfold bounded; cbn. lia.
Defined.

(** X2: the machine turns active only on a tick above the entry threshold,
    with sustain exactly 3, and reloads hold to 8; it turns inactive only on
    a tick that is not above entry, with sustain 0 and hold used up. *)
Theorem activation_edges :
  forall (s v : float) (a : App.Activation),
    bounded a ->
    (App.active a = false -> App.active (App.stabilize s v a) = true ->
       aboveEntry (s, v) = true
       /\ App.sustain (App.stabilize s v a) = 3
       /\ App.holdFrames (App.stabilize s v a) = 8)
    /\ (App.active a = true -> App.active (App.stabilize s v a) = false ->
          aboveEntry (s, v) = false
          /\ App.sustain (App.stabilize s v a) = 0
          /\ App.holdFrames a = 0
          /\ App.holdFrames (App.stabilize s v a) = 0).
Proof.
  unfold bounded, App.stabilize, aboveEntry; cbn [fst snd].
  intros s v [su ac ho]; cbn [App.sustain App.active App.holdFrames].
  intros [Hs [Hh Hi]].
  destruct (JS.gt v (App.entryThr s)); [|destruct (JS.lt v (App.exitThr s))];
    (destruct ac; cbn [negb andb];
     repeat match goal with
            | |- context [if ?b then _ else _] => destruct b eqn:?
            end;
     cbn [App.sustain App.active App.holdFrames];
     repeat match goal with
            | H : (_ <=? _) = true |- _ => apply Z.leb_le in H
            | H : (_ <=? _) = false |- _ => apply Z.leb_gt in H
            | H : (_ <? _) = true |- _ => apply Z.ltb_lt in H
            | H : (_ <? _) = false |- _ => apply Z.ltb_ge in H
            | H : (_ =? _) = true |- _ => apply Z.eqb_eq in H
            | H : (_ =? _) = false |- _ => apply Z.eqb_neq in H
            end;
     (split; intros H1 H2; try discriminate;
      try (specialize (Hi eq_refl));
      repeat split; try reflexivity; lia)).
Qed.

Lemma activation_edges_witness :
  aboveEntry (0.20, 0.25)%float = true
  /\ App.sustain (App.stabilize 0.20 0.25 (App.mkActivation 2 false 0)) = 3
  /\ App.holdFrames (App.stabilize 0.20 0.25 (App.mkActivation 2 false 0)) = 8.
Proof.
  apply (proj1 (activation_edges 0.20 0.25 (App.mkActivation 2 false 0)
                  ltac:(unfold bounded; cbn; lia)));
    reflexivity.
Defined.

(** ** Buffers, counters and windows of the player *)

(** More cells of a scoring frame. *)
Lemma analyze_scoring_cells (c : App.Closure) (f : App.Frame) (p : App.Player)
    (last : App.ImageData) :
  scoring c f p last ->
  let p' := fst (App.analyze c f p) in
  let avg := smoothed f p last in
  let recent := App.pushRecent (App.recentScoresRef p) (App.now f) avg in
  let fire := App.frameFires c (App.active (stabilized c f p last)) avg
                (App.now f) (App.lastFireRef p) in
  App.warmupRef p' = App.warmupRef p
  /\ App.recentScoresRef p' = recent
  /\ App.lastScore p'
     = (if negb (Nat.eqb (length recent) 0) then App.round3 avg
        else App.lastScore p)
  /\ App.avg1m p'
     = (if negb (Nat.eqb (length recent) 0) then App.round3 (App.averageOf recent)
        else App.avg1m p)
  /\ App.detectCount p'
     = (if fire then App.detectCount p + 1 else App.detectCount p)
  /\ App.prevActiveRef p' = App.active (stabilized c f p last)
  /\ App.lastFrame p' = Some (frameOf f).
Proof.
  intros H. rewrite (analyze_scores c f p last H).
  unfold App.scoreFrame, stabilized, smoothed.
  destruct (App.drawOverlay _ _ _ _ _) as [box drawn].
  cbn [fst App.warmupRef App.recentScoresRef App.lastScore App.avg1m
       App.detectCount App.prevActiveRef App.lastFrame].
  repeat split.
Qed.

Lemma pushScore_length (buf : list float) (s : float) :
  (length buf <= 8)%nat -> (length (App.pushScore buf s) <= 8)%nat.
Proof. intros H. exact (proj2 (pushScore_lastn buf s H)). Qed.

Lemma handle_scoreBuf (i : App.Input) (p : App.Player) :
  (length (App.scoreBufRef p) <= 8)%nat ->
  (length (App.scoreBufRef (fst (App.handle i p))) <= 8)%nat.
Proof.
  intros B. destruct i as [c f|c r s|rd t1 t2]; cbn [App.handle].
  - destruct (analyze_cases c f p) as [E|[[curr [w E]]|[last S]]].
    + rewrite E. exact B.
    + rewrite E. exact B.
    + destruct (analyze_scoring c f p last S) as [_ [E _]]. rewrite E.
      apply pushScore_length, B.
  - destruct (Z.lt_ge_cases (App.warmupRef p) 6) as [W|W].
    + destruct (onScore_warmup c r s p W) as [_ [E _]]. rewrite E. exact B.
    + destruct (onScore_warm c r s p W) as [E _]. rewrite E.
      apply pushScore_length, B.
  - unfold App.resetForLoop. destruct (App.restart _ (App.detectorRef p)).
    cbn. lia.
Qed.

(** X3: the score buffer never holds more than 8 scores, whatever frames,
    embedding scores and resets arrive. *)
Theorem score_buffer_never_exceeds_capacity :
  forall (ins : list App.Input) (p : App.Player),
    (length (App.scoreBufRef p) <= 8)%nat ->
    (length (App.scoreBufRef (fst (App.run ins p))) <= 8)%nat.
Proof.
  induction ins as [|i ins IH]; intros p B; [exact B|].
  rewrite run_cons. apply IH, handle_scoreBuf, B.
Qed.

Lemma score_buffer_never_exceeds_capacity_witness :
  (length (App.scoreBufRef tracking) <= 8)%nat.
Proof.
  apply (score_buffer_never_exceeds_capacity
           (play (repeat black 7 ++ [white; black; white])) started).
  cbn. lia.
Defined.

Lemma handle_warmup (i : App.Input) (p : App.Player) :
  0 <= App.warmupRef p <= 6 ->
  0 <= App.warmupRef (fst (App.handle i p)) <= 6.
Proof.
  intros B. destruct i as [c f|c r s|rd t1 t2]; cbn [App.handle].
  - unfold App.analyze.
    destruct (negb (App.videoPresent f) || negb (App.c_hasMedia c)
              || negb (App.c_analyzing c) || (App.readyState f <? 2));
      [exact B|].
    destruct (negb (App.context2d f)); [exact B|].
    destruct (App.lastFrame p) as [last|] eqn:L; [|exact B].
    destruct (Z.ltb_spec (App.warmupRef p) 6) as [W|W]; [cbn; lia|].
    unfold App.scoreFrame.
    destruct (App.drawOverlay _ _ _ _ _) as [box drawn]. exact B.
  - unfold App.onScore.
    destruct (Z.ltb_spec (App.warmupRef p) 6) as [W|W]; cbn; lia.
  - unfold App.resetForLoop. destruct (App.restart _ (App.detectorRef p)).
    cbn. lia.
Qed.

(** X4: while the warm-up counter is below 6, a frame or an embedding score
    is swallowed: nothing is published and the score buffer, the activation
    state, the last-fire time, the detection count and the sensitivity stay
    as they are; the counter itself never leaves 0..6. *)
Theorem warm_up_swallows_inputs :
  (forall (i : App.Input) (p : App.Player),
      steady i -> App.warmupRef p < 6 ->
      snd (App.handle i p) = []
      /\ App.scoreBufRef (fst (App.handle i p)) = App.scoreBufRef p
      /\ App.activation (fst (App.handle i p)) = App.activation p
      /\ App.lastFireRef (fst (App.handle i p)) = App.lastFireRef p
      /\ App.detectCount (fst (App.handle i p)) = App.detectCount p
      /\ App.sensitivity (fst (App.handle i p)) = App.sensitivity p)
  /\ (forall (ins : list App.Input) (p : App.Player),
        0 <= App.warmupRef p <= 6 ->
        0 <= App.warmupRef (fst (App.run ins p)) <= 6).
Proof.
  split.
  - intros [c f|c r s|rd t1 t2] p St W; cbn [App.handle]; [| |destruct St].
    + unfold App.analyze.
      destruct (negb (App.videoPresent f) || negb (App.c_hasMedia c)
                || negb (App.c_analyzing c) || (App.readyState f <? 2));
        [repeat split|].
      destruct (negb (App.context2d f)); [repeat split|].
      destruct (App.lastFrame p) as [last|]; [|repeat split].
      apply Z.ltb_lt in W. rewrite W. repeat split.
    + unfold App.onScore. apply Z.ltb_lt in W. rewrite W. repeat split.
  - induction ins as [|i ins IH]; intros p B; [exact B|].
    rewrite run_cons. apply IH, handle_warmup, B.
Qed.

Lemma warm_up_swallows_inputs_witness :
  snd (App.handle (App.Score watching (App.mkReads T0 T0 T0) 0.9%float) started)
  = [].
Proof.
  apply (proj1 warm_up_swallows_inputs
           (App.Score watching (App.mkReads T0 T0 T0) 0.9%float) started).
  - cbn. lia.
  - cbn. lia.
Defined.

Lemma recordEdge_length (pa a : bool) (now : Z) (acts : list Z) :
  (length acts <= 120)%nat ->
  (length (App.recordEdge pa a now acts) <= 120)%nat.
Proof.
  intros H. unfold App.recordEdge. destruct (negb pa && a); [|exact H].
  destruct (Z.ltb_spec 120 (Z.of_nat (length (acts ++ [now])))) as [L|L].
  - rewrite length_app in L. cbn [length] in L.
    destruct acts as [|x acts]; cbn in *; [lia|].
    rewrite length_app. cbn. lia.
  - lia.
Qed.

Lemma recordEdge_In (pa a : bool) (now : Z) (acts : list Z) (t : Z) :
  In t (App.recordEdge pa a now acts) -> In t acts \/ t = now.
Proof.
  unfold App.recordEdge. destruct (negb pa && a); [|auto].
  assert (I : In t (acts ++ [now]) -> In t acts \/ t = now).
  { intros H. apply in_app_or in H. destruct H as [H|[H|[]]]; auto. }
  destruct (120 <? Z.of_nat (length (acts ++ [now]))); [|exact I].
  intros H. apply I. destruct (acts ++ [now]); [destruct H|right; exact H].
Qed.

Lemma prune_length (now : Z) (acts : list Z) :
  (length (App.prune now acts) <= length acts)%nat.
Proof. unfold App.prune. apply filter_length_le. Qed.

Lemma handle_recentActivations (i : App.Input) (p : App.Player) :
  (length (App.recentActivationsRef p) <= 120)%nat ->
  (length (App.recentActivationsRef (fst (App.handle i p))) <= 120)%nat.
Proof.
  intros B. destruct i as [c f|c r s|rd t1 t2]; cbn [App.handle].
  - destruct (analyze_cases c f p) as [E|[[curr [w E]]|[last S]]].
    + rewrite E. exact B.
    + rewrite E. exact B.
    + destruct (analyze_scoring c f p last S) as [_ [_ [_ [_ [E _]]]]].
      rewrite E. apply recordEdge_length.
      destruct (App.c_autoTune c); [|exact B].
      pose proof (prune_length (App.now f) (App.recentActivationsRef p)). lia.
  - unfold App.onScore. destruct (App.warmupRef p <? 6); exact B.
  - unfold App.resetForLoop. destruct (App.restart _ (App.detectorRef p)).
    cbn. lia.
Qed.

(** X5: the window of activation edges never holds more than 120
    timestamps, and after a scoring frame in adaptive mode every timestamp
    in it is at most 10 s old. *)
Theorem rate_window_is_bounded :
  (forall (ins : list App.Input) (p : App.Player),
      (length (App.recentActivationsRef p) <= 120)%nat ->
      (length (App.recentActivationsRef (fst (App.run ins p))) <= 120)%nat)
  /\ (forall (c : App.Closure) (f : App.Frame) (p : App.Player)
             (last : App.ImageData) (t : Z),
        scoring c f p last -> App.c_autoTune c = true ->
        In t (App.recentActivationsRef (fst (App.analyze c f p))) ->
        App.now f - t <= 10000).
Proof.
  split.
  - induction ins as [|i ins IH]; intros p B; [exact B|].
    rewrite run_cons. apply IH, handle_recentActivations, B.
  - intros c f p last t S T H.
    destruct (analyze_scoring c f p last S) as [_ [_ [_ [_ [E _]]]]].
    rewrite E, T in H. apply recordEdge_In in H. destruct H as [H|H].
    + apply prune_spec in H. lia.
    + subst t. lia.
Qed.

Lemma rate_window_is_bounded_witness :
  (length (App.recentActivationsRef tracking) <= 120)%nat.
Proof.
  apply (proj1 rate_window_is_bounded
           (play (repeat black 7 ++ [white; black; white])) started).
  cbn. lia.
Defined.

Lemma shiftWhile_keeps_last {A : Type} (f : A -> bool) (l : list A) (x : A) :
  f x = false -> App.shiftWhile f (l ++ [x]) = App.shiftWhile f l ++ [x].
Proof.
  intros H. induction l as [|a l IH]; cbn.
  - rewrite H. reflexivity.
  - destruct (f a); [exact IH|reflexivity].
Qed.

Lemma shiftWhile_sorted (cutoff : Z) (rs : list App.Sample) :
  StronglySorted (fun a b => App.ts a <= App.ts b) rs ->
  StronglySorted (fun a b => App.ts a <= App.ts b)
                 (App.shiftWhile (fun s => App.ts s <? cutoff) rs)
  /\ Forall (fun s => cutoff <= App.ts s)
            (App.shiftWhile (fun s => App.ts s <? cutoff) rs)
  /\ incl (App.shiftWhile (fun s => App.ts s <? cutoff) rs) rs.
Proof.
  induction 1 as [|a l Hl IH Ha]; cbn.
  - repeat split; [constructor|constructor|apply incl_refl].
  - destruct (Z.ltb_spec (App.ts a) cutoff) as [L|L].
    + destruct IH as [I1 [I2 I3]]. repeat split; auto.
      apply incl_tl, I3.
    + repeat split.
      * constructor; assumption.
      * constructor; [exact L|].
        apply Forall_impl with (2 := Ha). intros b Hb. lia.
      * apply incl_refl.
Qed.

Lemma pushRecent_keeps_new (rs : list App.Sample) (now : Z) (avg : float) :
  App.pushRecent rs now avg
  = App.shiftWhile (fun s => App.ts s <? now - 60000) rs ++ [App.mkSample now avg].
Proof.
  unfold App.pushRecent. apply shiftWhile_keeps_last.
  cbn. apply Z.ltb_ge. lia.
Qed.

(** X6: the sample of the current frame is never dropped from the 60 s
    window, so every scoring frame refreshes the "last score" and
    "average" read-outs; when the window is in time order and [now] is not
    earlier than its samples, it stays so and afterwards only holds samples
    of the last 60 s. *)
Theorem hud_window_keeps_last_minute :
  forall (c : App.Closure) (f : App.Frame) (p : App.Player)
         (last : App.ImageData),
    scoring c f p last ->
    let p' := fst (App.analyze c f p) in
    (exists older,
        App.recentScoresRef p'
        = older ++ [App.mkSample (App.now f) (smoothed f p last)])
    /\ App.lastScore p' = App.round3 (smoothed f p last)
    /\ App.avg1m p' = App.round3 (App.averageOf (App.recentScoresRef p'))
    /\ (inOrder (App.recentScoresRef p) (App.now f) ->
        inOrder (App.recentScoresRef p') (App.now f)
        /\ Forall (fun s => App.now f - 60000 <= App.ts s)
                  (App.recentScoresRef p')).
Proof.
  intros c f p last S.
  destruct (analyze_scoring_cells c f p last S) as [_ [Er [El [Ea _]]]].
  cbv zeta. rewrite El, Ea, Er, pushRecent_keeps_new.
  set (kept := App.shiftWhile (fun s => App.ts s <? App.now f - 60000)
                              (App.recentScoresRef p)).
  assert (N : negb (Nat.eqb (length (kept ++ [App.mkSample (App.now f)
                                                (smoothed f p last)])) 0) = true).
  { rewrite length_app. cbn [length]. rewrite Nat.add_comm. reflexivity. }
  rewrite N. split; [exists kept; reflexivity|].
  split; [reflexivity|]. split; [reflexivity|].
  intros [Hs Hn].
  destruct (shiftWhile_sorted (App.now f - 60000) _ Hs) as [K1 [K2 K3]].
  fold kept in K1, K2, K3.
  assert (Kn : Forall (fun s => App.ts s <= App.now f) kept).
  { apply Forall_forall. intros s Hin.
    exact (proj1 (Forall_forall _ _) Hn s (K3 s Hin)). }
  split; [split|].
  - clear K2 K3 N. clearbody kept. revert Kn.
    induction K1 as [|a l Hl IH Ha]; intros Kn; cbn.
    + constructor; constructor.
    + inversion Kn as [|? ? Hna Hnl]; subst.
      constructor; [apply IH, Hnl|].
      apply Forall_app. split; [exact Ha|].
      constructor; [exact Hna|constructor].
  - apply Forall_app. split; [exact Kn|].
    constructor; [cbn; lia|constructor].
  - apply Forall_app. split; [exact K2|].
    constructor; [cbn; lia|constructor].
Qed.

Lemma hud_window_keeps_last_minute_witness :
  App.lastScore (fst (App.analyze watching (frameAt black (T0 + 200)) warm))
  = App.round3 (smoothed (frameAt black (T0 + 200)) warm (App.mkImage 160 1 black)).
Proof.
  apply (hud_window_keeps_last_minute watching (frameAt black (T0 + 200)) warm
           (App.mkImage 160 1 black)).
  repeat split; vm_compute; congruence.
Defined.

(** ** Alerts *)

Lemma alerts_app (l1 l2 : list App.Event) :
  alerts (l1 ++ l2) = alerts l1 ++ alerts l2.
Proof. apply flat_map_app. Qed.

Lemma alerts_drawn (ov : option (Z * Z)) (h : Z) (isActive : bool)
    (s : App.Scan) (prev : option Box.t) :
  alerts (snd (App.drawOverlay ov h isActive s prev)) = [].
Proof.
  unfold App.drawOverlay. destruct ov as [[ovw ovh]|]; [|reflexivity].
  destruct (isActive && JS.gt (App.maxBlockSum s) 0); reflexivity.
Qed.

(** What a frame or an embedding score does to the alert side of the
    player, by whether its guard [fire] holds. *)
Lemma handle_alert_cases (i : App.Input) (p : App.Player) :
  match i with
  | App.Reset _ _ _ => True
  | _ =>
    (detections (snd (App.handle i p)) = []
     /\ alerts (snd (App.handle i p)) = []
     /\ App.detectCount (fst (App.handle i p)) = App.detectCount p
     /\ App.lastFireRef (fst (App.handle i p)) = App.lastFireRef p)
    \/ (exists (s : float) (t : Z),
          detections (snd (App.handle i p)) = [(s, t)]
          /\ alerts (snd (App.handle i p)) = [s]
          /\ App.detectCount (fst (App.handle i p)) = App.detectCount p + 1
          /\ ~ muted i)
  end.
Proof.
  destruct i as [c f|c r s|rd t1 t2]; cbn [App.handle muted]; [| |exact I].
  - destruct (analyze_cases c f p) as [E|[[curr [w E]]|[last S]]].
    + left. rewrite E. repeat split.
    + left. rewrite E. repeat split.
    + destruct (analyze_scoring c f p last S) as [_ [_ [_ [_ [_ [El Ev]]]]]].
      destruct (analyze_scoring_cells c f p last S) as [_ [_ [_ [_ [Ed _]]]]].
      rewrite Ev, El, Ed, !detections_app, !alerts_app, detections_drawn,
        alerts_drawn.
      destruct (App.frameFires c _ _ _ _) eqn:F.
      * right. exists (smoothed f p last), (App.now f).
        repeat split. unfold App.frameFires in F.
        destruct (App.c_alertsEnabled c), (App.c_onIrregularity c);
          try discriminate F. intros [H|H]; discriminate H.
      * left. repeat split.
  - unfold App.onScore. destruct (App.warmupRef p <? 6); [left; repeat split|].
    cbv zeta. destruct (App.embeddingFires c _ _ _) eqn:F.
    + right. exists (App.average (App.pushScore (App.scoreBufRef p) s)),
        (App.atEvent r).
      repeat split. unfold App.embeddingFires in F.
      destruct (App.c_alertsEnabled c), (App.c_onIrregularity c);
        try discriminate F. intros [H|H]; discriminate H.
    + left. repeat split.
Qed.

(** X7: a handler that closed over disabled alerts, or that was given no
    alert callback, never publishes a detection, never calls the callback,
    and leaves the detection count and the cooldown clock untouched. *)
Theorem muted_player_never_alerts :
  forall (i : App.Input) (p : App.Player),
    muted i ->
    detections (snd (App.handle i p)) = []
    /\ alerts (snd (App.handle i p)) = []
    /\ App.detectCount (fst (App.handle i p)) = App.detectCount p
    /\ App.lastFireRef (fst (App.handle i p)) = App.lastFireRef p.
Proof.
  intros i p M. pose proof (handle_alert_cases i p) as H.
  destruct i as [c f|c r s|rd t1 t2]; [| |destruct M].
  - destruct H as [H|[s [t [_ [_ [_ N]]]]]]; [exact H|contradiction].
  - destruct H as [H|[s' [t [_ [_ [_ N]]]]]]; [exact H|contradiction].
Qed.

Lemma muted_player_never_alerts_witness :
  detections
    (snd (App.handle
            (App.Tick (App.mkClosure true true false true 0.2 true)
                      (frameAt white (T0 + 160)))
            primed)) = [].
Proof.
  apply (muted_player_never_alerts
           (App.Tick (App.mkClosure true true false true 0.2 true)
                     (frameAt white (T0 + 160)))
           primed).
  left. reflexivity.
Defined.

(** X8: one input publishes at most one detection; each detection comes
    with exactly one call of the alert callback, carrying the same smoothed
    score, and adds one to the detection count, which otherwise only a
    reset changes (to zero). *)
Theorem every_detection_alerts_once :
  forall (i : App.Input) (p : App.Player),
    let es := snd (App.handle i p) in
    (length (detections es) <= 1)%nat
    /\ alerts es = map fst (detections es)
    /\ App.detectCount (fst (App.handle i p))
       = match i with
         | App.Reset _ _ _ => 0
         | _ => App.detectCount p + Z.of_nat (length (detections es))
         end.
Proof.
  intros i p. cbv zeta. pose proof (handle_alert_cases i p) as H.
  destruct i as [c f|c r s|rd t1 t2].
  - destruct H as [[D [A [C _]]]|[s [t [D [A [C _]]]]]]; rewrite D, A, C;
      cbn; repeat split; lia.
  - destruct H as [[D [A [C _]]]|[s' [t [D [A [C _]]]]]]; rewrite D, A, C;
      cbn; repeat split; lia.
  - cbn [App.handle]. unfold App.resetForLoop.
    destruct (App.restart _ (App.detectorRef p)) as [d es] eqn:R.
    cbn [fst snd App.detectCount].
    assert (D : detections es = [] /\ alerts es = []).
    { unfold App.restart in R. destruct (App.detectorRef p) as [d0|].
      - destruct (Ai.stop d0) as [d1 e1]. destruct (Ai.start _ d1) as [d2 e2].
        inversion R; subst. clear R.
        induction (e1 ++ e2) as [|e l IH]; [split; reflexivity|exact IH].
      - inversion R; subst. split; reflexivity. }
    destruct D as [D A].
    change (App.AiActive false t2 :: es) with ([App.AiActive false t2] ++ es).
    rewrite detections_app, alerts_app, D, A. cbn. repeat split; lia.
Qed.

(** ** Scores that are not numbers *)

Module NaN.

Lemma add_l (a b : float) : is_nan a = true -> is_nan (a + b)%float = true.
Proof.
  intros H. apply FloatFacts.Prim2SF_nan in H. apply FloatFacts.Prim2SF_nan.
  rewrite add_spec, H. reflexivity.
Qed.

Lemma add_r (a b : float) : is_nan b = true -> is_nan (a + b)%float = true.
Proof.
  intros H. apply FloatFacts.Prim2SF_nan in H. apply FloatFacts.Prim2SF_nan.
  rewrite add_spec, H. destruct (Prim2SF a); reflexivity.
Qed.

Lemma sub_r (a b : float) : is_nan b = true -> is_nan (a - b)%float = true.
Proof.
  intros H. apply FloatFacts.Prim2SF_nan in H. apply FloatFacts.Prim2SF_nan.
  rewrite sub_spec, H. destruct (Prim2SF a); reflexivity.
Qed.

Lemma mul_r (a b : float) : is_nan b = true -> is_nan (a * b)%float = true.
Proof.
  intros H. apply FloatFacts.Prim2SF_nan in H. apply FloatFacts.Prim2SF_nan.
  rewrite mul_spec, H. destruct (Prim2SF a); reflexivity.
Qed.

Lemma div_l (a b : float) : is_nan a = true -> is_nan (a / b)%float = true.
Proof.
  intros H. apply FloatFacts.Prim2SF_nan in H. apply FloatFacts.Prim2SF_nan.
  rewrite div_spec, H. reflexivity.
Qed.

Lemma gt_l (a b : float) : is_nan a = true -> JS.gt a b = false.
Proof.
  intros H. apply FloatFacts.Prim2SF_nan in H. unfold JS.gt.
  rewrite ltb_spec, H. unfold SFltb. destruct (Prim2SF b); reflexivity.
Qed.

Lemma lt_l (a b : float) : is_nan a = true -> JS.lt a b = false.
Proof.
  intros H. apply FloatFacts.Prim2SF_nan in H. unfold JS.lt.
  rewrite ltb_spec, H. reflexivity.
Qed.

Lemma fold_add (l : list float) (a : float) :
  is_nan a = true -> is_nan (fold_left (fun x y => (x + y)%float) l a) = true.
Proof.
  revert a. induction l as [|b l IH]; intros a H; [exact H|].
  cbn. apply IH, add_l, H.
Qed.

Lemma sum_poisoned (n : nat) (buf : list float) :
  poisoned n buf -> is_nan (JS.sum buf) = true.
Proof.
  intros [pre [x [post [E [N _]]]]]. subst buf. unfold JS.sum.
  rewrite fold_left_app. cbn [fold_left]. apply fold_add, add_r, N.
Qed.

Lemma average_poisoned (n : nat) (buf : list float) :
  poisoned n buf -> is_nan (App.average buf) = true.
Proof.
  intros H. unfold App.average. apply div_l, (sum_poisoned n), H.
Qed.

End NaN.

Lemma poisoned_mono (n m : nat) (buf : list float) :
  (n <= m)%nat -> poisoned n buf -> poisoned m buf.
Proof.
  intros L [pre [x [post [E [N B]]]]]. exists pre, x, post.
  repeat split; [exact E|exact N|lia].
Qed.

Lemma pushScore_poisoned (n : nat) (buf : list float) (s : float) :
  (n < 7)%nat -> poisoned n buf -> poisoned (S n) (App.pushScore buf s).
Proof.
  intros L [pre [x [post [E [N B]]]]]. subst buf. unfold App.pushScore.
  rewrite <- app_assoc. cbn [app].
  destruct (Z.ltb_spec 8 (Z.of_nat (length (pre ++ x :: post ++ [s]))))
    as [G|G].
  - destruct pre as [|y pre].
    + cbn [app length] in G. rewrite length_app in G. cbn [length] in G. lia.
    + cbn [app tl]. exists pre, x, (post ++ [s]).
      repeat split; [exact N|]. rewrite length_app. cbn. lia.
  - exists pre, x, (post ++ [s]).
    repeat split; [exact N|]. rewrite length_app. cbn. lia.
Qed.

Lemma pushScore_nan (buf : list float) (s : float) :
  is_nan s = true -> poisoned 0 (App.pushScore buf s).
Proof.
  intros N. unfold App.pushScore.
  destruct (Z.ltb_spec 8 (Z.of_nat (length (buf ++ [s])))) as [G|G].
  - destruct buf as [|y buf]; cbn [app tl]; [cbn in G; lia|].
    exists buf, s, []. repeat split; [exact N|cbn; lia].
  - exists buf, s, []. repeat split; [exact N|cbn; lia].
Qed.

Lemma frameFires_nan (c : App.Closure) (a : bool) (avg : float) (now lf : Z) :
  is_nan avg = true -> App.frameFires c a avg now lf = false.
Proof.
  intros N. unfold App.frameFires. rewrite (NaN.gt_l _ _ N).
  rewrite andb_false_r. reflexivity.
Qed.

Lemma embeddingFires_nan (c : App.Closure) (avg : float) (now lf : Z) :
  is_nan avg = true -> App.embeddingFires c avg now lf = false.
Proof.
  intros N. unfold App.embeddingFires. rewrite (NaN.gt_l _ _ N).
  rewrite andb_false_r. reflexivity.
Qed.

(** One frame or embedding score on a poisoned buffer. *)
Lemma handle_poisoned (n : nat) (i : App.Input) (p : App.Player) :
  steady i -> (n < 7)%nat -> poisoned n (App.scoreBufRef p) ->
  detections (snd (App.handle i p)) = []
  /\ poisoned (S n) (App.scoreBufRef (fst (App.handle i p))).
Proof.
  intros St L P.
  destruct i as [c f|c r s|rd t1 t2]; cbn [App.handle]; [| |destruct St].
  - destruct (analyze_cases c f p) as [E|[[curr [w E]]|[last Sc]]].
    + rewrite E. split; [reflexivity|]. apply (poisoned_mono n); [lia|exact P].
    + rewrite E. split; [reflexivity|]. apply (poisoned_mono n); [lia|exact P].
    + destruct (analyze_scoring c f p last Sc) as [_ [Eb [_ [_ [_ [_ Ev]]]]]].
      pose proof (pushScore_poisoned n _ (rawScore f last) L P) as P'.
      rewrite Ev, Eb, !detections_app, detections_drawn.
      split; [|exact P'].
      rewrite frameFires_nan; [reflexivity|].
      apply (NaN.average_poisoned (S n)), P'.
  - destruct (Z.lt_ge_cases (App.warmupRef p) 6) as [W|W].
    + destruct (onScore_warmup c r s p W) as [_ [Eb [_ Ev]]].
      rewrite Ev, Eb. split; [reflexivity|].
      apply (poisoned_mono n); [lia|exact P].
    + destruct (onScore_warm c r s p W) as [Eb [_ Ev]].
      pose proof (pushScore_poisoned n _ s L P) as P'.
      rewrite Ev, Eb. split; [|exact P'].
      rewrite embeddingFires_nan; [reflexivity|].
      apply (NaN.average_poisoned (S n)), P'.
Qed.

Lemma run_log_cons (i : App.Input) (ins : list App.Input) (p : App.Player) :
  snd (App.run (i :: ins) p)
  = (i, snd (App.handle i p)) :: snd (App.run ins (fst (App.handle i p))).
Proof.
  cbn [App.run]. destruct (App.handle i p) as [p1 es]. cbn [fst snd].
  destruct (App.run ins p1) as [p2 log]. reflexivity.
Qed.

(** X9: a score that is not a number, once pushed into the shared score
    buffer, makes the smoothed score NaN for as long as it stays among the
    last 8 scores; neither the frame path nor the embedding path publishes a
    detection during the call that pushed it and the next seven frames or
    embedding scores. *)
Theorem nan_score_silences_both_paths :
  (forall (c : App.Closure) (r : App.Reads) (s : float) (p : App.Player),
      is_nan s = true -> 6 <= App.warmupRef p ->
      detections (snd (App.onScore c r s p)) = []
      /\ poisoned 0 (App.scoreBufRef (fst (App.onScore c r s p))))
  /\ (forall (ins : list App.Input) (n : nat) (p : App.Player),
        poisoned n (App.scoreBufRef p) -> Forall steady ins ->
        (length ins + n <= 7)%nat ->
        silent (snd (App.run ins p))).
Proof.
  split.
  - intros c r s p N W.
    destruct (onScore_warm c r s p W) as [Eb [_ Ev]].
    pose proof (pushScore_nan (App.scoreBufRef p) s N) as P.
    rewrite Ev, Eb. split; [|exact P].
    rewrite embeddingFires_nan; [reflexivity|].
    apply (NaN.average_poisoned 0), P.
  - induction ins as [|i ins IH]; intros n p P St L.
    + constructor.
    + inversion St as [|? ? Hi Hins]; subst. cbn [length] in L.
      destruct (handle_poisoned n i p Hi ltac:(lia) P) as [D P'].
      rewrite run_log_cons. constructor; [exact D|].
      apply (IH (S n)); [exact P'|exact Hins|lia].
Qed.

Lemma nan_score_silences_both_paths_witness :
  silent (snd (App.run [App.Tick watching (frameAt white (T0 + 200))]
                 (fst (App.onScore watching (App.mkReads T0 T0 T0) nan warm)))).
Proof.
  apply (proj2 nan_score_silences_both_paths
           [App.Tick watching (frameAt white (T0 + 200))] 0%nat
           (fst (App.onScore watching (App.mkReads T0 T0 T0) nan warm))).
  - apply (proj1 nan_score_silences_both_paths); [reflexivity|vm_compute; congruence].
  - constructor; [exact I|constructor].
  - cbn. lia.
Defined.

(** ** Stop and reset *)


(** What a restart does to a live detector. *)
Lemma restart_live (rd : Ai.Read) (i : Z) (v : Ai.Vars) :
  App.restart rd (Some (Ai.Live i v))
  = (Some (Ai.Live i (Ai.mkVars (Ai.model v)
                        (match fst rd with
                         | None => Some (snd rd)
                         | Some _ => None
                         end)
                        true (Ai.meanVector v) (Ai.sampleCount v))),
     map App.Detector
         (match Ai.timer v with
          | Some id => [Ai.ClearTimeout id]
          | None => []
          end
          ++ match fst rd with
             | None => [Ai.SetTimeout i]
             | Some e => [Ai.Await e]
             end)).
Proof. destruct rd as [[e|] id]; reflexivity. Qed.

(** X10: the Stop button pauses the element and seeks it to 0; after the
    click the analysis loop and the detector set-up of the next render do
    nothing, and the click handler itself resets nothing.  The [seeking]
    event of that seek comes with the current time 0: its handler resets
    when the remembered time is past 0.05 s, which clears the cells, counts
    a loop and restarts a live detector although the analysis is off.  A
    live detector ends up stopped only if the cleanup of the set-up effect
    runs after that handler; if the cleanup runs first, the detector is
    left running. *)
Theorem stop_click_seeks_and_the_seek_resets :
  forall (cb cb' video : bool) (rd : Ai.Read) (t1 t2 : Z) (p : App.Player)
         (f : App.Frame) (l : Ai.Loader),
    let p' := fst (App.onStopClick cb true p) in
    snd (App.onStopClick cb true p)
    = [App.VideoPause; App.VideoCurrentTime 0] ++ App.playChange cb false
    /\ App.analyze (App.render cb' p') f p' = (p', [])
    /\ App.maybeInit video (App.render cb' p') l rd p' = Ai.Resolved (p', [])
    /\ (App.scoreBufRef p' = App.scoreBufRef p
        /\ App.activation p' = App.activation p
        /\ App.lastFireRef p' = App.lastFireRef p
        /\ App.detectCount p' = App.detectCount p
        /\ App.detectorRef p' = App.detectorRef p)
    /\ (JS.lt (0 + 0.05)%float (App.prevTimeRef p) = false ->
        App.onSeeking (Some 0%float) rd t1 t2 p' = (p', []))
    /\ (JS.lt (0 + 0.05)%float (App.prevTimeRef p) = true ->
        let q := fst (App.onSeeking (Some 0%float) rd t1 t2 p') in
        cleared q /\ App.lastFireRef q = 0 /\ App.detectCount q = 0
        /\ App.loopCount q = App.loopCount p + 1
        /\ App.analyzing q = false
        /\ forall (i : Z) (v : Ai.Vars),
             App.detectorRef p = Some (Ai.Live i v) ->
             (exists v', App.detectorRef q = Some (Ai.Live i v')
                         /\ Ai.running v' = true)
             /\ (exists v',
                   App.detectorRef
                     (fst (App.onSeeking (Some 0%float) rd t1 t2
                             (fst (App.cleanupInit p'))))
                   = Some (Ai.Live i v')
                   /\ Ai.running v' = true)
             /\ (exists v',
                   App.detectorRef (fst (App.cleanupInit q))
                   = Some (Ai.Live i v')
                   /\ Ai.running v' = false)).
Proof.
  intros cb cb' video rd t1 t2 p f l. cbv zeta.
  cbn [App.onStopClick negb fst snd].
  split; [reflexivity|].
  split; [|split; [|split; [repeat split|split]]].
  - unfold App.analyze, App.render.
    cbn [App.c_hasMedia App.c_analyzing App.hasMedia App.analyzing
         App.withPlayback negb].
    rewrite orb_true_r. reflexivity.
  - unfold App.maybeInit, App.render.
    cbn [App.c_hasMedia App.c_analyzing App.hasMedia App.analyzing
         App.withPlayback negb].
    rewrite orb_true_r. reflexivity.
  - intros H. unfold App.onSeeking.
    cbn [App.withPlayback App.prevTimeRef]. rewrite H. reflexivity.
  - intros H.
    split; [|split; [|split; [|split; [|split]]]].
    + pose proof (resetForLoop_cleared rd t1 t2
                    (App.withPlayback false false (App.prevTimeRef p)
                                      (App.loopCount p) p)) as C.
      unfold App.onSeeking. cbn [App.withPlayback App.prevTimeRef].
      rewrite H.
      destruct (App.resetForLoop rd t1 t2 _) as [p1 es]. exact C.
    + unfold App.onSeeking, App.resetForLoop.
      cbn [App.withPlayback App.prevTimeRef App.detectorRef]. rewrite H.
      destruct (App.restart rd (App.detectorRef p)) as [d es]. reflexivity.
    + unfold App.onSeeking, App.resetForLoop.
      cbn [App.withPlayback App.prevTimeRef App.detectorRef]. rewrite H.
      destruct (App.restart rd (App.detectorRef p)) as [d es]. reflexivity.
    + unfold App.onSeeking, App.resetForLoop.
      cbn [App.withPlayback App.prevTimeRef App.detectorRef]. rewrite H.
      destruct (App.restart rd (App.detectorRef p)) as [d es]. reflexivity.
    + unfold App.onSeeking, App.resetForLoop.
      cbn [App.withPlayback App.prevTimeRef App.detectorRef]. rewrite H.
      destruct (App.restart rd (App.detectorRef p)) as [d es]. reflexivity.
    + intros i v D. split; [|split].
      * unfold App.onSeeking, App.resetForLoop.
        cbn [App.withPlayback App.prevTimeRef App.detectorRef].
        rewrite H, D, restart_live. eexists. split; reflexivity.
      * unfold App.cleanupInit.
        cbn [App.withPlayback App.detectorRef]. rewrite D.
        cbn [Ai.stop fst App.withDetector].
        unfold App.onSeeking, App.resetForLoop.
        cbn [App.withDetector App.withPlayback App.prevTimeRef
             App.detectorRef].
        rewrite H, restart_live. eexists. split; reflexivity.
      * unfold App.onSeeking, App.resetForLoop.
        cbn [App.withPlayback App.prevTimeRef App.detectorRef].
        rewrite H, D, restart_live.
        cbn [fst App.cleanupInit App.withPlayback App.detectorRef Ai.stop
             App.withDetector].
        eexists. split; reflexivity.
Qed.

Lemma stop_click_seeks_and_the_seek_resets_witness :
  cleared (fst (App.onSeeking (Some 0%float) (None, 1) (T0 + 200) (T0 + 200)
                  (fst (App.onStopClick true true midway)))).
Proof.
  apply (proj2 (proj2 (proj2 (proj2 (proj2
           (stop_click_seeks_and_the_seek_resets true true true (None, 1)
              (T0 + 200) (T0 + 200) midway (frameAt black (T0 + 200))
              (Ai.mkLoader (Some tt) (Some tt) None))))))).
  reflexivity.
Defined.


(** ** The detector of [ai.ts] *)

(** [step] is [launch] followed, when the call was left suspended, by
    [resume] on the variables as [launch] left them. *)
Lemma step_launch_resume (i : Z) (cb : bool) (emb : option Ai.Float32Array)
    (id : Z) (v : Ai.Vars) :
  Ai.step i cb emb id v
  = match snd (Ai.launch i emb id v) with
    | [Ai.Await e] => Ai.resume i cb e id (fst (Ai.launch i emb id v))
    | _ => Ai.launch i emb id v
    end.
Proof.
  unfold Ai.step, Ai.launch, Ai.resume.
  destruct (Ai.running v) eqn:R; cbn [negb]; [|reflexivity].
  destruct emb as [e|]; cbn [fst snd]; rewrite ?R;
    [|destruct cb; reflexivity].
  destruct (Ai.meanVector v); destruct cb; reflexivity.
Qed.

(** X12: [start] on a running detector and [stop] on a stopped one do
    nothing, and a stopped detector has no timer pending.  A call of [step]
    made after [stop] returns at once.  But [stop] does not cancel a call
    that is suspended at its [await]: when that call goes on, it still
    updates the mean and hands its score to [onScore]; only the new timer
    is not set. *)
Theorem stop_spares_the_step_in_flight :
  forall (rd rd' : Ai.Read) (d : Ai.AnomalyDetector),
    Ai.start rd' (fst (Ai.start rd d)) = (fst (Ai.start rd d), [])
    /\ Ai.stop (fst (Ai.stop d)) = (fst (Ai.stop d), [])
    /\ match d, fst (Ai.stop d) with
       | Ai.Live _ v0, Ai.Live i v =>
           Ai.running v = false /\ Ai.timer v = None
           /\ (forall (cb : bool) (emb : option Ai.Float32Array) (id : Z),
                 Ai.launch i emb id v = (v, [])
                 /\ Ai.step i cb emb id v = (v, []))
           /\ (forall (e : Ai.Float32Array) (id : Z),
                 let r := Ai.resume i true e id v in
                 snd r
                 = [Ai.OnScore match Ai.meanVector v0 with
                               | None => 0%float
                               | Some m => Ai.cosineDistance e m
                               end]
                 /\ Ai.meanVector (fst r)
                    = Some match Ai.meanVector v0 with
                           | None => e
                           | Some m => Ai.updateMean 0.02 m e
                           end
                 /\ Ai.running (fst r) = false /\ Ai.timer (fst r) = None)
       | Ai.Fallback, Ai.Fallback => True
       | _, _ => False
       end.
Proof.
  intros rd rd' [|i v].
  - repeat split.
  - split; [|split].
    + cbn [Ai.start]. destruct (Ai.running v) eqn:R.
      * cbn [fst Ai.start]. rewrite R. reflexivity.
      * destruct rd as [[e|] id]; reflexivity.
    + reflexivity.
    + cbn [Ai.stop fst]. split; [reflexivity|]. split; [reflexivity|].
      split.
      * intros cb emb id. split; reflexivity.
      * intros e id. cbv zeta. unfold Ai.resume.
        cbn [Ai.meanVector Ai.running Ai.timer Ai.sampleCount].
        destruct (Ai.meanVector v); repeat split.
Qed.

(** ** The set-up of the detector *)

(** [maybeInit] is [initBegin] followed, when the call was left suspended,
    by the load and [initResume]. *)
Lemma maybeInit_begin_resume (video : bool) (c : App.Closure) (l : Ai.Loader)
    (rd : Ai.Read) (p : App.Player) :
  App.maybeInit video c l rd p
  = match App.initBegin video c rd p with
    | Some r => Ai.Resolved r
    | None =>
        match Ai.createVideoAnomalyDetector (Some 250) l with
        | (Ai.Resolved d, es0) =>
            Ai.Resolved (fst (App.initResume d rd p),
                         map App.Detector es0 ++ snd (App.initResume d rd p))
        | (Ai.Rejected, _) => Ai.Rejected
        end
    end.
Proof.
  unfold App.maybeInit, App.initBegin, App.initResume.
  destruct (negb video || negb (App.c_hasMedia c) || negb (App.c_analyzing c));
    [reflexivity|].
  destruct (App.detectorRef p) as [d|].
  - destruct (Ai.start rd d) as [d' es]. reflexivity.
  - destruct (Ai.createVideoAnomalyDetector (Some 250) l) as [[d|] es0];
      [|reflexivity].
    destruct (Ai.start rd d) as [d' es]. cbn [fst snd].
    rewrite map_app. reflexivity.
Qed.

(** X30: the set-up does not remember a load that is pending.  While no
    detector is stored, every run of [maybeInit] behind the guard is left
    suspended at its load, and the cleanup of the effect has nothing to
    stop.  When two such runs go on, each starts the detector it has
    loaded, and the second overwrites the first in [detectorRef] without
    stopping it: the first was left running, and the cleanup that follows
    stops the second only. *)
Theorem pending_load_is_not_remembered :
  forall (c : App.Closure) (rd rd1 rd2 : Ai.Read) (i1 i2 : Z)
         (v1 v2 : Ai.Vars) (p : App.Player),
    App.c_hasMedia c = true -> App.c_analyzing c = true ->
    App.detectorRef p = None ->
    Ai.running v1 = false -> Ai.running v2 = false ->
    let r1 := App.initResume (Ai.Live i1 v1) rd1 p in
    let r2 := App.initResume (Ai.Live i2 v2) rd2 (fst r1) in
    App.initBegin true c rd p = None
    /\ App.cleanupInit p = (p, [])
    /\ (exists v1', App.detectorRef (fst r1) = Some (Ai.Live i1 v1')
                    /\ Ai.running v1' = true)
    /\ (exists v2', App.detectorRef (fst r2) = Some (Ai.Live i2 v2')
                    /\ Ai.running v2' = true)
    /\ snd r2
       = map App.Detector
           match fst rd2 with
           | None => [Ai.SetTimeout i2]
           | Some e => [Ai.Await e]
           end
    /\ (exists v2', App.detectorRef (fst (App.cleanupInit (fst r2)))
                    = Some (Ai.Live i2 v2')
                    /\ Ai.running v2' = false)
    /\ snd (App.cleanupInit (fst r2))
       = map App.Detector
           match fst rd2 with
           | None => [Ai.ClearTimeout (snd rd2)]
           | Some _ => match Ai.timer v2 with
                       | Some id => [Ai.ClearTimeout id]
                       | None => []
                       end
           end.
Proof.
  intros c rd rd1 rd2 i1 i2 v1 v2 p Hm Ha Hd R1 R2. cbv zeta.
  unfold App.initResume, App.initBegin, App.cleanupInit.
  rewrite Hm, Ha, Hd. cbn [negb orb Ai.start]. rewrite R1, R2.
  destruct rd1 as [[e1|] id1]; destruct rd2 as [[e2|] id2];
    cbn [fst snd Ai.launch Ai.running negb App.withDetector App.detectorRef
         Ai.stop Ai.timer map];
    (split; [reflexivity|]); (split; [reflexivity|]);
    (split; [eexists; split; reflexivity|]);
    (split; [eexists; split; reflexivity|]);
    (split; [reflexivity|]);
    (split; [eexists; split; reflexivity|]);
    try reflexivity; destruct (Ai.timer v2); reflexivity.
Qed.

Lemma pending_load_is_not_remembered_witness :
  App.initBegin true watching (None, 1) started = None.
Proof.
  apply (pending_load_is_not_remembered watching (None, 1) (None, 1) (None, 2)
           250 250 (Ai.mkVars Ai.MobileNetV2 None false None 0)
           (Ai.mkVars Ai.MobileNetV2 None false None 0) started);
    reflexivity.
Defined.

Lemma published_app (l1 l2 : list Ai.Effect) :
  published (l1 ++ l2) = published l1 ++ published l2.
Proof. apply flat_map_app. Qed.

Lemma timeouts_app (l1 l2 : list Ai.Effect) :
  timeouts (l1 ++ l2) = timeouts l1 ++ timeouts l2.
Proof. apply flat_map_app. Qed.

Lemma published_scores (l : list float) : published (map Ai.OnScore l) = l.
Proof. induction l as [|s l IH]; [reflexivity|]. cbn. f_equal. exact IH. Qed.

Lemma timeouts_scores (l : list float) : timeouts (map Ai.OnScore l) = [].
Proof. induction l as [|s l IH]; [reflexivity|exact IH]. Qed.

Lemma updateMean_length (lr : float) (m e : Ai.Float32Array) :
  length (Ai.updateMean lr m e) = length m.
Proof.
  revert e. induction m as [|x m IH]; intros e; [reflexivity|].
  cbn. f_equal. apply IH.
Qed.

(** Sampling with a mean vector already seeded. *)
Lemma sampling_seeded (i : Z) (reads : list (option Ai.Float32Array * Z)) :
  forall (v : Ai.Vars) (m : Ai.Float32Array),
    Ai.running v = true -> Ai.meanVector v = Some m ->
    let v' := fst (sampling i true reads v) in
    let es := snd (sampling i true reads v) in
    Ai.running v' = true
    /\ timeouts es = repeat i (length reads)
    /\ length (published es) = length (embeddings reads)
    /\ Ai.sampleCount v' = Ai.sampleCount v + Z.of_nat (length (embeddings reads))
    /\ exists m', Ai.meanVector v' = Some m' /\ length m' = length m.
Proof.
  induction reads as [|[emb id] reads IH]; intros v m R M; cbv zeta.
  - cbn. repeat split; [exact R|lia|]. exists m. split; [exact M|reflexivity].
  - cbn [sampling fst snd]. unfold Ai.step. rewrite R, M. cbn [negb].
    destruct emb as [e|].
    + set (v1 := Ai.mkVars _ _ _ _ _).
      destruct (IH v1 (Ai.updateMean 0.02 m e) eq_refl eq_refl)
        as [R' [T [P [C [m' [M' L']]]]]].
      destruct (sampling i true reads v1) as [v2 e2]. cbn [fst snd] in *.
      rewrite !timeouts_app, !published_app, !length_app, T, P.
      repeat split; [exact R'| |].
      * rewrite C. subst v1.
        change (embeddings ((Some e, id) :: reads)) with (e :: embeddings reads).
        cbn [Ai.sampleCount length]. lia.
      * exists m'. split; [exact M'|]. rewrite L'. apply updateMean_length.
    + set (v1 := Ai.mkVars _ _ _ _ _).
      destruct (IH v1 m eq_refl eq_refl) as [R' [T [P [C [m' [M' L']]]]]].
      destruct (sampling i true reads v1) as [v2 e2]. cbn [fst snd] in *.
      rewrite !timeouts_app, T.
      repeat split; [exact R'|exact P|exact C|].
      exists m'. split; [exact M'|exact L'].
Qed.

(** X13: a running detector keeps sampling whatever happens to the reads:
    every step sets exactly one timer with the configured delay, a read
    that throws is skipped without a score, every embedding read yields
    exactly one score, the first of them 0; the sample count is the number
    of embeddings read, and the mean vector keeps the length of the first
    embedding even when later embeddings are longer or shorter. *)
Theorem sampling_survives_failed_reads :
  forall (i : Z) (reads : list (option Ai.Float32Array * Z)) (v : Ai.Vars),
    Ai.running v = true -> Ai.meanVector v = None ->
    let v' := fst (sampling i true reads v) in
    let es := snd (sampling i true reads v) in
    Ai.running v' = true
    /\ timeouts es = repeat i (length reads)
    /\ length (published es) = length (embeddings reads)
    /\ match embeddings reads with
       | [] => Ai.meanVector v' = None /\ Ai.sampleCount v' = Ai.sampleCount v
       | e :: _ =>
           hd_error (published es) = Some 0%float
           /\ Ai.sampleCount v' = Z.of_nat (length (embeddings reads))
           /\ exists m', Ai.meanVector v' = Some m' /\ length m' = length e
       end.
Proof.
  intros i reads. induction reads as [|[emb id] reads IH]; intros v R M; cbv zeta.
  - cbn. repeat split; [exact R|exact M].
  - cbn [sampling fst snd]. unfold Ai.step. rewrite R, M. cbn [negb].
    destruct emb as [e|].
    + set (v1 := Ai.mkVars _ _ _ _ _).
      destruct (sampling_seeded i reads v1 e eq_refl eq_refl)
        as [R' [T [P [C [m' [M' L']]]]]].
      destruct (sampling i true reads v1) as [v2 e2]. cbn [fst snd] in *.
      rewrite !timeouts_app, !published_app, !length_app, T, P.
      change (embeddings ((Some e, id) :: reads)) with (e :: embeddings reads).
      repeat split; [exact R'| |].
      * rewrite C. subst v1. cbn [Ai.sampleCount length]. lia.
      * exists m'. split; [exact M'|exact L'].
    + set (v1 := Ai.mkVars _ _ _ _ _).
      destruct (IH v1 eq_refl eq_refl) as [R' [T [P H]]].
      destruct (sampling i true reads v1) as [v2 e2]. cbn [fst snd] in *.
      rewrite !timeouts_app, T.
      change (embeddings ((None, id) :: reads)) with (embeddings reads).
      repeat split; [exact R'|exact P|].
      destruct (embeddings reads); exact H.
Qed.

Lemma sampling_survives_failed_reads_witness :
  Ai.running
    (fst (sampling 250 true
            [(None, 1); (Some [1%float; 0%float], 2); (Some [0%float], 3)]
            startedVars)) = true.
Proof.
  apply (sampling_survives_failed_reads 250
           [(None, 1); (Some [1%float; 0%float], 2); (Some [0%float], 3)]
           startedVars); reflexivity.
Defined.

Lemma cosineLoop_nan (a b : Ai.Float32Array) (dot na nb : float) :
  is_nan dot = true ->
  is_nan (fst (fst (Ai.cosineLoop a b (dot, na, nb)))) = true.
Proof.
  revert b dot na nb. induction a as [|x a IH]; intros b dot na nb H.
  - exact H.
  - cbn [Ai.cosineLoop]. apply IH, NaN.add_l, H.
Qed.

Lemma cosineLoop_short (a b : Ai.Float32Array) (dot na nb : float) :
  (length b < length a)%nat ->
  is_nan (fst (fst (Ai.cosineLoop a b (dot, na, nb)))) = true.
Proof.
  revert b dot na nb. induction a as [|x a IH]; intros b dot na nb L.
  - cbn in L. lia.
  - cbn [Ai.cosineLoop]. destruct b as [|y b].
    + apply cosineLoop_nan, NaN.add_r, NaN.mul_r. reflexivity.
    + apply IH. cbn [tl length] in *. lia.
Qed.

Lemma cosineLoop_zeros (n : nat) :
  Ai.cosineLoop (repeat 0%float n) (repeat 0%float n) (0, 0, 0)%float
  = (0, 0, 0)%float.
Proof.
  induction n as [|n IH]; [reflexivity|].
  cbn [repeat Ai.cosineLoop hd tl].
  change (0 + 0 * 0)%float with 0%float. exact IH.
Qed.

(** X14: the cosine distance of two all-zero embeddings of the same length
    is exactly 1, thanks to the 1e-8 in the denominator; when the mean
    vector is shorter than the embedding, the missing entries read as
    [undefined] and the distance is NaN. *)
Theorem cosine_distance_degenerate_inputs :
  (forall n : nat,
      Ai.cosineDistance (repeat 0%float n) (repeat 0%float n) = 1%float)
  /\ (forall a b : Ai.Float32Array,
        (length b < length a)%nat -> is_nan (Ai.cosineDistance a b) = true).
Proof.
  split.
  - intros n. unfold Ai.cosineDistance. rewrite cosineLoop_zeros.
    vm_compute. reflexivity.
  - intros a b L. unfold Ai.cosineDistance.
    pose proof (cosineLoop_short a b 0 0 0 L) as H.
    destruct (Ai.cosineLoop a b (0, 0, 0)%float) as [[dot na] nb].
    cbn [fst] in H. apply NaN.sub_r, NaN.div_l, H.
Qed.

Lemma cosine_distance_degenerate_inputs_witness :
  is_nan (Ai.cosineDistance [1%float; 2%float] [1%float]) = true.
Proof.
  apply (proj2 cosine_distance_degenerate_inputs [1%float; 2%float] [1%float]).
  cbn. lia.
Defined.

(** ** A video that does not move *)

Lemma upto_In (lo hi x : Z) : In x (App.upto lo hi) <-> lo <= x < hi.
Proof.
  unfold App.upto. rewrite in_map_iff. split.
  - intros [k [E H]]. apply in_seq in H. lia.
  - intros H. exists (Z.to_nat (x - lo)). split; [lia|]. apply in_seq. lia.
Qed.

Lemma blocks_In (n b : Z) : In b (App.blocks n) -> 0 <= b.
Proof.
  unfold App.blocks. rewrite in_map_iff. intros [k [E _]]. lia.
Qed.

Lemma fold_left_fixed {A B : Type} (f : A -> B -> A) (l : list B) (a : A) :
  (forall x, In x l -> f a x = a) -> fold_left f l a = a.
Proof.
  induction l as [|x l IH]; intros H; [reflexivity|].
  cbn [fold_left]. rewrite (H x (or_introl eq_refl)).
  apply IH. intros y Hy. apply H. right. exact Hy.
Qed.

Lemma byte_diff_zero (b : Z) :
  0 <= b <= 255 -> abs (JS.ofZ b - JS.ofZ b) = 0%float.
Proof.
  intros H.
  assert (E : forallb (fun b => Leibniz.eqb (abs (JS.ofZ b - JS.ofZ b)) 0)
                      (App.upto 0 256) = true) by (vm_compute; reflexivity).
  rewrite forallb_forall in E. apply Leibniz.eqb_spec, E, upto_In. lia.
Qed.

Lemma at_same (d : list Z) (i : Z) :
  0 <= i < Z.of_nat (length d) -> Forall (fun b => 0 <= b <= 255) d ->
  abs (App.at_ d i - App.at_ d i) = 0%float.
Proof.
  intros Hi Hd. unfold App.at_.
  destruct (nth_error d (Z.to_nat i)) as [b|] eqn:E.
  - apply byte_diff_zero.
    exact (proj1 (Forall_forall _ _) Hd b (nth_error_In _ _ E)).
  - apply nth_error_None in E. lia.
Qed.

Lemma pixelDiff_same (w h : Z) (d : list Z) (x y : Z) :
  Z.of_nat (length d) = 4 * w * h -> Forall (fun b => 0 <= b <= 255) d ->
  0 <= x < w -> 0 <= y < h ->
  App.pixelDiff w d d x y = 0%float.
Proof.
  intros L B Hx Hy. unfold App.pixelDiff. cbv zeta.
  rewrite !at_same by (try exact B; nia). reflexivity.
Qed.

Lemma blockSum_same (w h : Z) (d : list Z) (bx by_ : Z) :
  Z.of_nat (length d) = 4 * w * h -> Forall (fun b => 0 <= b <= 255) d ->
  0 <= bx -> 0 <= by_ ->
  App.blockSum w h d d bx by_ 0 = (0%float, 0%float).
Proof.
  intros L B Hx Hy. unfold App.blockSum.
  apply fold_left_fixed. intros y Iy. apply upto_In in Iy.
  apply fold_left_fixed. intros x Ix. apply upto_In in Ix.
  rewrite (pixelDiff_same w h) by (try assumption; lia). reflexivity.
Qed.

Lemma scan_same (w h : Z) (d : list Z) :
  Z.of_nat (length d) = 4 * w * h -> Forall (fun b => 0 <= b <= 255) d ->
  App.scan w h d d = App.mkScan 0 0 0 0.
Proof.
  intros L B. unfold App.scan.
  apply fold_left_fixed. intros by_ Iy. apply blocks_In in Iy.
  apply fold_left_fixed. intros bx Ix. apply blocks_In in Ix.
  cbn [App.diff]. rewrite (blockSum_same w h d bx by_ L B Ix Iy). reflexivity.
Qed.

Lemma still_score (h : Z) :
  1 <= h <= 4096 -> App.saliencyScore 0 App.W h = 0%float.
Proof.
  intros H.
  assert (E : forallb (fun h => Leibniz.eqb (App.saliencyScore 0 App.W h) 0)
                      (App.upto 1 4097) = true) by (vm_compute; reflexivity).
  rewrite forallb_forall in E. apply Leibniz.eqb_spec, E, upto_In. lia.
Qed.

Lemma zeros_repeat (l : list float) :
  Forall (fun s => s = 0%float) l -> l = repeat 0%float (length l).
Proof.
  induction 1 as [|x l Hx _ IH]; [reflexivity|].
  cbn. subst x. f_equal. exact IH.
Qed.

Lemma pushScore_zeros (buf : list float) :
  Forall (fun s => s = 0%float) buf -> (length buf <= 8)%nat ->
  Forall (fun s => s = 0%float) (App.pushScore buf 0)
  /\ (length (App.pushScore buf 0) <= 8)%nat
  /\ App.average (App.pushScore buf 0) = 0%float.
Proof.
  intros Z8 L.
  assert (F : Forall (fun s => s = 0%float) (App.pushScore buf 0)).
  { unfold App.pushScore.
    assert (F : Forall (fun s => s = 0%float) (buf ++ [0%float])).
    { apply Forall_app. split; [exact Z8|]. constructor; [reflexivity|constructor]. }
    destruct (8 <? Z.of_nat (length (buf ++ [0%float]))); [|exact F].
    destruct (buf ++ [0%float]); [exact F|]. inversion F; assumption. }
  pose proof (pushScore_length buf 0 L) as L'.
  assert (N : (1 <= length (App.pushScore buf 0))%nat).
  { unfold App.pushScore.
    destruct (Z.ltb_spec 8 (Z.of_nat (length (buf ++ [0%float])))) as [G|G].
    - destruct (buf ++ [0%float]) as [|a [|b l]]; cbn in *; lia.
    - rewrite length_app. cbn. lia. }
  split; [exact F|]. split; [exact L'|].
  rewrite (zeros_repeat _ F).
  destruct (length (App.pushScore buf 0)) as [|[|[|[|[|[|[|[|[|n]]]]]]]]];
    try lia; vm_compute; reflexivity.
Qed.

Lemma stabilize_calm (s : float) (a : App.Activation) :
  JS.lt s 0 = false -> App.active a = false -> App.sustain a <= 2 ->
  App.active (App.stabilize s 0 a) = false
  /\ App.sustain (App.stabilize s 0 a) <= 2.
Proof.
  intros Hs Ha Hu. unfold App.stabilize, App.entryThr.
  change (JS.gt 0 s) with (JS.lt s 0). rewrite Hs, Ha. cbn [negb andb].
  destruct (JS.lt 0 (App.exitThr s)).
  - destruct (Z.leb_spec 3 (Z.max 0 (App.sustain a - 1))) as [G|G]; [lia|].
    cbn. lia.
  - destruct (Z.leb_spec 3 (App.sustain a)) as [G|G]; [lia|].
    cbn. lia.
Qed.

Lemma analyze_lastFrame (c : App.Closure) (f : App.Frame) (p : App.Player) :
  App.lastFrame (fst (App.analyze c f p)) = App.lastFrame p
  \/ App.lastFrame (fst (App.analyze c f p)) = Some (frameOf f).
Proof.
  unfold App.analyze.
  destruct (negb (App.videoPresent f) || negb (App.c_hasMedia c)
            || negb (App.c_analyzing c) || (App.readyState f <? 2));
    [left; reflexivity|].
  destruct (negb (App.context2d f)); [left; reflexivity|].
  destruct (App.lastFrame p) as [last|] eqn:L; [|right; reflexivity].
  destruct (App.warmupRef p <? 6); [right; reflexivity|].
  unfold App.scoreFrame.
  destruct (App.drawOverlay _ _ _ _ _) as [box drawn]. right. reflexivity.
Qed.

Lemma boxes_app (l1 l2 : list App.Event) :
  boxes (l1 ++ l2) = boxes l1 ++ boxes l2.
Proof. apply flat_map_app. Qed.

Lemma restart_plain (rd : Ai.Read) (d : option Ai.AnomalyDetector) :
  detections (snd (App.restart rd d)) = []
  /\ scoreEvents (snd (App.restart rd d)) = []
  /\ boxes (snd (App.restart rd d)) = [].
Proof.
  unfold App.restart. destruct d as [d0|]; [|repeat split].
  destruct (Ai.stop d0) as [d1 e1]. destruct (Ai.start _ d1) as [d2 e2].
  cbn [snd]. induction (e1 ++ e2) as [|e l IH]; [repeat split|exact IH].
Qed.

(** One input of a still video. *)
Lemma handle_still (px : list Z) (h : Z) (i : App.Input) (p : App.Player) :
  wellFormed h px -> 1 <= h <= 4096 -> still px h i -> calm px p ->
  calm px (fst (App.handle i p))
  /\ detections (snd (App.handle i p)) = []
  /\ boxes (snd (App.handle i p)) = []
  /\ Forall (fun s => s = 0%float) (scoreEvents (snd (App.handle i p))).
Proof.
  intros [WL WB] Hh St [Cz [Cl [Ca [Cs Cf]]]].
  destruct i as [c f|c r s|rd t1 t2]; cbn [App.handle]; [|destruct St|].
  - destruct St as [Hp [Hc Hs]].
    assert (LF : match App.lastFrame (fst (App.analyze c f p)) with
                 | Some last => App.data last = px
                 | None => True
                 end).
    { destruct (analyze_lastFrame c f p) as [E|E]; rewrite E; [exact Cf|].
      exact Hp. }
    destruct (analyze_cases c f p) as [E|[[curr [w E]]|[last Sc]]].
    + rewrite E in *. repeat split; try assumption. constructor.
    + rewrite E in *. cbn [fst snd] in *.
      repeat split; try assumption. constructor.
    + assert (R0 : rawScore f last = 0%float).
      { destruct Sc as [_ [Hl _]]. rewrite Hl in Cf.
        unfold rawScore. cbv zeta. rewrite Hc, Hp, Cf.
        rewrite (scan_same App.W h px WL WB). cbn [App.diff].
        apply still_score, Hh. }
      destruct (pushScore_zeros (App.scoreBufRef p) Cz Cl) as [Pz [Pl Pa]].
      assert (S0 : smoothed f p last = 0%float).
      { unfold smoothed. rewrite R0. exact Pa. }
      destruct (stabilize_calm (App.c_sensitivity c) (App.activation p) Hs Ca Cs)
        as [Sa Su].
      destruct (analyze_scoring c f p last Sc) as [Ea [Eb [_ [_ [_ [_ Ev]]]]]].
      assert (A' : App.active (stabilized c f p last) = false
                   /\ App.sustain (stabilized c f p last) <= 2).
      { unfold stabilized. rewrite S0. split; assumption. }
      destruct A' as [A1 A2].
      split; [|split; [|split]].
      * split; [rewrite Eb, R0; exact Pz|].
        split; [rewrite Eb, R0; exact Pl|].
        change (App.activeRef (fst (App.analyze c f p)))
          with (App.active (App.activation (fst (App.analyze c f p)))).
        change (App.sustainRef (fst (App.analyze c f p)))
          with (App.sustain (App.activation (fst (App.analyze c f p)))).
        rewrite Ea. split; [exact A1|]. split; [exact A2|exact LF].
      * destruct (analyze_detections c f p) as [[D _]|[last' [Sc' [F _]]]];
          [exact D|].
        assert (last' = last).
        { destruct Sc as [_ [L1 _]], Sc' as [_ [L2 _]]. congruence. }
        subst last'. rewrite A1 in F. unfold App.frameFires in F.
        rewrite !andb_false_r in F. discriminate F.
      * rewrite Ev, A1, !boxes_app. unfold App.drawOverlay, App.frameFires.
        rewrite andb_false_r.
        destruct (App.overlay f) as [[ovw ovh]|]; reflexivity.
      * rewrite (scoring_scoreEvents c f p last Sc), S0.
        constructor; [reflexivity|constructor].
  - unfold App.resetForLoop.
    destruct (restart_plain rd (App.detectorRef p)) as [D [Sv B]].
    destruct (App.restart rd (App.detectorRef p)) as [d es].
    cbn [fst snd] in *. unfold calm.
    cbn [App.scoreBufRef App.activeRef App.sustainRef App.lastFrame
         detections scoreEvents boxes flat_map app length].
    fold (detections es). fold (scoreEvents es). fold (boxes es).
    rewrite D, Sv, B.
    repeat split; try constructor; try lia. exact Cf.
Qed.

(** X15: a video that keeps showing one picture never activates: from a
    player in which nothing has moved, every frame scores exactly 0, no box
    is drawn and no detection is published, however many frames and resets
    follow. *)
Theorem still_video_never_alerts :
  forall (px : list Z) (h : Z) (ins : list App.Input) (p : App.Player),
    wellFormed h px -> 1 <= h <= 4096 ->
    calm px p -> Forall (still px h) ins ->
    calm px (fst (App.run ins p))
    /\ Forall (fun ie => detections (snd ie) = []
                         /\ boxes (snd ie) = []
                         /\ Forall (fun s => s = 0%float) (scoreEvents (snd ie)))
              (snd (App.run ins p)).
Proof.
  intros px h ins p W Hh C St. revert p C.
  induction St as [|i ins Hi _ IH]; intros p C.
  - split; [exact C|constructor].
  - destruct (handle_still px h i p W Hh Hi C) as [C' E].
    rewrite run_cons, run_log_cons.
    destruct (IH _ C') as [C2 L]. split; [exact C2|].
    constructor; [exact E|exact L].
Qed.

Lemma still_video_never_alerts_witness :
  calm black (fst (App.run (play (repeat black 12)) started)).
Proof.
  apply (still_video_never_alerts black 1 (play (repeat black 12)) started).
  - split; [reflexivity|]. unfold black. apply Forall_forall.
    intros b Hb. apply repeat_spec in Hb. subst b. lia.
  - lia.
  - split; [constructor|]. split; [cbn; lia|]. split; [reflexivity|].
    split; [cbn; lia|exact I].
  - unfold play. apply Forall_forall. intros i Hi.
    apply in_map_iff in Hi. destruct Hi as [[k q] [E Hi]]. subst i.
    apply in_combine_r in Hi. apply repeat_spec in Hi. cbn [snd] in *. subst q.
    repeat split.
Defined.

(** ** The pulse graph *)

(** [Math.max(lo, Math.min(hi, x))] of a number lies between the constants
    [lo] and [hi]. *)
Lemma clamp_between (lo hi x : float) :
  is_nan lo = false -> is_nan hi = false ->
  is_zero lo && get_sign lo = false ->
  is_zero hi && negb (get_sign hi) = false ->
  (lo <=? lo)%float = true -> (lo <=? hi)%float = true ->
  (hi <=? hi)%float = true ->
  is_nan x = false ->
  is_nan (clamp x lo hi) = false
  /\ ((lo <=? clamp x lo hi) && (clamp x lo hi <=? hi))%float = true.
Proof.
  intros Nl Nh Zl Zh Rl Rlh Rh Hx. unfold clamp.
  assert (M : JS.min hi x = hi
              \/ (JS.min hi x = x /\ (x <? hi)%float = true)).
  { unfold JS.min. rewrite Hx, Nh. cbn [orb].
    destruct (hi <? x)%float; [left; reflexivity|].
    destruct (x <? hi)%float; [right; split; reflexivity|].
    rewrite Zh. left; reflexivity. }
  assert (N : forall m, is_nan m = false ->
              JS.max lo m = lo
              \/ (JS.max lo m = m /\ (lo <? m)%float = true)).
  { intros m Hm. unfold JS.max. rewrite Hm, Nl. cbn [orb].
    destruct (lo <? m)%float; [right; split; reflexivity|].
    destruct (m <? lo)%float; [left; reflexivity|].
    rewrite Zl. left; reflexivity. }
  destruct M as [E|[E L]]; rewrite E.
  - destruct (N hi Nh) as [E1|[E1 L1]]; rewrite E1.
    + rewrite Nl, Rl, Rlh. split; reflexivity.
    + rewrite Nh, Rlh, Rh. split; reflexivity.
  - destruct (N x Hx) as [E1|[E1 L1]]; rewrite E1.
    + rewrite Nl, Rl, Rlh. split; reflexivity.
    + rewrite Hx, (FloatFacts.ltb_leb _ _ L), (FloatFacts.ltb_leb _ _ L1).
      split; reflexivity.
Qed.

Lemma orZero_number (x : float) : is_nan (Dpcm.orZero x) = false.
Proof.
  unfold Dpcm.orZero. destruct (is_nan x) eqn:E; [reflexivity|].
  cbn [orb]. destruct (is_zero x); [reflexivity|exact E].
Qed.

Lemma stored_score_unit (s : float) :
  JS.in_unit (JS.max 0 (JS.min 1 (Dpcm.orZero s))) = true.
Proof.
  apply (clamp_between 0 1 (Dpcm.orZero s)); try reflexivity.
  apply orZero_number.
Qed.

Lemma percent_tables :
  forallb (fun n => forallb (fun k => percentOk k n) (App.upto 0 (n + 1)))
          (App.upto 0 601) = true.
Proof. vm_cast_no_check (eq_refl true). Qed.

Lemma percent_table (k n : Z) :
  0 <= k <= n -> n <= 600 ->
  inPercent (Dpcm.round1 (Dpcm.percent (JS.ofZ k) n)) = true.
Proof.
  intros Hk Hn. pose proof percent_tables as T.
  rewrite forallb_forall in T.
  assert (In n (App.upto 0 601)) as I1 by (apply upto_In; lia).
  specialize (T n I1). rewrite forallb_forall in T.
  apply T, upto_In. lia.
Qed.

Lemma shown_tables :
  forallb (fun n => forallb (fun k => shownOk k n) (App.upto 0 (n + 1)))
          (App.upto 0 301) = true.
Proof. vm_cast_no_check (eq_refl true). Qed.

Lemma shown_table (k n : Z) :
  0 <= k <= n -> n <= 300 ->
  inPercent (shownDensity k n) = true
  /\ (0 < k -> (0.1 <=? shownDensity k n)%float = true).
Proof.
  intros Hk Hn. pose proof shown_tables as T.
  rewrite forallb_forall in T.
  assert (In n (App.upto 0 301)) as I1 by (apply upto_In; lia).
  specialize (T n I1). rewrite forallb_forall in T.
  assert (In k (App.upto 0 (n + 1))) as I2 by (apply upto_In; lia).
  specialize (T k I2). unfold shownOk in T.
  apply andb_prop in T. destruct T as [T1 T2].
  split; [exact T1|]. intros P. apply Z.ltb_lt in P. rewrite P in T2. exact T2.
Qed.

Lemma pulse_table (c : Z) : 0 <= c <= 300 -> pulseOk c = true.
Proof.
  intros H.
  assert (T : forallb pulseOk (App.upto 0 301) = true)
    by (vm_cast_no_check (eq_refl true)).
  rewrite forallb_forall in T. apply T, upto_In. lia.
Qed.

Lemma count_table (a : Z) :
  0 <= a < 600 ->
  (JS.ofZ a + 1)%float = JS.ofZ (a + 1) /\ (JS.ofZ a + 0)%float = JS.ofZ a.
Proof.
  intros H.
  assert (T : forallb countOk (App.upto 0 600) = true)
    by (vm_cast_no_check (eq_refl true)).
  rewrite forallb_forall in T.
  assert (In a (App.upto 0 600)) as I1 by (apply upto_In; lia).
  specialize (T a I1). unfold countOk in T.
  apply andb_prop in T. destruct T as [T1 T2].
  split; apply Leibniz.eqb_spec; assumption.
Qed.

(** The sum of activation samples is the number of ones among them. *)
Lemma fold_bits (l : list float) :
  Forall bit l ->
  forall a : Z, 0 <= a -> a + Z.of_nat (length l) <= 600 ->
  exists k, a <= k <= a + Z.of_nat (length l)
            /\ fold_left (fun x y => (x + y)%float) l (JS.ofZ a) = JS.ofZ k.
Proof.
  induction 1 as [|v l Hv _ IH]; intros a Ha Hl.
  - exists a. cbn. split; [lia|reflexivity].
  - cbn [length fold_left] in *.
    destruct (count_table a ltac:(lia)) as [C1 C0].
    destruct Hv as [Hv|Hv]; subst v.
    + rewrite C0. destruct (IH a Ha ltac:(lia)) as [k [Hk E]].
      exists k. split; [lia|exact E].
    + rewrite C1. destruct (IH (a + 1) ltac:(lia) ltac:(lia)) as [k [Hk E]].
      exists k. split; [lia|exact E].
Qed.

Lemma sum_bits (l : list float) :
  Forall bit l -> (length l <= 600)%nat ->
  exists k, 0 <= k <= Z.of_nat (length l) /\ JS.sum l = JS.ofZ k.
Proof.
  intros B L. destruct (fold_bits l B 0 ltac:(lia) ltac:(lia)) as [k [Hk E]].
  exists k. split; [lia|exact E].
Qed.

Lemma Forall_skipn {A : Type} (P : A -> Prop) (k : nat) (l : list A) :
  Forall P l -> Forall P (skipn k l).
Proof.
  revert l. induction k as [|k IH]; intros l H; [exact H|].
  destruct l as [|a l]; [exact H|]. inversion H; subst. apply IH. assumption.
Qed.

Lemma recent_length {A : Type} (old : Z -> bool) (times : list Z)
    (vals : list A) :
  (length (Dpcm.recent old times vals) <= length vals)%nat.
Proof. unfold Dpcm.recent. rewrite length_skipn. lia. Qed.

Lemma over_length (t : float) (vals : list float) :
  (length (Dpcm.over t vals) <= length vals)%nat.
Proof. unfold Dpcm.over. apply filter_length_le. Qed.

Lemma crossings_range (thr : float) (rest : list float) :
  forall prev, 0 <= Dpcm.crossings thr prev rest <= Z.of_nat (length rest).
Proof.
  induction rest as [|c rest IH]; intros prev; cbn [Dpcm.crossings length].
  - lia.
  - specialize (IH c). destruct (Dpcm.crossing thr prev c); lia.
Qed.

(** Pushing to two parallel buffers and shifting both when the first one
    exceeds its capacity. *)
Lemma shift_both {A B : Type} (cap : Z) (l : list A) (m : list B)
    (x : A) (y : B) :
  1 <= cap -> length l = length m -> Z.of_nat (length l) <= cap ->
  let full := cap <? Z.of_nat (length (l ++ [x])) in
  exists l' m',
    (if full then tl (l ++ [x]) else l ++ [x]) = l' ++ [x]
    /\ (if full then tl (m ++ [y]) else m ++ [y]) = m' ++ [y]
    /\ length l' = length m'
    /\ Z.of_nat (length l') < cap
    /\ (forall P : A -> Prop, Forall P l -> Forall P l').
Proof.
  intros Hc E L. cbv zeta. rewrite length_app. cbn [length].
  destruct (Z.ltb_spec cap (Z.of_nat (length l + 1))) as [G|G].
  - destruct l as [|a l]; [cbn in G; lia|].
    destruct m as [|b m]; [discriminate E|].
    exists l, m. cbn [app tl length] in *.
    repeat split; try lia.
    intros P H. inversion H; assumption.
  - exists l, m. repeat split; try lia. intros P H; exact H.
Qed.



(** The state after the ['ai-score'] listener. *)
Lemma onScore_tidy (s : float) (ts : Z) (t : option float) (now : Z)
    (g : Dpcm.Graph) :
  tidy g -> tidy (Dpcm.onScore s ts t now g) /\ readable (Dpcm.onScore s ts t now g).
Proof.
  intros [E [L [Ea [La [U B]]]]]. unfold Dpcm.onScore. cbv zeta.
  set (v := JS.max 0 (JS.min 1 (Dpcm.orZero s))).
  set (ts' := Dpcm.orNow ts now).
  set (thr := match t with Some t0 => Some t0 | None => Dpcm.aiThreshold g end).
  destruct (shift_both 300 (Dpcm.valuesRef g) (Dpcm.timesRef g) v ts'
              ltac:(lia) E ltac:(lia)) as [l' [m' [E1 [E2 [E3 [E4 E5]]]]]].
  cbv zeta in E1, E2. rewrite E1, E2.
  assert (U' : Forall (fun v => JS.in_unit v = true) (l' ++ [v])).
  { apply Forall_app. split; [apply E5, U|].
    constructor; [apply stored_score_unit|constructor]. }
  split.
  - unfold tidy. cbn [Dpcm.valuesRef Dpcm.timesRef Dpcm.actValsRef Dpcm.actTimesRef].
    rewrite !length_app. cbn [length].
    repeat split; try assumption; lia.
  - unfold readable. cbn [Dpcm.defectDensity Dpcm.pulseRateHz].
    set (vals := Dpcm.recent _ (m' ++ [ts']) (l' ++ [v])).
    assert (Lv : (length vals <= 300)%nat).
    { pose proof (recent_length (fun t0 => t0 <? ts' - 8000) (m' ++ [ts'])
                    (l' ++ [v])) as R.
      fold vals in R. rewrite length_app in R. cbn [length] in R. lia. }
    pose proof (over_length (Dpcm.thresholdOr thr) vals) as Lo.
    destruct (shown_table (Z.of_nat (length (Dpcm.over (Dpcm.thresholdOr thr) vals)))
                (Z.of_nat (length vals)) ltac:(lia) ltac:(lia)) as [D _].
    unfold shownDensity in D.
    split; [exact D|].
    set (prStart := Dpcm.leading _ (m' ++ [ts'])).
    pose proof (crossings_range (Dpcm.thresholdOr thr)
                  (skipn (S prStart) (l' ++ [v]))
                  (nth prStart (l' ++ [v]) nan)) as C.
    rewrite length_skipn, length_app in C. cbn [length] in C.
    apply pulse_table. lia.
Qed.

Lemma onActive_tidy (a : bool) (ts : Z) (now : Z) (g : Dpcm.Graph) :
  tidy g ->
  tidy (Dpcm.onActive a ts now g)
  /\ inPercent (Dpcm.defectDensity (Dpcm.onActive a ts now g)) = true
  /\ Dpcm.pulseRateHz (Dpcm.onActive a ts now g) = Dpcm.pulseRateHz g.
Proof.
  intros [E [L [Ea [La [U B]]]]]. unfold Dpcm.onActive. cbv zeta.
  set (v := if a then 1%float else 0%float).
  set (ts' := Dpcm.orNow ts now).
  destruct (shift_both 600 (Dpcm.actValsRef g) (Dpcm.actTimesRef g) v ts'
              ltac:(lia) Ea ltac:(lia)) as [l' [m' [E1 [E2 [E3 [E4 E5]]]]]].
  cbv zeta in E1, E2. rewrite E1, E2.
  assert (B' : Forall bit (l' ++ [v])).
  { apply Forall_app. split; [apply E5, B|].
    constructor; [|constructor]. subst v. destruct a; [right|left]; reflexivity. }
  split; [|split; [|reflexivity]].
  - unfold tidy. cbn [Dpcm.valuesRef Dpcm.timesRef Dpcm.actValsRef Dpcm.actTimesRef].
    rewrite !length_app. cbn [length].
    repeat split; try assumption; lia.
  - cbn [Dpcm.defectDensity].
    set (vals := Dpcm.recent _ (m' ++ [ts']) (l' ++ [v])).
    assert (Lv : (length vals <= 600)%nat).
    { pose proof (recent_length (fun t0 => t0 <? ts' - 8000) (m' ++ [ts'])
                    (l' ++ [v])) as R.
      fold vals in R. rewrite length_app in R. cbn [length] in R. lia. }
    assert (Bv : Forall bit vals) by (apply Forall_skipn, B').
    destruct (sum_bits vals Bv Lv) as [k [Hk Ek]]. rewrite Ek.
    exact (percent_table k (Z.of_nat (length vals)) ltac:(lia) ltac:(lia)).
Qed.

Lemma tick_tidy (now : Z) (g : Dpcm.Graph) :
  tidy g -> inPercent (Dpcm.defectDensity g) = true ->
  tidy (Dpcm.tick now g)
  /\ inPercent (Dpcm.defectDensity (Dpcm.tick now g)) = true
  /\ Dpcm.pulseRateHz (Dpcm.tick now g) = Dpcm.pulseRateHz g.
Proof.
  intros T R. pose proof T as [E [L [Ea [La [U B]]]]]. unfold Dpcm.tick.
  destruct (0 <? Z.of_nat (length (Dpcm.actTimesRef g))).
  - split; [exact T|]. split; [|reflexivity].
    cbv zeta. cbn [Dpcm.withDensity Dpcm.defectDensity].
    set (vals := Dpcm.recent _ _ _).
    assert (Lv : (length vals <= 600)%nat).
    { pose proof (recent_length (fun t0 => 8000 <? now - t0) (Dpcm.actTimesRef g)
                    (Dpcm.actValsRef g)) as R'. fold vals in R'. lia. }
    assert (Bv : Forall bit vals) by (apply Forall_skipn, B).
    destruct (sum_bits vals Bv Lv) as [k [Hk Ek]]. rewrite Ek.
    exact (percent_table k (Z.of_nat (length vals)) ltac:(lia) ltac:(lia)).
  - destruct (0 <? Z.of_nat (length (Dpcm.timesRef g))).
    + split; [exact T|]. split; [|reflexivity].
      cbv zeta. cbn [Dpcm.withDensity Dpcm.defectDensity].
      set (vals := Dpcm.recent _ _ _).
      assert (Lv : (length vals <= 300)%nat).
      { pose proof (recent_length (fun t0 => 8000 <? now - t0) (Dpcm.timesRef g)
                      (Dpcm.valuesRef g)) as R'. fold vals in R'. lia. }
      pose proof (over_length (Dpcm.thresholdOr (Dpcm.aiThreshold g)) vals) as Lo.
      exact (percent_table
               (Z.of_nat (length (Dpcm.over (Dpcm.thresholdOr (Dpcm.aiThreshold g)) vals)))
               (Z.of_nat (length vals)) ltac:(lia) ltac:(lia)).
    + split; [exact T|]. split; [exact R|reflexivity].
Qed.

Lemma graph_handle (i : Dpcm.Input) (g : Dpcm.Graph) :
  tidy g -> readable g ->
  tidy (Dpcm.handle i g) /\ readable (Dpcm.handle i g).
Proof.
  intros T [R1 R2]. destruct i as [s ts t now|a ts now|t|now]; cbn [Dpcm.handle].
  - apply onScore_tidy, T.
  - destruct (onActive_tidy a ts now g T) as [T' [D P]].
    split; [exact T'|]. split; [exact D|rewrite P; exact R2].
  - destruct t as [x|]; (split; [exact T|split; [exact R1|exact R2]]).
  - destruct (tick_tidy now g T R1) as [T' [D P]].
    split; [exact T'|]. split; [exact D|rewrite P; exact R2].
Qed.

Lemma graph_handle_tidy (i : Dpcm.Input) (g : Dpcm.Graph) :
  tidy g -> tidy (Dpcm.handle i g).
Proof.
  intros T. destruct i as [s ts t now|a ts now|t|now]; cbn [Dpcm.handle].
  - apply onScore_tidy, T.
  - apply onActive_tidy, T.
  - destruct t as [x|]; exact T.
  - unfold Dpcm.tick.
    destruct (0 <? Z.of_nat (length (Dpcm.actTimesRef g))); [exact T|].
    destruct (0 <? Z.of_nat (length (Dpcm.timesRef g))); exact T.
Qed.

Lemma graph_run (ins : list Dpcm.Input) :
  forall g, tidy g -> readable g ->
            tidy (Dpcm.run ins g) /\ readable (Dpcm.run ins g).
Proof.
  induction ins as [|i ins IH]; intros g T R; [split; assumption|].
  cbn [Dpcm.run fold_left]. destruct (graph_handle i g T R) as [T' R'].
  apply (IH _ T' R').
Qed.

(** X16: whatever scores, activation flags, thresholds and timer ticks
    reach the pulse graph, its score and time buffers stay aligned and hold
    at most 300 entries, its activation buffers stay aligned and hold at
    most 600, and every stored score is a number in [0, 1]: a score that is
    NaN is stored as 0, one above 1 as 1. *)
Theorem graph_buffers_stay_tidy :
  forall (ins : list Dpcm.Input) (g : Dpcm.Graph),
    tidy g -> tidy (Dpcm.run ins g).
Proof.
  induction ins as [|i ins IH]; intros g T; [exact T|].
  cbn [Dpcm.run fold_left]. apply IH, graph_handle_tidy, T.
Qed.

Lemma graph_buffers_stay_tidy_witness :
  tidy (Dpcm.run [Dpcm.Score nan T0 None T0; Dpcm.Score 7 T0 (Some 0.2%float) T0;
                  Dpcm.Active true 0 T0; Dpcm.Interval (T0 + 500)]
                 Dpcm.mount).
Proof.
  apply (graph_buffers_stay_tidy
           [Dpcm.Score nan T0 None T0; Dpcm.Score 7 T0 (Some 0.2%float) T0;
            Dpcm.Active true 0 T0; Dpcm.Interval (T0 + 500)] Dpcm.mount).
  unfold tidy. cbn. repeat split; try lia; constructor.
Defined.

(** X17: the two read-outs of the pulse graph stay in range: after every
    handler the defect density is a percentage between 0 and 100 and the
    pulse rate lies between 0 and 75 Hz. *)
Theorem graph_readouts_stay_in_range :
  forall (ins : list Dpcm.Input) (g : Dpcm.Graph),
    tidy g -> readable g -> readable (Dpcm.run ins g).
Proof. intros ins g T R. apply (graph_run ins g T R). Qed.

Lemma graph_readouts_stay_in_range_witness :
  readable (Dpcm.run [Dpcm.Score 0.9 T0 (Some 0.2%float) T0;
                      Dpcm.Score 0.1 (T0 + 100) None T0] Dpcm.mount).
Proof.
  apply (graph_readouts_stay_in_range
           [Dpcm.Score 0.9 T0 (Some 0.2%float) T0;
            Dpcm.Score 0.1 (T0 + 100) None T0] Dpcm.mount).
  - unfold tidy. cbn. repeat split; try lia; constructor.
  - split; reflexivity.
Defined.



Lemma dispatch_app (now : Z) (l1 l2 : list App.Event) (g : Dpcm.Graph) :
  Dpcm.dispatch now (l1 ++ l2) g = Dpcm.dispatch now l2 (Dpcm.dispatch now l1 g).
Proof. apply fold_left_app. Qed.

Lemma dispatch_drawn (now : Z) (ov : option (Z * Z)) (h : Z) (isActive : bool)
    (s : App.Scan) (prev : option Box.t) (g : Dpcm.Graph) :
  Dpcm.dispatch now (snd (App.drawOverlay ov h isActive s prev)) g = g.
Proof.
  unfold App.drawOverlay. destruct ov as [[ovw ovh]|]; [|reflexivity].
  destruct (isActive && JS.gt (App.maxBlockSum s) 0); reflexivity.
Qed.

(** X19: the events of one scoring frame reach the pulse graph in the order
    threshold, score, activation; the density the graph shows afterwards is
    the one computed from the activation timeline, which overwrites the
    score-based density of the same frame and does not depend on any score,
    and the threshold in force is the sensitivity the frame handler closed
    over. *)
Theorem frame_density_comes_from_activation :
  forall (c : App.Closure) (f : App.Frame) (p : App.Player)
         (last : App.ImageData) (now : Z) (g : Dpcm.Graph),
    scoring c f p last ->
    let g' := Dpcm.dispatch now (snd (App.analyze c f p)) g in
    let a := App.active (stabilized c f p last) in
    g' = Dpcm.onActive a (App.now f) now
           (Dpcm.onScore (smoothed f p last) (App.now f)
                         (Some (App.c_sensitivity c)) now
                         (Dpcm.withThreshold (Some (App.c_sensitivity c)) g))
    /\ Dpcm.defectDensity g'
       = Dpcm.defectDensity (Dpcm.onActive a (App.now f) now g)
    /\ Dpcm.aiThreshold g' = Some (App.c_sensitivity c).
Proof.
  intros c f p last now g S. cbv zeta.
  destruct (analyze_scoring c f p last S) as [_ [_ [_ [_ [_ [_ Ev]]]]]].
  rewrite Ev, !dispatch_app, dispatch_drawn.
  assert (T : forall fire g0,
             Dpcm.dispatch now
               (if fire : bool
                then [App.OnIrregularity (smoothed f p last);
                      App.AiDetect (smoothed f p last) (App.now f)]
                else []) g0 = g0)
    by (intros [|] g0; reflexivity).
  rewrite T. cbn [Dpcm.dispatch fold_left Dpcm.deliver Dpcm.onThr].
  assert (W : Dpcm.withThreshold (Some (App.c_sensitivity c))
                (Dpcm.withThreshold (Some (App.c_sensitivity c)) g)
              = Dpcm.withThreshold (Some (App.c_sensitivity c)) g) by reflexivity.
  rewrite W. split; [reflexivity|]. split; reflexivity.
Qed.

Lemma frame_density_comes_from_activation_witness :
  Dpcm.aiThreshold
    (Dpcm.dispatch T0
       (snd (App.analyze watching (frameAt black (T0 + 200)) warm)) Dpcm.mount)
  = Some (App.c_sensitivity watching).
Proof.
  apply (frame_density_comes_from_activation watching (frameAt black (T0 + 200))
           warm (App.mkImage 160 1 black) T0 Dpcm.mount).
  repeat split; vm_compute; congruence.
Defined.

(** ** Re-creation of the analysis effect *)

Lemma analyze_recreate (c : App.Closure) (f : App.Frame) (p : App.Player) :
  App.analyze c f (Effect.recreate p) = (Effect.recreate p, [])
  \/ App.analyze c f (Effect.recreate p)
     = (App.keepFrame (frameOf f) (App.warmupRef p) (Effect.recreate p), []).
Proof.
  unfold App.analyze.
  destruct (negb (App.videoPresent f) || negb (App.c_hasMedia c)
            || negb (App.c_analyzing c) || (App.readyState f <? 2));
    [left; reflexivity|].
  destruct (negb (App.context2d f)); [left; reflexivity|].
  right. reflexivity.
Qed.

(** X20: when the analysis effect is re-created before every animation
    frame (its dependency [onIrregularity] is a new function at every render
    of the parent), the frame path never scores: each frame only stores
    itself as the previous frame, nothing is published, and the score
    buffer, the warm-up counter, the activation state, the detection count,
    the cooldown clock and the sensitivity never change. *)
Theorem rerender_before_every_frame_blinds_analysis :
  forall (frames : list (App.Closure * App.Frame)) (p : App.Player),
    Forall (fun es => es = []) (snd (Effect.rerendered frames p))
    /\ sameCells (fst (Effect.rerendered frames p)) p.
Proof.
  induction frames as [|[c f] frames IH]; intros p.
  - split; [constructor|]. repeat split.
  - cbn [Effect.rerendered fst snd].
    assert (H : snd (App.analyze c f (Effect.recreate p)) = []
                /\ sameCells (fst (App.analyze c f (Effect.recreate p))) p).
    { destruct (analyze_recreate c f p) as [E|E]; rewrite E;
        (split; [reflexivity|repeat split]). }
    destruct (App.analyze c f (Effect.recreate p)) as [p1 es].
    cbn [fst snd] in H. destruct H as [He Hc]. subst es.
    specialize (IH p1). destruct (Effect.rerendered frames p1) as [p2 log].
    cbn [fst snd] in *. destruct IH as [L C].
    split; [constructor; [reflexivity|exact L]|].
    destruct C as [C1 [C2 [C3 [C4 [C5 C6]]]]].
    destruct Hc as [H1 [H2 [H3 [H4 [H5 H6]]]]].
    repeat split; congruence.
Qed.

(** ** The speedometer *)

(** X21: whatever value the speedometer is given, the speed it shows is a
    number between 0 and 250 (NaN and the zeros are shown as 0), and the
    colour of the digits, the colour of the bar and the zone text always
    belong to the same speed band. *)
Theorem speedometer_shows_one_band :
  forall value : float,
    let c := Speedometer.clamped value in
    is_nan c = false
    /\ ((0 <=? c) && (c <=? 250))%float = true
    /\ (is_nan value = true -> c = 0%float)
    /\ nth_error Zones.shown (Zones.band c) = Some (Speedometer.display value).
Proof.
  intros value. cbv zeta.
  destruct (clamp_between 0 250 (Dpcm.orZero value)) as [N R];
    try reflexivity; [apply orZero_number|].
  fold (Speedometer.clamped value) in N, R.
  split; [exact N|]. split; [exact R|]. split.
  - intros H. unfold Speedometer.clamped, Dpcm.orZero. rewrite H. reflexivity.
  - unfold Speedometer.display, Zones.band, Speedometer.getSpeedZoneColor,
      Speedometer.getProgressBarColor, Speedometer.zone.
    destruct (Speedometer.clamped value <=? 50)%float; [reflexivity|].
    destruct (Speedometer.clamped value <=? 100)%float; [reflexivity|].
    destruct (Speedometer.clamped value <=? 150)%float; reflexivity.
Qed.

Lemma speedometer_shows_one_band_witness :
  Speedometer.clamped nan = 0%float.
Proof.
  apply (proj1 (proj2 (proj2 (speedometer_shows_one_band nan)))).
  reflexivity.
Defined.

(** ** The random numbers of the LIDAR panel *)

Lemma toInt32_range (z : Z) : int32 (Lidar.toInt32 z).
Proof.
  unfold int32, Lidar.toInt32. cbv zeta.
  pose proof (Z.mod_pos_bound z (2 ^ 32) ltac:(lia)) as B.
  destruct (Z.ltb_spec (z mod 2 ^ 32) (2 ^ 31)); lia.
Qed.

Lemma toInt32_mod (z : Z) : Lidar.toInt32 z mod 2 ^ 32 = z mod 2 ^ 32.
Proof.
  unfold Lidar.toInt32. cbv zeta.
  destruct (Z.ltb_spec (z mod 2 ^ 32) (2 ^ 31)).
  - apply Z.mod_mod. lia.
  - replace (z mod 2 ^ 32 - 2 ^ 32) with (z mod 2 ^ 32 + (-1) * 2 ^ 32) by lia.
    rewrite Z.mod_add by lia. apply Z.mod_mod. lia.
Qed.

Lemma toInt32_zero (z : Z) : Lidar.toInt32 z = 0 <-> z mod 2 ^ 32 = 0.
Proof.
  split; intros H.
  - rewrite <- toInt32_mod, H. reflexivity.
  - unfold Lidar.toInt32. cbv zeta. rewrite H. reflexivity.
Qed.

Lemma toInt32_idem (z : Z) : Lidar.toInt32 (Lidar.toInt32 z) = Lidar.toInt32 z.
Proof.
  pose proof (toInt32_range z) as R. unfold int32 in R.
  unfold Lidar.toInt32 at 1. cbv zeta.
  destruct (Z.ltb_spec 0 (Lidar.toInt32 z + 1)) as [P|P].
  - rewrite Z.mod_small by lia.
    destruct (Z.ltb_spec (Lidar.toInt32 z) (2 ^ 31)); lia.
  - replace (Lidar.toInt32 z mod 2 ^ 32) with (Lidar.toInt32 z + 2 ^ 32).
    + destruct (Z.ltb_spec (Lidar.toInt32 z + 2 ^ 32) (2 ^ 31)); lia.
    + apply Z.mod_unique with (q := -1); lia.
Qed.

Lemma toInt32_testbit (z i : Z) :
  0 <= i < 32 -> Z.testbit (Lidar.toInt32 z) i = Z.testbit z i.
Proof.
  intros H.
  rewrite <- (Z.mod_pow2_bits_low (Lidar.toInt32 z) 32 i) by lia.
  rewrite toInt32_mod. apply Z.mod_pow2_bits_low. lia.
Qed.

Lemma low_bits_zero (z : Z) :
  z mod 2 ^ 32 = 0 <-> (forall i, 0 <= i < 32 -> Z.testbit z i = false).
Proof.
  split.
  - intros H i Hi. rewrite <- (Z.mod_pow2_bits_low z 32 i) by lia.
    rewrite H. apply Z.bits_0.
  - intros H. apply Z.bits_inj'. intros i Hi. rewrite Z.bits_0.
    destruct (Z.lt_ge_cases i 32) as [L|L].
    + rewrite Z.mod_pow2_bits_low by lia. apply H. lia.
    + apply Z.mod_pow2_bits_high. lia.
Qed.

Lemma xor_testbit (a b i : Z) :
  0 <= i < 32 ->
  Z.testbit (Lidar.xor a b) i = xorb (Z.testbit a i) (Z.testbit b i).
Proof.
  intros H. unfold Lidar.xor.
  rewrite toInt32_testbit, Z.lxor_spec, !toInt32_testbit by lia. reflexivity.
Qed.

Lemma shl_testbit (x a i : Z) :
  0 <= a -> 0 <= i < 32 ->
  Z.testbit (Lidar.shl x a) i = if i <? a then false else Z.testbit x (i - a).
Proof.
  intros Ha H. unfold Lidar.shl.
  rewrite toInt32_testbit, Z.shiftl_spec by lia.
  destruct (Z.ltb_spec i a) as [L|L].
  - apply Z.testbit_neg_r. lia.
  - apply toInt32_testbit. lia.
Qed.

Lemma shru_testbit (x a i : Z) :
  0 <= a -> 0 <= i < 32 ->
  Z.testbit (Lidar.shru x a) i
  = if i + a <? 32 then Z.testbit x (i + a) else false.
Proof.
  intros Ha H. unfold Lidar.shru, Lidar.toUint32.
  rewrite Z.shiftr_spec by lia.
  destruct (Z.ltb_spec (i + a) 32) as [L|L].
  - apply Z.mod_pow2_bits_low. lia.
  - apply Z.mod_pow2_bits_high. lia.
Qed.

Lemma xor_int32 (a b : Z) : int32 (Lidar.xor a b).
Proof. apply toInt32_range. Qed.

Lemma xor_zero (a b : Z) :
  Lidar.xor a b = 0 ->
  forall i, 0 <= i < 32 -> Z.testbit a i = Z.testbit b i.
Proof.
  intros H i Hi.
  assert (Z.testbit (Lidar.xor a b) i = false) as T
    by (rewrite H; apply Z.bits_0).
  rewrite xor_testbit in T by lia.
  destruct (Z.testbit a i), (Z.testbit b i); cbn in T; congruence.
Qed.

Lemma xor_shl_nonzero (x a : Z) :
  0 < a -> Lidar.toInt32 x <> 0 -> Lidar.xor x (Lidar.shl x a) <> 0.
Proof.
  intros Ha Hx E. apply Hx. apply toInt32_zero, low_bits_zero.
  pose proof (xor_zero _ _ E) as B.
  assert (forall n : nat, forall i, 0 <= i < Z.of_nat n -> i < 32 ->
                                    Z.testbit x i = false) as A.
  { induction n as [|n IH]; intros i Hi Hi32; [lia|].
    rewrite (B i) by lia. rewrite shl_testbit by lia.
    destruct (Z.ltb_spec i a) as [L|L]; [reflexivity|].
    apply IH; lia. }
  intros i Hi. apply (A 32%nat); lia.
Qed.

Lemma xor_shru_nonzero (x a : Z) :
  0 < a -> Lidar.toInt32 x <> 0 -> Lidar.xor x (Lidar.shru x a) <> 0.
Proof.
  intros Ha Hx E. apply Hx. apply toInt32_zero, low_bits_zero.
  pose proof (xor_zero _ _ E) as B.
  assert (forall n : nat, forall i, 32 - Z.of_nat n <= i < 32 -> 0 <= i ->
                                    Z.testbit x i = false) as A.
  { induction n as [|n IH]; intros i Hi Hi0; [lia|].
    rewrite (B i) by lia. rewrite shru_testbit by lia.
    destruct (Z.ltb_spec (i + a) 32) as [L|L]; [|reflexivity].
    apply IH; lia. }
  intros i Hi. apply (A 32%nat); lia.
Qed.

Lemma xor_toInt32 (a b : Z) : Lidar.toInt32 (Lidar.xor a b) = Lidar.xor a b.
Proof. unfold Lidar.xor. apply toInt32_idem. Qed.

Lemma xorshift_nonzero (x : Z) :
  Lidar.toInt32 x <> 0 -> Lidar.xorshift x <> 0.
Proof.
  intros H. unfold Lidar.xorshift. cbv zeta.
  apply xor_shl_nonzero; [lia|]. rewrite xor_toInt32.
  apply xor_shru_nonzero; [lia|]. rewrite xor_toInt32.
  apply xor_shl_nonzero; [lia|exact H].
Qed.

Lemma allFrom_spec (f : Z -> bool) (n : nat) :
  forall z, allFrom n f z = true ->
            forall k, z <= k < z + Z.of_nat n -> f k = true.
Proof.
  induction n as [|n IH]; intros z H k Hk; [lia|].
  cbn [allFrom] in H. apply andb_prop in H. destruct H as [H0 H1].
  destruct (Z.eq_dec k z) as [E|E]; [subst; exact H0|].
  apply (IH (z + 1) H1). lia.
Qed.

Lemma unit_fractions (k : Z) :
  0 <= k < 1000000 -> unitFraction k = true.
Proof.
  intros H.
  assert (T : allFrom (Z.to_nat 1000000) unitFraction 0 = true)
    by (vm_cast_no_check (eq_refl true)).
  apply (allFrom_spec _ _ _ T). lia.
Qed.

Lemma rand_unfold (seed : Z) :
  Lidar.rand seed
  = (Lidar.xorshift (Lidar.toInt32 seed),
     Lidar.fraction (Lidar.toUint32 (Lidar.xorshift (Lidar.toInt32 seed)))).
Proof. reflexivity. Qed.

Lemma pair_fst {A B : Type} (a : A) (b : B) : fst (a, b) = a.
Proof. reflexivity. Qed.

Lemma pair_snd {A B : Type} (a : A) (b : B) : snd (a, b) = b.
Proof. reflexivity. Qed.

Lemma rand_fst (seed : Z) :
  fst (Lidar.rand seed) = Lidar.xorshift (Lidar.toInt32 seed).
Proof. rewrite rand_unfold. apply pair_fst. Qed.

Lemma xorshift_int32 (x : Z) : int32 (Lidar.xorshift x).
Proof. unfold Lidar.xorshift. cbv zeta. apply xor_int32. Qed.

Lemma xorshift_toInt32 (x : Z) :
  Lidar.toInt32 (Lidar.xorshift x) = Lidar.xorshift x.
Proof. unfold Lidar.xorshift. cbv zeta. apply xor_toInt32. Qed.

Lemma fraction_unit (u : Z) :
  exists k, 0 <= k < 1000000
            /\ Lidar.fraction u = (JS.ofZ k / 1000000)%float
            /\ ((0 <=? Lidar.fraction u) && (Lidar.fraction u <? 1))%float = true.
Proof.
  pose proof (Z.mod_pos_bound u 1000000 ltac:(lia)) as B.
  exists (u mod 1000000). split; [exact B|]. split; [reflexivity|].
  exact (unit_fractions _ B).
Qed.

(** X22: every call of [rand] leaves a 32-bit integer in the seed and
    returns [k / 1000000] for an integer [0 <= k < 1000000], a number in
    [0, 1), whatever the seed was. *)
Theorem rand_returns_a_unit_fraction :
  forall seed : Z,
    int32 (fst (Lidar.rand seed))
    /\ exists k, 0 <= k < 1000000
                 /\ snd (Lidar.rand seed) = (JS.ofZ k / 1000000)%float
                 /\ ((0 <=? snd (Lidar.rand seed))
                     && (snd (Lidar.rand seed) <? 1))%float = true.
Proof.
  intros seed. rewrite rand_unfold, pair_fst, pair_snd. split.
  - apply xorshift_int32.
  - apply fraction_unit.
Qed.

Lemma seedAfter_S (n : nat) (seed : Z) :
  Lidar.seedAfter (S n) seed = fst (Lidar.rand (Lidar.seedAfter n seed)).
Proof. reflexivity. Qed.

Lemma seedAfter_toInt32 (n : nat) (seed : Z) :
  Lidar.toInt32 seed <> 0 -> Lidar.toInt32 (Lidar.seedAfter n seed) <> 0.
Proof.
  intros H. induction n as [|n IH]; [exact H|].
  rewrite seedAfter_S, rand_fst, xorshift_toInt32.
  apply xorshift_nonzero. rewrite toInt32_idem. exact IH.
Qed.

(** X23: the generator never gets stuck: a seed that is not 0 (as a 32-bit
    integer) never becomes 0, however often [rand] is called, so the
    initial seed 12345 never does; only the seed 0 is a fixed point, and
    from it [rand] returns 0 for ever. *)
Theorem rand_never_reaches_zero :
  (forall (n : nat) (seed : Z),
      Lidar.toInt32 seed <> 0 -> Lidar.seedAfter n seed <> 0)
  /\ (forall n : nat, Lidar.seedAfter n 12345 <> 0)
  /\ Lidar.rand 0 = (0, 0%float).
Proof.
  assert (A : forall (n : nat) (seed : Z),
             Lidar.toInt32 seed <> 0 -> Lidar.seedAfter n seed <> 0).
  { intros n seed H E. apply (seedAfter_toInt32 n seed H).
    rewrite E. reflexivity. }
  split; [exact A|]. split.
  - intros n. apply A. vm_compute. discriminate.
  - vm_compute. reflexivity.
Qed.

Lemma rand_never_reaches_zero_witness :
  (Lidar.seedAfter 3 12345 =? 0) = false.
Proof.
  apply Z.eqb_neq.
  apply (proj1 rand_never_reaches_zero 3%nat 12345).
  vm_compute. discriminate.
Defined.

(** ** The glow of the LIDAR panel *)

Lemma unit_or_nan (x : float) :
  is_nan (JS.max 0 (JS.min 1 x)) = true
  \/ JS.in_unit (JS.max 0 (JS.min 1 x)) = true.
Proof.
  destruct (is_nan x) eqn:E.
  - left. unfold JS.min. rewrite E, orb_true_r. reflexivity.
  - right. apply (clamp_between 0 1 x); try reflexivity. exact E.
Qed.

Lemma lidar_onScore_nan (s : option float) (level : float) :
  is_nan level = true -> is_nan (Lidar.onScore s level) = true.
Proof.
  intros H. destruct s as [s|]; [|exact H]. cbn [Lidar.onScore].
  assert (N : is_nan (0.85 * level + 0.15 * s)%float = true)
    by (apply NaN.add_l, NaN.mul_r, H).
  unfold JS.min. rewrite N, orb_true_r. reflexivity.
Qed.

Lemma lidar_dispatch_nan (es : list App.Event) :
  forall level, is_nan level = true -> is_nan (Lidar.dispatch es level) = true.
Proof.
  induction es as [|e es IH]; intros level H; [exact H|].
  cbn [Lidar.dispatch fold_left]. apply IH.
  destruct e; try exact H. cbn [Lidar.deliver]. apply lidar_onScore_nan, H.
Qed.

(** X24: the AI level of the LIDAR panel is, after every score, either a
    number in [0, 1] or NaN; a score that is NaN makes it NaN, and NaN is
    never left again.  So one scoring frame whose score buffer holds a NaN
    among its last 8 scores turns the level NaN for good, whatever events
    follow. *)
Theorem lidar_level_is_unit_or_stuck_at_nan :
  (forall (s level : float),
      is_nan (Lidar.onScore (Some s) level) = true
      \/ JS.in_unit (Lidar.onScore (Some s) level) = true)
  /\ (forall (s level : float),
        is_nan s = true -> is_nan (Lidar.onScore (Some s) level) = true)
  /\ (forall (es : list App.Event) (level : float),
        is_nan level = true -> is_nan (Lidar.dispatch es level) = true)
  /\ (forall (c : App.Closure) (f : App.Frame) (p : App.Player)
             (last : App.ImageData) (n : nat) (later : list App.Event)
             (level : float),
        scoring c f p last -> (n < 7)%nat -> poisoned n (App.scoreBufRef p) ->
        is_nan (Lidar.dispatch (snd (App.analyze c f p) ++ later) level) = true).
Proof.
  split; [|split; [|split]].
  - intros s level. apply unit_or_nan.
  - intros s level H. cbn [Lidar.onScore].
    assert (N : is_nan (0.85 * level + 0.15 * s)%float = true)
      by (apply NaN.add_r, NaN.mul_r, H).
    unfold JS.min. rewrite N, orb_true_r. reflexivity.
  - intros es level. apply lidar_dispatch_nan.
  - intros c f p last n later level Sc L P.
    destruct (analyze_scoring c f p last Sc) as [_ [_ [_ [_ [_ [_ Ev]]]]]].
    rewrite Ev. unfold Lidar.dispatch. rewrite !fold_left_app.
    cbn [fold_left Lidar.deliver].
    assert (N : is_nan (smoothed f p last) = true).
    { unfold smoothed. apply (NaN.average_poisoned (S n)).
      apply pushScore_poisoned; assumption. }
    repeat apply lidar_dispatch_nan. cbn [Lidar.onScore].
    assert (N2 : is_nan (0.85 * level + 0.15 * smoothed f p last)%float = true)
      by (apply NaN.add_r, NaN.mul_r, N).
    unfold JS.min. rewrite N2, orb_true_r. reflexivity.
Qed.

Lemma lidar_level_is_unit_or_stuck_at_nan_witness :
  is_nan (Lidar.onScore (Some nan) 0.5) = true.
Proof.
  apply (proj1 (proj2 lidar_level_is_unit_or_stuck_at_nan) nan 0.5%float).
  reflexivity.
Defined.

(** ** The history of the IMU panel *)

Lemma imu_push_length (arr : list float) (v : float) :
  length (Imu.push arr v)
  = if (80 <? Z.of_nat (length arr + 1)) then length arr else S (length arr).
Proof.
  unfold Imu.push. cbv zeta. rewrite length_app. cbn [length].
  destruct (Z.ltb_spec 80 (Z.of_nat (length arr + 1))) as [G|G].
  - destruct arr as [|a arr]; [cbn in G; lia|].
    cbn [app tl length]. rewrite length_app. cbn. lia.
  - rewrite length_app. cbn. lia.
Qed.

Lemma imu_render_aligned (prev imu : option Imu.Reading) (h : Imu.Hist) :
  aligned h -> aligned (Imu.render prev imu h).
Proof.
  intros [E1 [E2 L]]. unfold Imu.render. cbv zeta.
  destruct (match prev with Some p => negb (Imu.sameDeps p (Imu.reading imu))
                       | None => true end); [|repeat split; assumption].
  unfold aligned. cbn [Imu.x Imu.y Imu.z]. rewrite !imu_push_length.
  rewrite <- E2, <- E1.
  destruct (Z.ltb_spec 80 (Z.of_nat (length (Imu.x h) + 1))); repeat split; lia.
Qed.

(** X25: the three histories of the IMU panel always have the same length,
    at most 80, whatever readings arrive; a render whose reading is the
    same as that of the previous render adds no sample, so the sparkline
    shows changes of the reading, not a uniform time series. *)
Theorem imu_histories_stay_aligned :
  (forall (imus : list (option Imu.Reading)) (prev : option Imu.Reading)
          (h : Imu.Hist),
      aligned h -> aligned (Imu.renders prev imus h))
  /\ (forall (imu : option Imu.Reading) (h : Imu.Hist),
        Imu.render (Some (Imu.reading imu)) imu h = h).
Proof.
  split.
  - induction imus as [|i imus IH]; intros prev h A; [exact A|].
    cbn [Imu.renders]. apply IH, imu_render_aligned, A.
  - intros imu h. unfold Imu.render, Imu.sameDeps. cbv zeta.
    rewrite !(proj2 (Leibniz.eqb_spec _ _) eq_refl). reflexivity.
Qed.

Lemma imu_histories_stay_aligned_witness :
  aligned (Imu.renders None [None; Some (Imu.mkReading 0.1 0 1); None]
                       (Imu.mkHist [] [] [])).
Proof.
  apply (proj1 imu_histories_stay_aligned
           [None; Some (Imu.mkReading 0.1 0 1); None] None (Imu.mkHist [] [] [])).
  unfold aligned. cbn. repeat split; lia.
Defined.

(** ** The shell of the cockpit *)

(** X26: a defect reported by the aggregator while the camera is on, or
    while no upload is playing, changes nothing and does nothing.  When it
    is accepted, it is put first in the notification log with the location
    shown as ['--'] even if a GPS fix is known (the callback closed over the
    initial state), it raises no toast, it flashes the track and map
    panels, and it beeps exactly when audio is available.  Telemetry is
    applied whatever the camera does. *)
Theorem backend_defects_are_gated :
  (forall (evt : Shell.AggregatorEvent) (audio : bool) (i : Z) (a : Shell.App),
      isDefect evt = true ->
      Shell.camEnabled a = true \/ Shell.playActive a = false ->
      Shell.onAggregator evt audio i a = (a, []))
  /\ (forall (evt : Shell.AggregatorEvent) (audio : bool) (i : Z) (a : Shell.App),
        isDefect evt = true ->
        Shell.camEnabled a = false -> Shell.playActive a = true ->
        let a' := fst (Shell.onAggregator evt audio i a) in
        (exists t, hd_error (Shell.notifLog a') = Some t
                   /\ Shell.id t = i
                   /\ Shell.location (Shell.notice t) = None)
        /\ Shell.lastDefect a' = Some evt
        /\ Shell.toasts a' = Shell.toasts a
        /\ snd (Shell.onAggregator evt audio i a)
           = Shell.FlashAlert [Shell.track_front; Shell.map]
             :: (if audio then [Shell.Beep] else []))
  /\ (forall (speed chainage : float) (r : Imu.Reading) (g : Shell.Gps)
             (audio : bool) (i : Z) (a : Shell.App),
        let a' := fst (Shell.onAggregator (Shell.telemetry speed r g chainage)
                                          audio i a) in
        Shell.speedKmph a' = speed /\ Shell.chainageM a' = chainage
        /\ Shell.imuState a' = Some r /\ Shell.gps a' = Some g
        /\ Shell.notifLog a' = Shell.notifLog a).
Proof.
  split; [|split].
  - intros [sp r g ch|cl sv g ch url] audio i a D H; [discriminate D|].
    cbn [Shell.onAggregator].
    destruct H as [H|H]; rewrite H; [reflexivity|].
    rewrite orb_true_r. reflexivity.
  - intros [sp r g ch|cl sv g ch url] audio i a D C P; [discriminate D|].
    cbv zeta. cbn [Shell.onAggregator]. rewrite C, P. cbn [orb negb fst snd].
    split; [|split; [|split]].
    + eexists. cbn [Shell.appendNotification Shell.notifLog Shell.prepend
                    firstn hd_error].
      split; [reflexivity|]. split; reflexivity.
    + reflexivity.
    + reflexivity.
    + unfold Shell.beep. cbn [Shell.camEnabled Shell.playActive].
      try rewrite C. try rewrite P. cbn [orb negb]. destruct audio; reflexivity.
  - intros speed chainage r g audio i a. cbv zeta. repeat split.
Qed.

Lemma backend_defects_are_gated_witness :
  Shell.onAggregator
    (Shell.defect String.EmptyString Shell.high (Shell.mkGps 22.57 88.36) 120 None)
    true 7 Shell.mount
  = (Shell.mount, []).
Proof.
  apply (proj1 backend_defects_are_gated
           (Shell.defect String.EmptyString Shell.high (Shell.mkGps 22.57 88.36)
                         120 None)
           true 7 Shell.mount).
  - reflexivity.
  - left. reflexivity.
Defined.

Lemma prepend_length (n : nat) (i : Z) (t : Shell.Notice)
    (prev : list Shell.Toast) :
  (length (Shell.prepend n i t prev) <= n)%nat.
Proof. unfold Shell.prepend. apply firstn_le_length. Qed.

Lemma shell_handle_capped (i : Shell.Input) (a : Shell.App) :
  capped a -> capped (fst (Shell.handle i a)).
Proof.
  intros [T N].
  destruct i as [p| |p|evt audio n|front gps0 chainage0 score audio i1 i2|n];
    cbn [Shell.handle fst].
  - split; assumption.
  - split; assumption.
  - split; assumption.
  - destruct evt as [sp r g ch|cl sv g ch url]; cbn [Shell.onAggregator].
    + split; assumption.
    + destruct (Shell.camEnabled a || negb (Shell.playActive a));
        [split; assumption|].
      split; [exact T|apply prepend_length].
  - split; [apply prepend_length|apply prepend_length].
  - split; [|exact N]. cbn [Shell.dismiss Shell.toasts].
    pose proof (filter_length_le (fun x => negb (Shell.id x =? n)) (Shell.toasts a)).
    lia.
Qed.

Lemma shell_run_cons (i : Shell.Input) (ins : list Shell.Input) (a : Shell.App) :
  fst (Shell.run (i :: ins) a) = fst (Shell.run ins (fst (Shell.handle i a))).
Proof.
  cbn [Shell.run]. destruct (Shell.handle i a) as [a1 e1]. cbn [fst].
  destruct (Shell.run ins a1) as [a2 e2]. reflexivity.
Qed.

(** X27: whatever happens to the cockpit, it never holds more than 5 toasts
    or more than 100 notifications.  An irregularity puts the same notice
    first in both lists and sets one 6 s timer for the toast; the notice
    carries the location and the chainage of the render that created the
    callback, whatever the state holds when the callback runs.  When the
    timer fires, no toast with its id is left, and the toasts with other
    ids keep their order. *)
Theorem toasts_and_notifications_are_capped :
  (forall (ins : list Shell.Input) (a : Shell.App),
      capped a -> capped (fst (Shell.run ins a)))
  /\ (forall (front : bool) (gps0 : option Shell.Gps) (chainage0 : float)
             (score : float) (audio : bool) (i1 i2 : Z) (a : Shell.App),
        let a' := fst (Shell.onIrregularity front gps0 chainage0 score audio
                                            i1 i2 a) in
        (exists t, hd_error (Shell.toasts a') = Some (Shell.mkToast i2 t)
                   /\ hd_error (Shell.notifLog a') = Some (Shell.mkToast i1 t)
                   /\ Shell.title t = Shell.IrregularityDetected score
                   /\ Shell.location t = gps0
                   /\ Shell.chainage t = chainage0)
        /\ filter (fun e => match e with
                            | Shell.DismissAfter _ _ => true
                            | _ => false
                            end)
                  (snd (Shell.onIrregularity front gps0 chainage0 score audio
                                             i1 i2 a))
           = [Shell.DismissAfter 6000 i2])
  /\ (forall (i : Z) (a : Shell.App),
        Forall (fun t => Shell.id t <> i) (Shell.toasts (Shell.dismiss i a))
        /\ Shell.toasts (Shell.dismiss i a)
           = filter (fun t => negb (Shell.id t =? i)) (Shell.toasts a)
        /\ Shell.notifLog (Shell.dismiss i a) = Shell.notifLog a).
Proof.
  split; [|split].
  - induction ins as [|i ins IH]; intros a C; [exact C|].
    rewrite shell_run_cons. apply IH, shell_handle_capped, C.
  - intros front gps0 chainage0 score audio i1 i2 a. cbv zeta.
    unfold Shell.onIrregularity. cbv zeta.
    cbn [Shell.pushToast Shell.appendNotification fst snd Shell.toasts
         Shell.notifLog Shell.prepend firstn hd_error].
    split.
    + eexists. split; [reflexivity|]. split; [reflexivity|].
      split; [reflexivity|]. split; reflexivity.
    + unfold Shell.beep.
      destruct (Shell.camEnabled a || negb (Shell.playActive a));
        [reflexivity|]. destruct (negb audio); reflexivity.
  - intros i a. cbn [Shell.dismiss Shell.toasts Shell.notifLog].
    split; [|split; reflexivity].
    apply Forall_forall. intros t Ht. apply filter_In in Ht.
    destruct Ht as [_ Ht]. apply negb_true_iff, Z.eqb_neq in Ht. exact Ht.
Qed.

Lemma toasts_and_notifications_are_capped_witness :
  capped (fst (Shell.run [Shell.PlayChange true; Shell.CamClick;
                          Shell.Irregularity true None 0 0.5 true 1 2;
                          Shell.Dismiss 2] Shell.mount)).
Proof.
  apply (proj1 toasts_and_notifications_are_capped
           [Shell.PlayChange true; Shell.CamClick;
            Shell.Irregularity true None 0 0.5 true 1 2; Shell.Dismiss 2] Shell.mount).
  split; cbn; lia.
Defined.

(** ** Loops and seeks *)

(** X28: a jump back in the video is counted twice.  The [seeking] handler
    resets and counts a loop when the time went back by more than 0.05 s,
    but leaves the remembered time as it was; the [timeupdate] that follows
    still sees a jump back of more than 0.1 s, so it resets and counts once
    more: after the two events the loop counter has grown by 2, both have
    published the reset, and only then is the new time remembered. *)
Theorem backward_seek_is_counted_twice :
  forall (t t' : float) (rd rd' : Ai.Read) (t1 t2 t3 t4 : Z)
         (p : App.Player),
    JS.lt (t + 0.05)%float (App.prevTimeRef p) = true ->
    JS.lt (t' + 0.1)%float (App.prevTimeRef p) = true ->
    let s := App.onSeeking (Some t) rd t1 t2 p in
    let u := App.onTimeUpdate (Some t') rd' t3 t4 (fst s) in
    App.loopCount (fst s) = App.loopCount p + 1
    /\ App.prevTimeRef (fst s) = App.prevTimeRef p
    /\ App.loopCount (fst u) = App.loopCount p + 2
    /\ App.prevTimeRef (fst u) = t'
    /\ hd_error (snd s) = Some (App.AiActive false t2)
    /\ hd_error (snd u) = Some (App.AiActive false t4)
    /\ cleared (fst u).
Proof.
  intros t t' rd rd' t1 t2 t3 t4 p H1 H2. cbv zeta.
  assert (S1 : App.loopCount (fst (App.onSeeking (Some t) rd t1 t2 p))
               = App.loopCount p + 1
               /\ App.prevTimeRef (fst (App.onSeeking (Some t) rd t1 t2 p))
                  = App.prevTimeRef p
               /\ hd_error (snd (App.onSeeking (Some t) rd t1 t2 p))
                  = Some (App.AiActive false t2)).
  { unfold App.onSeeking. rewrite H1. unfold App.resetForLoop.
    destruct (App.restart _ (App.detectorRef p)) as [d es].
    repeat split. }
  destruct S1 as [L1 [P1 E1]].
  set (q := fst (App.onSeeking (Some t) rd t1 t2 p)) in *.
  split; [exact L1|]. split; [exact P1|].
  unfold App.onTimeUpdate. rewrite P1, H2.
  pose proof (resetForLoop_cleared rd' t3 t4 q) as C.
  unfold App.resetForLoop in *.
  destruct (App.restart _ (App.detectorRef q)) as [d es].
  cbn [fst snd App.loopCount App.prevTimeRef App.withPlayback hd_error] in *.
  split; [lia|]. split; [reflexivity|]. split; [exact E1|].
  split; [reflexivity|]. exact C.
Qed.

Lemma backward_seek_is_counted_twice_witness :
  App.loopCount
    (fst (App.onTimeUpdate (Some 0.2%float) (None, 2) (T0 + 170) (T0 + 170)
            (fst (App.onSeeking (Some 0%float) (None, 1) (T0 + 160) (T0 + 160)
                                midway))))
  = App.loopCount midway + 2.
Proof.
  apply (backward_seek_is_counted_twice 0 0.2 (None, 1) (None, 2)
           (T0 + 160) (T0 + 160) (T0 + 170) (T0 + 170) midway); reflexivity.
Defined.

(** ** A poisoned mean vector *)

Lemma fround_nan (x : float) : is_nan x = true -> is_nan (JS.fround x) = true.
Proof.
  intros H. unfold JS.fround.
  rewrite (proj2 (FloatFacts.Prim2SF_nan x) H). exact H.
Qed.

Lemma updateMean_keeps_nan (lr : float) (j : nat) :
  forall m e, nanAt j m -> nanAt j (Ai.updateMean lr m e).
Proof.
  induction j as [|j IH]; intros m e [v [Hv N]];
    destruct m as [|x m]; try discriminate Hv; cbn [Ai.updateMean nth_error] in *.
  - inversion Hv; subst. eexists. split; [reflexivity|].
    apply fround_nan, NaN.add_l, NaN.mul_r, N.
  - apply IH. exists v. split; assumption.
Qed.

Lemma updateMean_short (lr : float) (j : nat) :
  forall m e, (length e <= j < length m)%nat -> nanAt j (Ai.updateMean lr m e).
Proof.
  induction j as [|j IH]; intros m e L;
    destruct m as [|x m]; cbn [length] in L; try lia;
    cbn [Ai.updateMean nth_error].
  - destruct e as [|y e]; [|cbn [length] in L; lia].
    eexists. split; [reflexivity|].
    apply fround_nan, NaN.add_r, NaN.mul_r. reflexivity.
  - apply IH. destruct e as [|y e]; cbn [tl length] in *; lia.
Qed.

Lemma cosineLoop_nanAt (j : nat) :
  forall a b dot na nb,
    nanAt j b -> (j < length a)%nat ->
    is_nan (fst (fst (Ai.cosineLoop a b (dot, na, nb)))) = true.
Proof.
  induction j as [|j IH]; intros a b dot na nb [v [Hv N]] L;
    destruct a as [|x a]; cbn [length] in L; try lia;
    destruct b as [|y b]; try discriminate Hv;
    cbn [Ai.cosineLoop hd tl nth_error] in *.
  - inversion Hv; subst. apply cosineLoop_nan, NaN.add_r, NaN.mul_r, N.
  - apply IH; [exists v; split; assumption|lia].
Qed.

Lemma cosineDistance_nanAt (j : nat) (e m : Ai.Float32Array) :
  nanAt j m -> (j < length e)%nat -> is_nan (Ai.cosineDistance e m) = true.
Proof.
  intros N L. unfold Ai.cosineDistance.
  pose proof (cosineLoop_nanAt j e m 0 0 0 N L) as H.
  destruct (Ai.cosineLoop e m (0, 0, 0)%float) as [[dot na] nb].
  cbn [fst] in H. apply NaN.sub_r, NaN.div_l, H.
Qed.

Lemma sampling_poisoned (i : Z) (j : nat)
    (reads : list (option Ai.Float32Array * Z)) :
  forall (v : Ai.Vars) (m : Ai.Float32Array),
    Ai.running v = true -> Ai.meanVector v = Some m -> nanAt j m ->
    Forall (fun e => (j < length e)%nat) (embeddings reads) ->
    Forall (fun s => is_nan s = true)
           (published (snd (sampling i true reads v))).
Proof.
  induction reads as [|[emb id] reads IH]; intros v m R M N F.
  - constructor.
  - cbn [sampling fst snd]. unfold Ai.step. rewrite R, M. cbn [negb].
    destruct emb as [e|].
    + change (embeddings ((Some e, id) :: reads)) with (e :: embeddings reads) in F.
      inversion F as [|? ? Fe Fr]; subst.
      set (v1 := Ai.mkVars _ _ _ _ _).
      pose proof (IH v1 (Ai.updateMean 0.02 m e) eq_refl eq_refl
                    (updateMean_keeps_nan 0.02 j m e N) Fr) as P.
      destruct (sampling i true reads v1) as [v2 e2]. cbn [snd] in *.
      rewrite !published_app. cbn [map published flat_map app].
      constructor; [apply (cosineDistance_nanAt j); assumption|exact P].
    + change (embeddings ((None, id) :: reads)) with (embeddings reads) in F.
      set (v1 := Ai.mkVars _ _ _ _ _).
      pose proof (IH v1 m eq_refl eq_refl N F) as P.
      destruct (sampling i true reads v1) as [v2 e2]. cbn [snd] in *.
      rewrite !published_app. cbn [map published flat_map app]. exact P.
Qed.

(** X29: one embedding that is shorter than the mean vector poisons the
    detector for good: the update of the running mean reads the missing
    entries as [undefined] and stores NaN there, later updates never remove
    a NaN, and from then on every score computed from an embedding that
    reaches that entry is NaN, read failures in between or not. *)
Theorem short_embedding_poisons_the_mean :
  (forall (lr : float) (m e : Ai.Float32Array),
      (length e < length m)%nat -> nanAt (length e) (Ai.updateMean lr m e))
  /\ (forall (lr : float) (j : nat) (m e : Ai.Float32Array),
        nanAt j m -> nanAt j (Ai.updateMean lr m e))
  /\ (forall (i : Z) (j : nat) (reads : list (option Ai.Float32Array * Z))
             (v : Ai.Vars) (m : Ai.Float32Array),
        Ai.running v = true -> Ai.meanVector v = Some m -> nanAt j m ->
        Forall (fun e => (j < length e)%nat) (embeddings reads) ->
        Forall (fun s => is_nan s = true)
               (published (snd (sampling i true reads v)))).
Proof.
  split; [|split].
  - intros lr m e L. apply updateMean_short. lia.
  - intros lr j m e. apply updateMean_keeps_nan.
  - intros i j reads v m. apply sampling_poisoned.
Qed.

Lemma short_embedding_poisons_the_mean_witness :
  nanAt 1 (Ai.updateMean 0.02 [1%float; 2%float] [1%float]).
Proof.
  apply (proj1 short_embedding_poisons_the_mean 0.02%float
           [1%float; 2%float] [1%float]).
  cbn. lia.
Defined.
